(** * aoo-js: the AOO source (aoo-source.js) as a shallow embedding

    The development follows the JavaScript class [AooSource]:

    - Node.js [Buffer] primitives used by the source (Node.js 14+, as the
      README requires; [writeBigUInt64BE] needs 12+): range-checked integer
      writes, bounds-checked reads, [indexOf], [toString('ascii')], [slice];
    - the OSC encoder [_buildOSCMessage] and decoder [_parseOscArgs];
    - the binary frame encoder [_buildDataMessage];
    - the session operations [start], [stop], [updateSampleRate],
      [sendAudio], [_sendBlock] and the dispatcher [_handleMessage].

    Buffers are lists of bytes (as [Z]), JavaScript strings are lists of
    UTF-16 code units, and an operation that may raise returns a [result].

    Modelling choices:
    - the datagram socket is the log of the datagrams handed to
      [socket.send], oldest first; sending itself never raises (the transport
      is outside the core);
    - [Date.now()] is an argument [now] of the operations that read the clock;
    - the numeric options, the counters and the sample rate are integer
      Numbers ([Z]); values decoded from the network are full JavaScript
      values ([jsval]), since [streamId] and [sinkVersion] are assigned from
      them unchecked;
    - the [while] loop of [sendAudio] takes fuel: it does not terminate when
      [blockSize * channels] is not positive;
    - the field [_detectedSampleRate] is only ever assigned [null] and is
      left out. *)

From Stdlib Require Import String Ascii DecimalString.
From Stdlib Require Import ZArith List Lia Bool.
From Stdlib Require DecimalZ.
Import ListNotations.
Open Scope Z_scope.

(** ** JavaScript values *)

Definition Buffer := list Z.
Definition jsstring := list Z.

(** A source-level string literal as code units. *)
Definition str (s : string) : jsstring :=
  map (fun a => Z.of_nat (nat_of_ascii a)) (list_ascii_of_string s).

(** A JavaScript Number: NaN, an infinity, or the finite value [m * 2^e]
    (every finite double has this form). *)
Inductive number :=
| NaN
| Infinity (negative : bool)
| Fin (m e : Z).

Inductive jsval :=
| JUndefined
| JNull
| JBool (b : bool)
| JNumber (x : number)
| JString (s : jsstring)
| JBuffer (b : Buffer)
| JBigInt (n : Z).

Definition JInt (z : Z) : jsval := JNumber (Fin z 0).

(** Errors raised by the runtime.  The source never inspects an error (its
    handlers are [catch (e) { }]); the offset of a failed read is kept because
    Node reports it. *)
Inductive exn :=
| ERR_OUT_OF_RANGE_offset (received : Z)
| ERR_OUT_OF_RANGE_value
| ERR_INVALID_ARG
| TypeError
| RangeError
| SyntaxError.

Inductive result (A : Type) :=
| Ok (a : A)
| Throw (e : exn).
Arguments Ok {A} a.
Arguments Throw {A} e.

Definition bind {A B} (r : result A) (k : A -> result B) : result B :=
  match r with
  | Ok a => k a
  | Throw e => Throw e
  end.

Notation "x <- r ;; k" := (bind r (fun x => k))
  (at level 61, r at next level, right associativity).

Definition len {A} (l : list A) : Z := Z.of_nat (length l).

(** [Math.ceil(n / 4) * 4] for an integer [n]. *)
Definition ceil4 (n : Z) : Z := (n + 3) / 4 * 4.

(** ** Numbers *)

(** [x > k] and [x < k] for a finite [x = m * 2^e] and an integer [k]. *)
Definition fin_gt (m e k : Z) : bool :=
  if 0 <=? e then k <? m * 2 ^ e else k * 2 ^ (- e) <? m.
Definition fin_lt (m e k : Z) : bool :=
  if 0 <=? e then m * 2 ^ e <? k else m <? k * 2 ^ (- e).

(** Truncation towards zero of a finite number. *)
Definition fin_trunc (m e : Z) : Z :=
  if 0 <=? e then m * 2 ^ e else Z.quot m (2 ^ (- e)).

Definition fin_is_integer (m e : Z) : bool :=
  (0 <=? e) || (Z.rem m (2 ^ (- e)) =? 0).

(** ToBoolean on the values the source tests with [||]. *)
Definition truthy (v : jsval) : bool :=
  match v with
  | JUndefined | JNull => false
  | JBool b => b
  | JNumber NaN => false
  | JNumber (Infinity _) => true
  | JNumber (Fin m _) => negb (m =? 0)
  | JString s => negb (Nat.eqb (length s) 0)
  | JBuffer _ => true
  | JBigInt n => negb (n =? 0)
  end.

(** The Number held by the four bytes of an IEEE binary32, most significant
    byte first. *)
Definition f32_decode (bits : Z) : number :=
  let sign := bits / 2 ^ 31 in
  let ex := (bits / 2 ^ 23) mod 256 in
  let frac := bits mod 2 ^ 23 in
  let sg := fun m => if sign =? 0 then m else - m in
  if ex =? 255 then (if frac =? 0 then Infinity (negb (sign =? 0)) else NaN)
  else if ex =? 0 then Fin (sg frac) (-149)
  else Fin (sg (frac + 2 ^ 23)) (ex - 150).

(** ** Buffer primitives *)

Definition be_bytes32 (z : Z) : Buffer :=
  [(z / 2 ^ 24) mod 256; (z / 2 ^ 16) mod 256; (z / 2 ^ 8) mod 256; z mod 256].

Definition be_bytes16 (z : Z) : Buffer :=
  [(z / 2 ^ 8) mod 256; z mod 256].

Definition be_bytes64 (z : Z) : Buffer :=
  be_bytes32 (z / 2 ^ 32) ++ be_bytes32 (z mod 2 ^ 32).

(** [buf.writeInt32BE(value)] on a Number: [checkInt] raises when the value is
    outside the signed 32-bit range; NaN passes both comparisons and is stored
    as 0; otherwise the bytes of [value >>> 24], ..., [value]. *)
Definition writeInt32BE_number (x : number) : result Buffer :=
  match x with
  | NaN => Ok (be_bytes32 0)
  | Infinity _ => Throw ERR_OUT_OF_RANGE_value
  | Fin m e =>
      if fin_gt m e 2147483647 || fin_lt m e (-2147483648)
      then Throw ERR_OUT_OF_RANGE_value
      else Ok (be_bytes32 (fin_trunc m e))
  end.

Definition writeInt32BE_Z (z : Z) : result Buffer := writeInt32BE_number (Fin z 0).

(** [buf.writeUInt16BE(value)] on an integer. *)
Definition writeUInt16BE (z : Z) : result Buffer :=
  if (65535 <? z) || (z <? 0) then Throw ERR_OUT_OF_RANGE_value
  else Ok (be_bytes16 z).

(** [buf.writeBigUInt64BE(value)] on a BigInt. *)
Definition writeBigUInt64BE (n : Z) : result Buffer :=
  if (18446744073709551615 <? n) || (n <? 0) then Throw ERR_OUT_OF_RANGE_value
  else Ok (be_bytes64 n).

Definition byte_at (buf : Buffer) (i : Z) : Z := nth (Z.to_nat i) buf 0.

Definition uint32_at (buf : Buffer) (off : Z) : Z :=
  byte_at buf off * 2 ^ 24 + byte_at buf (off + 1) * 2 ^ 16
  + byte_at buf (off + 2) * 2 ^ 8 + byte_at buf (off + 3).

(** A four-byte read is refused unless [0 <= offset <= length - 4]. *)
Definition check4 (buf : Buffer) (off : Z) : bool :=
  (0 <=? off) && (off + 4 <=? len buf).

Definition readInt32BE (buf : Buffer) (off : Z) : result Z :=
  if check4 buf off then
    let u := uint32_at buf off in
    Ok (if u <? 2 ^ 31 then u else u - 2 ^ 32)
  else Throw (ERR_OUT_OF_RANGE_offset off).

Definition readFloatBE (buf : Buffer) (off : Z) : result number :=
  if check4 buf off then Ok (f32_decode (uint32_at buf off))
  else Throw (ERR_OUT_OF_RANGE_offset off).

Fixpoint find_from (val : Z) (l : list Z) (i : Z) : Z :=
  match l with
  | [] => -1
  | b :: r => if b =? val then i else find_from val r (i + 1)
  end.

(** [buf.indexOf(val, byteOffset)]: a negative offset counts from the end (and
    from the start when it reaches before it); an offset at or past the end
    finds nothing. *)
Definition indexOf (buf : Buffer) (val byteOffset : Z) : Z :=
  let n := len buf in
  let start :=
    if byteOffset <? 0
    then (if 0 <=? byteOffset + n then byteOffset + n else 0)
    else (if byteOffset + 1 <=? n then byteOffset else -1) in
  if (start <? 0) || (n =? 0) then -1
  else find_from val (skipn (Z.to_nat start) buf) start.

Definition sub_list {A} (l : list A) (first last : Z) : list A :=
  firstn (Z.to_nat (last - first)) (skipn (Z.to_nat first) l).

(** [buf.toString('ascii', start, end)]: decoding clears the top bit of every
    byte. *)
Definition toString_ascii (buf : Buffer) (start end_ : Z) : jsstring :=
  let n := len buf in
  let start := if start <=? 0 then 0 else start in
  if n <=? start then []
  else
    let end_ := if n <? end_ then n else end_ in
    if end_ <=? start then []
    else map (fun b => Z.land b 127) (sub_list buf start end_).

Definition adjustOffset (offset length : Z) : Z :=
  if offset =? 0 then 0
  else if offset <? 0 then (if 0 <? offset + length then offset + length else 0)
  else if offset <? length then offset
  else length.

(** [buf.slice(start, end)]. *)
Definition slice (buf : Buffer) (start end_ : Z) : Buffer :=
  let s := adjustOffset start (len buf) in
  let e := adjustOffset end_ (len buf) in
  if s <? e then sub_list buf s e else [].

(** [Buffer.alloc(size)] followed by [write(s, 0, 'ascii')]: one byte per code
    unit (its low eight bits), cut at the size of the buffer. *)
Definition alloc_write_ascii (size : Z) (s : jsstring) : Buffer :=
  let bytes := firstn (Z.to_nat size) (map (fun c => c mod 256) s) in
  bytes ++ repeat 0 (Z.to_nat size - length bytes)%nat.

(** ** Runtime conversions the source relies on

    Conversions whose algorithm belongs to the JavaScript runtime and not to
    this repository are taken as parameters: parsing a string as a Number or
    as a BigInt, printing a Number that is not an integer below 2^53 in
    magnitude, decoding a Buffer as UTF-8 (what [String(buffer)] does), and
    the IEEE binary32 encoding of a Number, written by [writeFloatBE]. *)
Class Runtime := {
  StringToNumber : jsstring -> number;
  StringToBigInt : jsstring -> option Z;
  NumberToString : number -> jsstring;
  utf8Slice : Buffer -> jsstring;
  float32_bytes : number -> Z * Z * Z * Z
}.

(** The decimal digits of an integer, as printed by a template literal. *)
Definition dec (z : Z) : jsstring := str (NilZero.string_of_int (Z.to_int z)).

Section Conversions.
Context {rt : Runtime}.

(** ToNumber, as applied by the unary [+] inside the Buffer writers. *)
Definition ToNumber (v : jsval) : result number :=
  match v with
  | JUndefined => Ok NaN
  | JNull => Ok (Fin 0 0)
  | JBool b => Ok (Fin (if b then 1 else 0) 0)
  | JNumber x => Ok x
  | JString s => Ok (StringToNumber s)
  | JBuffer b => Ok (StringToNumber (utf8Slice b))
  | JBigInt _ => Throw TypeError
  end.

(** ToString, as applied by a template literal.  An integer Number below
    2^53 in magnitude prints as its decimal digits; any other finite Number
    (a fraction, or a magnitude from 2^53 on, where the shortest digits that
    read back are printed, in exponent notation from 1e21) is left to the
    runtime. *)
Definition ToString (v : jsval) : jsstring :=
  match v with
  | JUndefined => str "undefined"
  | JNull => str "null"
  | JBool b => if b then str "true" else str "false"
  | JNumber NaN => str "NaN"
  | JNumber (Infinity n) => if n then str "-Infinity" else str "Infinity"
  | JNumber (Fin m e) =>
      if fin_is_integer m e && (Z.abs (fin_trunc m e) <? 2 ^ 53)
      then dec (fin_trunc m e)
      else NumberToString (Fin m e)
  | JString s => s
  | JBuffer b => utf8Slice b
  | JBigInt n => dec n
  end.

(** [BigInt(v)]. *)
Definition ToBigInt (v : jsval) : result Z :=
  match v with
  | JUndefined | JNull => Throw TypeError
  | JBool b => Ok (if b then 1 else 0)
  | JNumber (Fin m e) =>
      if fin_is_integer m e then Ok (fin_trunc m e) else Throw RangeError
  | JNumber _ => Throw RangeError
  | JString s =>
      match StringToBigInt s with Some n => Ok n | None => Throw SyntaxError end
  | JBuffer b =>
      match StringToBigInt (utf8Slice b) with
      | Some n => Ok n
      | None => Throw SyntaxError
      end
  | JBigInt n => Ok n
  end.

Definition writeInt32BE (v : jsval) : result Buffer :=
  x <- ToNumber v ;; writeInt32BE_number x.

(** [buf.writeBigUInt64BE(value)] on any value: the range check compares the
    value with the BigInt bounds, which works across types and raises when
    the value is outside them; a value that passes the check and is not a
    BigInt then meets a BigInt in [value & 0xffffffffn], a TypeError. *)
Definition writeBigUInt64BE_value (v : jsval) : result Buffer :=
  let out_of_range (n : Z) := (18446744073709551615 <? n) || (n <? 0) in
  let of_string (s : jsstring) :=
    match StringToBigInt s with
    | Some n => if out_of_range n then Throw ERR_OUT_OF_RANGE_value
                else Throw TypeError
    | None => Throw TypeError
    end in
  match v with
  | JBigInt n => writeBigUInt64BE n
  | JNumber (Fin m e) =>
      if fin_gt m e 18446744073709551615 || fin_lt m e 0
      then Throw ERR_OUT_OF_RANGE_value else Throw TypeError
  | JNumber (Infinity _) => Throw ERR_OUT_OF_RANGE_value
  | JNumber NaN => Throw TypeError
  | JString s => of_string s
  | JBuffer b => of_string (utf8Slice b)
  | JUndefined | JNull | JBool _ => Throw TypeError
  end.

(** ** OSC encoder: [_buildOSCMessage] *)

Record oscarg := { type : jsstring; value : jsval }.

Definition jsstring_eqb (a b : jsstring) : bool :=
  if list_eq_dec Z.eq_dec a b then true else false.

(** One iteration of the [switch (arg.type)] of the encoder. *)
Definition encode_arg (arg : oscarg) : result Buffer :=
  let t := type arg in
  if jsstring_eqb t (str "i") then writeInt32BE (value arg)
  else if jsstring_eqb t (str "s") then
    match value arg with
    | JString s => Ok (alloc_write_ascii (ceil4 (len s + 1)) s)
    | JBuffer _ => Throw ERR_INVALID_ARG
    | JUndefined | JNull => Throw TypeError
    | _ => Throw ERR_OUT_OF_RANGE_value
    end
  else if jsstring_eqb t (str "b") then
    match value arg with
    | JBuffer b =>
        l <- writeInt32BE_Z (len b) ;;
        Ok (l ++ b ++ repeat 0 (Z.to_nat (ceil4 (len b) - len b)))
    | JString _ => Throw TypeError
    | JUndefined | JNull => Throw TypeError
    | _ => Throw ERR_OUT_OF_RANGE_value
    end
  else if jsstring_eqb t (str "t") then writeBigUInt64BE_value (value arg)
  else Ok [].

Fixpoint encode_args (args : list oscarg) : result Buffer :=
  match args with
  | [] => Ok []
  | a :: rest =>
      b <- encode_arg a ;;
      r <- encode_args rest ;;
      Ok (b ++ r)
  end.

Definition typeTag (args : list oscarg) : jsstring :=
  str "," ++ concat (map type args).

Definition _buildOSCMessage (address : jsstring) (args : list oscarg)
  : result Buffer :=
  let addrBuf := alloc_write_ascii (ceil4 (len address + 1)) address in
  let tag := typeTag args in
  let tagBuf := alloc_write_ascii (ceil4 (len tag + 1)) tag in
  body <- encode_args args ;;
  Ok (addrBuf ++ tagBuf ++ body).

End Conversions.

(** ** OSC decoder: [_parseOscArgs] *)

Definition tag_i := 105.
Definition tag_f := 102.
Definition tag_s := 115.
Definition tag_b := 98.
Definition tag_N := 78.
Definition tag_T := 84.
Definition tag_F := 70.

(** The [for (const tag of typeTags)] loop, with the running [offset] and the
    [args] pushed so far. *)
Fixpoint parse_tags (buf : Buffer) (tags : jsstring) (offset : Z)
    (args : list jsval) : result (list jsval) :=
  match tags with
  | [] => Ok args
  | tag :: rest =>
      if len buf <=? offset then Ok args
      else if tag =? tag_i then
        v <- readInt32BE buf offset ;;
        parse_tags buf rest (offset + 4) (args ++ [JInt v])
      else if tag =? tag_f then
        x <- readFloatBE buf offset ;;
        parse_tags buf rest (offset + 4) (args ++ [JNumber x])
      else if tag =? tag_s then
        let strEnd := indexOf buf 0 offset in
        parse_tags buf rest (ceil4 (strEnd + 1))
          (args ++ [JString (toString_ascii buf offset strEnd)])
      else if tag =? tag_b then
        size <- readInt32BE buf offset ;;
        let offset := offset + 4 in
        parse_tags buf rest (ceil4 (offset + size))
          (args ++ [JBuffer (slice buf offset (offset + size))])
      else if tag =? tag_N then parse_tags buf rest offset (args ++ [JNull])
      else if tag =? tag_T then parse_tags buf rest offset (args ++ [JBool true])
      else if tag =? tag_F then parse_tags buf rest offset (args ++ [JBool false])
      else parse_tags buf rest offset args
  end.

Definition _parseOscArgs (buf : Buffer) (addressEnd : Z) : result (list jsval) :=
  let offset := ceil4 (addressEnd + 1) in
  if len buf <=? offset then Ok []
  else
    let typeTagEnd := indexOf buf 0 offset in
    if typeTagEnd =? -1 then Ok []
    else
      let typeTags := toString_ascii buf (offset + 1) typeTagEnd in
      parse_tags buf typeTags (ceil4 (typeTagEnd + 1)) [].

(** Reading an encoded message back: the address up to its first NUL, then the
    arguments. *)
Definition decode (msg : Buffer) : jsstring * result (list jsval) :=
  let nullIdx := indexOf msg 0 0 in
  (toString_ascii msg 0 nullIdx, _parseOscArgs msg nullIdx).

(** ** The source object

    The fields of [AooSource] that the operations read or write.  [sinks] is
    the [Map] in insertion order, keyed by the string "host:port:sinkId";
    [socket] is the list of datagrams passed to [socket.send] so far.
    [sampleRate], [blockSize], [channels], [sourceId] and the counters are
    integer Numbers; [streamId] and [sinkVersion] can be assigned any decoded
    argument, so they are values. *)

Record Sink := { host : jsstring; port : Z; sinkId : Z; active : bool }.

Record Datagram := { dg_msg : Buffer; dg_port : Z; dg_host : jsstring }.

Record AooSource := {
  channels : Z;
  sampleRate : Z;
  blockSize : Z;
  sourceId : Z;
  localPort : Z;
  socket : list Datagram;
  sinks : list (jsstring * Sink);
  sequence : Z;
  streamId : jsval;
  isStreaming : bool;
  formatId : Z;
  sinkVersion : jsval;
  _startSent : bool;
  sampleBuffer : list jsval
}.

Definition set_sampleRate (v : Z) (o : AooSource) : AooSource :=
  {| channels := channels o; sampleRate := v; blockSize := blockSize o;
     sourceId := sourceId o; localPort := localPort o; socket := socket o;
     sinks := sinks o; sequence := sequence o; streamId := streamId o;
     isStreaming := isStreaming o; formatId := formatId o;
     sinkVersion := sinkVersion o; _startSent := _startSent o;
     sampleBuffer := sampleBuffer o |}.

Definition set_socket (v : list Datagram) (o : AooSource) : AooSource :=
  {| channels := channels o; sampleRate := sampleRate o; blockSize := blockSize o;
     sourceId := sourceId o; localPort := localPort o; socket := v;
     sinks := sinks o; sequence := sequence o; streamId := streamId o;
     isStreaming := isStreaming o; formatId := formatId o;
     sinkVersion := sinkVersion o; _startSent := _startSent o;
     sampleBuffer := sampleBuffer o |}.

Definition set_sinks (v : list (jsstring * Sink)) (o : AooSource) : AooSource :=
  {| channels := channels o; sampleRate := sampleRate o; blockSize := blockSize o;
     sourceId := sourceId o; localPort := localPort o; socket := socket o;
     sinks := v; sequence := sequence o; streamId := streamId o;
     isStreaming := isStreaming o; formatId := formatId o;
     sinkVersion := sinkVersion o; _startSent := _startSent o;
     sampleBuffer := sampleBuffer o |}.

Definition set_sequence (v : Z) (o : AooSource) : AooSource :=
  {| channels := channels o; sampleRate := sampleRate o; blockSize := blockSize o;
     sourceId := sourceId o; localPort := localPort o; socket := socket o;
     sinks := sinks o; sequence := v; streamId := streamId o;
     isStreaming := isStreaming o; formatId := formatId o;
     sinkVersion := sinkVersion o; _startSent := _startSent o;
     sampleBuffer := sampleBuffer o |}.

Definition set_streamId (v : jsval) (o : AooSource) : AooSource :=
  {| channels := channels o; sampleRate := sampleRate o; blockSize := blockSize o;
     sourceId := sourceId o; localPort := localPort o; socket := socket o;
     sinks := sinks o; sequence := sequence o; streamId := v;
     isStreaming := isStreaming o; formatId := formatId o;
     sinkVersion := sinkVersion o; _startSent := _startSent o;
     sampleBuffer := sampleBuffer o |}.

Definition set_isStreaming (v : bool) (o : AooSource) : AooSource :=
  {| channels := channels o; sampleRate := sampleRate o; blockSize := blockSize o;
     sourceId := sourceId o; localPort := localPort o; socket := socket o;
     sinks := sinks o; sequence := sequence o; streamId := streamId o;
     isStreaming := v; formatId := formatId o;
     sinkVersion := sinkVersion o; _startSent := _startSent o;
     sampleBuffer := sampleBuffer o |}.

Definition set_formatId (v : Z) (o : AooSource) : AooSource :=
  {| channels := channels o; sampleRate := sampleRate o; blockSize := blockSize o;
     sourceId := sourceId o; localPort := localPort o; socket := socket o;
     sinks := sinks o; sequence := sequence o; streamId := streamId o;
     isStreaming := isStreaming o; formatId := v;
     sinkVersion := sinkVersion o; _startSent := _startSent o;
     sampleBuffer := sampleBuffer o |}.

Definition set_sinkVersion (v : jsval) (o : AooSource) : AooSource :=
  {| channels := channels o; sampleRate := sampleRate o; blockSize := blockSize o;
     sourceId := sourceId o; localPort := localPort o; socket := socket o;
     sinks := sinks o; sequence := sequence o; streamId := streamId o;
     isStreaming := isStreaming o; formatId := formatId o;
     sinkVersion := v; _startSent := _startSent o;
     sampleBuffer := sampleBuffer o |}.

Definition set_startSent (v : bool) (o : AooSource) : AooSource :=
  {| channels := channels o; sampleRate := sampleRate o; blockSize := blockSize o;
     sourceId := sourceId o; localPort := localPort o; socket := socket o;
     sinks := sinks o; sequence := sequence o; streamId := streamId o;
     isStreaming := isStreaming o; formatId := formatId o;
     sinkVersion := sinkVersion o; _startSent := v;
     sampleBuffer := sampleBuffer o |}.

Definition set_sampleBuffer (v : list jsval) (o : AooSource) : AooSource :=
  {| channels := channels o; sampleRate := sampleRate o; blockSize := blockSize o;
     sourceId := sourceId o; localPort := localPort o; socket := socket o;
     sinks := sinks o; sequence := sequence o; streamId := streamId o;
     isStreaming := isStreaming o; formatId := formatId o;
     sinkVersion := sinkVersion o; _startSent := _startSent o;
     sampleBuffer := v |}.

(** A method body: it may raise, and the object keeps whatever was assigned
    before the error. *)
Definition M (A : Type) := AooSource -> result A * AooSource.

Definition ret {A} (a : A) : M A := fun o => (Ok a, o).
Definition raise {A} (e : exn) : M A := fun o => (Throw e, o).
Definition lift {A} (r : result A) : M A := fun o => (r, o).
Definition modify (f : AooSource -> AooSource) : M unit := fun o => (Ok tt, f o).

Definition mbind {A B} (m : M A) (k : A -> M B) : M B :=
  fun o =>
    match m o with
    | (Ok a, o') => k a o'
    | (Throw e, o') => (Throw e, o')
    end.

Notation "m >> k" := (mbind m (fun _ => k))
  (at level 62, right associativity).

(** [try { body } catch (e) { }]. *)
Definition try_catch (body : M unit) : M unit :=
  fun o => (Ok tt, snd (body o)).

(** [socket.send(msg, port, host)]. *)
Definition socket_send (msg : Buffer) (p : Z) (h : jsstring) : M unit :=
  modify (fun o =>
    set_socket (socket o ++ [{| dg_msg := msg; dg_port := p; dg_host := h |}]) o).

(** [new AooSource(options)] at clock reading [now]; an absent or zero option
    takes its default. *)
Record Options := {
  opt_channels : option Z;
  opt_sampleRate : option Z;
  opt_blockSize : option Z;
  opt_sourceId : option Z;
  opt_localPort : option Z
}.

Definition or_default (o : option Z) (d : Z) : Z :=
  match o with
  | Some v => if v =? 0 then d else v
  | None => d
  end.

Definition constructor (options : Options) (now : Z) : AooSource :=
  {| channels := or_default (opt_channels options) 2;
     sampleRate := or_default (opt_sampleRate options) 48000;
     blockSize := or_default (opt_blockSize options) 256;
     sourceId := or_default (opt_sourceId options) 1;
     localPort := or_default (opt_localPort options) 9998;
     socket := [];
     sinks := [];
     sequence := 0;
     streamId := JInt (Z.land now 2147483647);
     isStreaming := false;
     formatId := 0;
     sinkVersion := JString (str "2.0");
     _startSent := false;
     sampleBuffer := [] |}.

(** ** Sink management *)

(** The key [`${host}:${port}:${sinkId}`]; the port and the id are printed
    as Numbers. *)
Definition sink_key {rt : Runtime} (h : jsstring) (p id : Z) : jsstring :=
  h ++ str ":" ++ ToString (JInt p) ++ str ":" ++ ToString (JInt id).

Fixpoint map_has {V} (m : list (jsstring * V)) (k : jsstring) : bool :=
  match m with
  | [] => false
  | (k', _) :: r => jsstring_eqb k' k || map_has r k
  end.

(** [Map.prototype.set]: an existing key keeps its place. *)
Fixpoint map_set {V} (m : list (jsstring * V)) (k : jsstring) (v : V)
  : list (jsstring * V) :=
  match m with
  | [] => [(k, v)]
  | (k', v') :: r =>
      if jsstring_eqb k' k then (k, v) :: r else (k', v') :: map_set r k v
  end.

Definition addSink {rt : Runtime} (h : jsstring) (p id : Z) : M unit :=
  modify (fun o =>
    set_sinks (map_set (sinks o) (sink_key h p id)
                 {| host := h; port := p; sinkId := id; active := true |}) o).

(** ** Stream control *)

Definition start : M unit :=
  fun o =>
    if isStreaming o then (Ok tt, o)
    else (Ok tt,
          set_startSent false
            (set_sampleBuffer [] (set_sequence 0 (set_isStreaming true o)))).

Definition stop : M unit := modify (set_isStreaming false).

Definition round_div (n d : Z) : Z :=
  let q := n / d in
  let r := n mod d in
  if (d <? 2 * r) || ((2 * r =? d) && Z.odd q) then q + 1 else q.

(** The double [z / 10] for an integer Number [z]: the quotient rounded to 53
    significant bits, ties to even. *)
Definition number_div10 (z : Z) : number :=
  if z =? 0 then Fin 0 0
  else
    let a := Z.abs z in
    let scaled := fun e => (a * 2 ^ Z.max 0 (- e), 10 * 2 ^ Z.max 0 e) in
    let e0 := Z.log2 a - 56 in
    let e := if 2 ^ 53 <=? fst (scaled e0) / snd (scaled e0) then e0 + 1 else e0 in
    let m := round_div (fst (scaled e)) (snd (scaled e)) in
    Fin (if z <? 0 then - m else m) e.

Definition _makePcmExtension : Buffer := be_bytes32 3.

Section Source.
Context {rt : Runtime}.

Definition arg (t : string) (v : jsval) : oscarg := {| type := str t; value := v |}.

(** The argument array and the message built by [_sendStartOSC]. *)
Definition start_args (o : AooSource) : list oscarg :=
  let version :=
    if truthy (sinkVersion o) then sinkVersion o else JString (str "2.0") in
  [ arg "i" (JInt (sourceId o));
    arg "s" version;
    arg "i" (streamId o);
    arg "i" (JInt (sequence o));
    arg "i" (JInt (formatId o));
    arg "i" (JInt (channels o));
    arg "i" (JInt (sampleRate o));
    arg "i" (JInt (blockSize o));
    arg "s" (JString (str "pcm"));
    arg "b" (JBuffer _makePcmExtension);
    arg "t" (JBigInt 0);
    arg "i" (JNumber (number_div10 (sampleRate o)));
    arg "i" (JInt 0);
    arg "N" JNull;
    arg "N" JNull;
    arg "i" (JInt 0) ].

Definition start_message (o : AooSource) (id : Z) : result Buffer :=
  _buildOSCMessage (str "/aoo/sink/" ++ ToString (JInt id) ++ str "/start")
    (start_args o).

Definition _sendStartOSC (h : jsstring) (p id : Z) : M unit :=
  fun o => mbind (lift (start_message o id)) (fun msg => socket_send msg p h) o.

(** [for (const sink of this.sinks.values()) if (sink.active) _sendStartOSC] *)
Fixpoint start_each (l : list (jsstring * Sink)) : M unit :=
  match l with
  | [] => ret tt
  | (_, sink) :: r =>
      (if active sink then _sendStartOSC (host sink) (port sink) (sinkId sink)
       else ret tt) >> start_each r
  end.

Definition _sendStartToAllSinks : M unit :=
  (fun o => start_each (sinks o) o) >> modify (set_startSent true).

Definition _setSampleRate (newRate : Z) : M unit :=
  fun o =>
    if negb (sampleRate o =? newRate)
    then (Ok tt, set_formatId (formatId o + 1) (set_sampleRate newRate o))
    else (Ok tt, o).

Definition updateSampleRate (newRate : Z) : M unit :=
  fun o =>
    if negb (_startSent o) then _setSampleRate newRate o
    else if negb (sampleRate o =? newRate) then
      (modify (fun o => set_formatId (formatId o + 1) (set_sampleRate newRate o))
       >> (fun o => start_each (sinks o) o)) o
    else (Ok tt, o).

(** ** Audio data transmission *)

Definition kAooBinMsgDomainBit := 128.
Definition kAooBinMsgCmdData := 0.
Definition kAooMsgTypeSink := 1.

Definition writeUInt8 (z : Z) : result Buffer :=
  if (255 <? z) || (z <? 0) then Throw ERR_OUT_OF_RANGE_value else Ok [z].

(** [_buildDataMessage(sink, audioData)] on the object [o]. *)
Definition _buildDataMessage (o : AooSource) (sink : Sink) (audioData : Buffer)
  : result Buffer :=
  b0 <- writeUInt8 (Z.lor kAooMsgTypeSink kAooBinMsgDomainBit) ;;
  b1 <- writeUInt8 kAooBinMsgCmdData ;;
  b2 <- writeUInt8 (Z.land (sinkId sink) 255) ;;
  b3 <- writeUInt8 (Z.land (sourceId o) 255) ;;
  sid <- writeInt32BE (streamId o) ;;
  sq <- writeInt32BE_Z (sequence o) ;;
  r0 <- writeUInt8 0 ;;
  r1 <- writeUInt8 0 ;;
  l <- writeUInt16BE (len audioData) ;;
  Ok (b0 ++ b1 ++ b2 ++ b3 ++ sid ++ sq ++ r0 ++ r1 ++ l ++ audioData).

(** [buf.writeFloatBE(value, offset)]: the value first goes through unary
    [+], which raises on a BigInt; the bytes of the Number are the
    runtime's. *)
Definition writeFloatBE (v : jsval) : result Buffer :=
  x <- ToNumber v ;;
  let '(a, b, c, d) := float32_bytes x in Ok [a; b; c; d].

(** The loop of [_sendBlock] that fills [audioBytes], sample by sample. *)
Fixpoint audioBytes (samples : list jsval) : result Buffer :=
  match samples with
  | [] => Ok []
  | v :: rest =>
      b <- writeFloatBE v ;;
      r <- audioBytes rest ;;
      Ok (b ++ r)
  end.

(** [for (const sink of this.sinks.values())] of [_sendBlock]: every sink,
    active or not. *)
Fixpoint data_each (l : list (jsstring * Sink)) (audioBytes : Buffer) : M unit :=
  match l with
  | [] => ret tt
  | (_, sink) :: r =>
      (fun o =>
         mbind (lift (_buildDataMessage o sink audioBytes))
               (fun msg => socket_send msg (port sink) (host sink)) o)
      >> data_each r audioBytes
  end.

Definition next_sequence (s : Z) : Z :=
  if 2147483647 <=? s + 1 then 0 else s + 1.

Definition _sendBlock (samples : list jsval) : M unit :=
  mbind (lift (audioBytes samples)) (fun bytes =>
    (fun o => data_each (sinks o) bytes o)
    >> modify (fun o => set_sequence (next_sequence (sequence o)) o)).

(** The loop body of [sendAudio] that interleaves the two arrays; an index
    past the end of [right] reads [undefined]. *)
Fixpoint interleave (left right : list jsval) : list jsval :=
  match left with
  | [] => []
  | x :: l => x :: hd JUndefined right :: interleave l (tl right)
  end.

(** [while (this.sampleBuffer.length >= samplesPerBlock)]: [None] when the
    loop is still running after [fuel] iterations. *)
Fixpoint drain (fuel : nat) (samplesPerBlock : Z) (o : AooSource)
  : option (result unit * AooSource) :=
  if samplesPerBlock <=? len (sampleBuffer o) then
    match fuel with
    | O => None
    | S f =>
        let block := firstn (Z.to_nat samplesPerBlock) (sampleBuffer o) in
        let o1 :=
          set_sampleBuffer (skipn (Z.to_nat samplesPerBlock) (sampleBuffer o)) o in
        match _sendBlock block o1 with
        | (Ok _, o2) => drain f samplesPerBlock o2
        | (Throw e, o2) => Some (Throw e, o2)
        end
    end
  else Some (Ok tt, o).

(** The [if (!this._startSent)] block of [sendAudio]; [rate] is the optional
    third argument. *)
Definition announce (rate : option Z) : M unit :=
  fun o =>
    if negb (_startSent o) then
      ((match rate with
        | Some r =>
            if negb (r =? 0) && negb (r =? sampleRate o)
            then _setSampleRate r else ret tt
        | None => ret tt
        end) >> _sendStartToAllSinks) o
    else (Ok tt, o).

Definition push_samples (left right : list jsval) (o : AooSource) : AooSource :=
  set_sampleBuffer (sampleBuffer o ++ interleave left right) o.

Definition sendAudio (fuel : nat) (left right : list jsval) (rate : option Z)
    (o : AooSource) : option (result unit * AooSource) :=
  if negb (isStreaming o) then Some (Ok tt, o)
  else
    match announce rate o with
    | (Throw e, o1) => Some (Throw e, o1)
    | (Ok _, o1) =>
        let o2 := push_samples left right o1 in
        drain fuel (blockSize o2 * channels o2) o2
    end.

(** ** Incoming message handling *)

Fixpoint starts_with (s sub : jsstring) : bool :=
  match sub, s with
  | [], _ => true
  | c :: sub', d :: s' => (c =? d) && starts_with s' sub'
  | _ :: _, [] => false
  end.

Fixpoint includes (s sub : jsstring) : bool :=
  starts_with s sub
  || match s with
     | [] => false
     | _ :: s' => includes s' sub
     end.

(** The message built by [_sendPong] from the decoded [args]. *)
Definition pong_message (o : AooSource) (args : list jsval) (now : Z)
  : result Buffer :=
  let sinkId := nth 0 args JUndefined in
  let tt1 := nth 1 args JUndefined in
  let tt2 := now * 1000000 in
  let pongAddr := str "/aoo/sink/" ++ ToString sinkId ++ str "/pong" in
  b1 <- ToBigInt (if truthy tt1 then tt1 else JInt 0) ;;
  _buildOSCMessage pongAddr
    [ arg "i" (JInt (sourceId o)); arg "t" (JBigInt b1); arg "t" (JBigInt tt2) ].

Definition _sendPong (h : jsstring) (p : Z) (msg : Buffer) (nullIdx now : Z)
  : M unit :=
  try_catch
    (mbind (lift (_parseOscArgs msg nullIdx)) (fun args =>
       if 2 <=? len args then
         fun o =>
           mbind (lift (pong_message o args now))
                 (fun pongMsg => socket_send pongMsg p h) o
       else ret tt)).

Definition handle_invite (h : jsstring) (p : Z) (msg : Buffer) (nullIdx : Z)
  : M unit :=
  try_catch
    (mbind (lift (_parseOscArgs msg nullIdx)) (fun args =>
       if 2 <=? len args then
         let token := nth 1 args JUndefined in
         modify (set_streamId token)
         >> modify (set_formatId 0)
         >> modify (set_sequence 0)
         >> addSink h p 1
         >> _sendStartOSC h p 1
         >> start
       else ret tt)).

Definition handle_start (h : jsstring) (p : Z) (msg : Buffer) (nullIdx : Z)
  : M unit :=
  try_catch
    (mbind (lift (_parseOscArgs msg nullIdx)) (fun args =>
       if 2 <=? len args
       then modify (set_sinkVersion (nth 1 args JUndefined))
       else ret tt))
  >> (fun o =>
        if negb (map_has (sinks o) (sink_key h p 1)) then addSink h p 1 o
        else (Ok tt, o))
  >> _sendStartOSC h p 1.

(** [msg.length >= 4 && (msg[0] & kAooBinMsgDomainBit)] *)
Definition is_binary (msg : Buffer) : bool :=
  (4 <=? len msg) && negb (Z.land (byte_at msg 0) kAooBinMsgDomainBit =? 0).

(** [_handleMessage(msg, rinfo)] with [rinfo = {address: h, port: p}], at
    clock reading [now]. *)
Definition _handleMessage (msg : Buffer) (h : jsstring) (p : Z) (now : Z)
  : M unit :=
  if is_binary msg
  then ret tt
  else
    let nullIdx := indexOf msg 0 0 in
    if 0 <? nullIdx then
      let address := toString_ascii msg 0 nullIdx in
      if includes address (str "/invite") then handle_invite h p msg nullIdx
      else if includes address (str "/start") then handle_start h p msg nullIdx
      else if includes address (str "/ping") then _sendPong h p msg nullIdx now
      else ret tt
    else ret tt.

End Source.

(** A runtime instance for evaluating the model on inputs that do not reach
    the parameterised conversions (the float encoding is fixed to zero
    bytes). *)
Definition test_runtime : Runtime :=
  {| StringToNumber := fun _ => NaN;
     StringToBigInt := fun _ => None;
     NumberToString := fun _ => [];
     utf8Slice := fun b => b;
     float32_bytes := fun _ => (0, 0, 0, 0) |}.

Definition default_options : Options :=
  {| opt_channels := None; opt_sampleRate := None; opt_blockSize := None;
     opt_sourceId := None; opt_localPort := None |}.

Definition datagram (m : Buffer) (p : Z) (h : jsstring) : Datagram :=
  {| dg_msg := m; dg_port := p; dg_host := h |}.

(** A well-formed OSC datagram with the given address and arguments. *)
Definition osc (address : string) (args : list oscarg) : Buffer :=
  match @_buildOSCMessage test_runtime (str address) args with
  | Ok m => m
  | Throw _ => []
  end.

(** ** Definitions used by the statements *)

(** Sample objects on which the statements are evaluated. *)
Definition sink1 : Sink :=
  {| host := str "127.0.0.1"; port := 9999; sinkId := 1; active := true |}.

Definition source0 : AooSource := constructor default_options 1234.

(** [Map.prototype.get]. *)
Fixpoint map_get {V} (m : list (jsstring * V)) (k : jsstring) : option V :=
  match m with
  | [] => None
  | (k', v) :: r => if jsstring_eqb k' k then Some v else map_get r k
  end.

(** The object after the assignments and the [addSink] of an accepted
    invite. *)
Definition invite_adopt {rt : Runtime} (token : jsval) (h : jsstring) (p : Z)
    (o : AooSource) : AooSource :=
  set_sinks
    (map_set (sinks o) (sink_key h p 1)
       {| host := h; port := p; sinkId := 1; active := true |})
    (set_sequence 0 (set_formatId 0 (set_streamId token o))).

(** The datagram "/aoo/src/1/invite" with type tags ",if", the integer 1 and
    the float 1e10. *)
Definition invite_float_token : Buffer :=
  str "/aoo/src/1/invite" ++ [0; 0; 0] ++ str ",if" ++ [0]
  ++ [0; 0; 0; 1] ++ [80; 21; 2; 249].

(** A datagram [d] is the /start message of object [o] addressed to [s]. *)
Definition is_start_for {rt : Runtime} (o : AooSource) (s : Sink) (d : Datagram)
  : Prop :=
  start_message o (sinkId s) = Ok (dg_msg d)
  /\ dg_port d = port s /\ dg_host d = host s.

(** A streaming source with one registered sink that has sent its /start. *)
Definition announced_source : AooSource :=
  set_startSent true
    (set_isStreaming true
       (snd (@addSink test_runtime (str "127.0.0.1") 9999 1 source0))).

(** The fields an operation leaves alone when it can only assign the sample
    rate, the format id, the announcement flag and send datagrams. *)
Definition same_stream (o' o : AooSource) : Prop :=
  channels o' = channels o /\ blockSize o' = blockSize o
  /\ sourceId o' = sourceId o /\ sinks o' = sinks o
  /\ sequence o' = sequence o /\ streamId o' = streamId o
  /\ isStreaming o' = isStreaming o /\ sinkVersion o' = sinkVersion o
  /\ sampleBuffer o' = sampleBuffer o.

(** An integer sample. *)
Definition num (z : Z) : jsval := JInt z.

(** The options of the specification's scenario: stereo, 48000 Hz, blocks of
    four samples per channel. *)
Definition scenario_options : Options :=
  {| opt_channels := Some 2; opt_sampleRate := Some 48000;
     opt_blockSize := Some 4; opt_sourceId := None; opt_localPort := None |}.

(** The source of the specification's scenario after [addSink] and
    [start()]. *)
Definition scenario_source : AooSource :=
  snd (start (snd (@addSink test_runtime (str "127.0.0.1") 9999 1
                     (constructor scenario_options 1234)))).

(** 0x7FFFFFFF, where the sequence counter wraps. *)
Definition M31 : Z := 2147483647.

(** [d] is the frame carrying [samples] with sequence number [sq], built on
    the identity of [o] and addressed to [s]. *)
Definition frame_for {rt : Runtime} (o : AooSource) (sq : Z)
    (samples : list jsval) (s : Sink) (d : Datagram) : Prop :=
  (bytes <- audioBytes samples ;; _buildDataMessage (set_sequence sq o) s bytes)
  = Ok (dg_msg d)
  /\ dg_port d = port s /\ dg_host d = host s.

(** The datagrams produced by sending [blocks] one after the other, starting
    at sequence number [sq]: every block goes to every sink, and the counter
    advances once per block. *)
Inductive drained {rt : Runtime} (o : AooSource)
  : Z -> list (list jsval) -> list Datagram -> Prop :=
| drained_nil (sq : Z) : drained o sq [] []
| drained_cons (sq : Z) (block : list jsval) (blocks : list (list jsval))
    (dgs rest : list Datagram) :
    Forall2 (frame_for o sq block) (map snd (sinks o)) dgs ->
    drained o (next_sequence sq) blocks rest ->
    drained o sq (block :: blocks) (dgs ++ rest).

(** Only the sample buffer, the sequence counter and the socket log differ
    between [o'] and [o]. *)
Definition drain_frame (o' o : AooSource) : Prop :=
  o' = set_sampleBuffer (sampleBuffer o')
         (set_sequence (sequence o') (set_socket (socket o') o)).

(** A sample that unary [+] converts to a Number: anything but a BigInt. *)
Definition numeric (v : jsval) : Prop :=
  match v with
  | JBigInt _ => False
  | _ => True
  end.

(** The conditions under which sending a block cannot raise: the stream id
    converts to a signed 32-bit field, the counter is in its range, and a
    block of [spb] samples fits the 16-bit length field. *)
Definition can_frame {rt : Runtime} (o : AooSource) (spb : Z) : Prop :=
  (exists sid, writeInt32BE (streamId o) = Ok sid)
  /\ 0 <= sequence o < M31
  /\ 4 * spb <= 65535.

(** The arguments [left], [right] and the optional rate of one [sendAudio]
    call. *)
Definition call := (list jsval * list jsval * option Z)%type.

(** A sequence of [sendAudio] calls, stopping at the first error. *)
Fixpoint sendAudio_calls {rt : Runtime} (fuel : nat) (calls : list call)
    (o : AooSource) : option (result unit * AooSource) :=
  match calls with
  | [] => Some (Ok tt, o)
  | (l, r, rate) :: rest =>
      match sendAudio fuel l r rate o with
      | Some (Ok _, o') => sendAudio_calls fuel rest o'
      | other => other
      end
  end.

(** The number of sample pairs and the interleaved samples pushed by a
    sequence of calls. *)
Definition pairs (calls : list call) : nat :=
  list_sum (map (fun c : call => length (fst (fst c))) calls).

Definition pushed (calls : list call) : list jsval :=
  flat_map (fun c : call => interleave (fst (fst c)) (snd (fst c))) calls.

(** The /start announcement owed by the first call raises no error. *)
Definition first_announce_ok {rt : Runtime} (calls : list call) (o : AooSource)
  : Prop :=
  match calls with
  | [] => True
  | (_, _, rate) :: _ => fst (announce rate o) = Ok tt
  end.

(** [ann] is what the announcement of the first call sends. *)
Definition announced_by {rt : Runtime} (calls : list call) (o : AooSource)
    (ann : list Datagram) : Prop :=
  match calls with
  | [] => ann = []
  | (_, _, rate) :: _ => socket (snd (announce rate o)) = socket o ++ ann
  end.

(** The unsigned value of four big-endian bytes. *)
Definition combine32 (b : Buffer) : Z :=
  match b with
  | [b0; b1; b2; b3] => b0 * 2 ^ 24 + b1 * 2 ^ 16 + b2 * 2 ^ 8 + b3
  | _ => 0
  end.

(** Datagrams that the dispatcher test does, and does not, take for binary
    frames. *)
Definition is_frame (d : Datagram) : Prop := is_binary (dg_msg d) = true.

Definition not_frame (d : Datagram) : Prop := is_binary (dg_msg d) = false.

(** The sequence field of a binary frame: bytes 8-11. *)
Definition frame_sequence (d : Datagram) : Z := uint32_at (dg_msg d) 8.

(** The operations a caller or the socket can apply to the source. *)
Inductive op :=
| OpAddSink (h : jsstring) (p id : Z)
| OpStart
| OpStop
| OpUpdateSampleRate (newRate : Z)
| OpSendAudio (left right : list jsval) (rate : option Z)
| OpMessage (msg : Buffer) (h : jsstring) (p now : Z).

Definition step {rt : Runtime} (fuel : nat) (c : op) (o : AooSource)
  : option (result unit * AooSource) :=
  match c with
  | OpAddSink h p id => Some (addSink h p id o)
  | OpStart => Some (start o)
  | OpStop => Some (stop o)
  | OpUpdateSampleRate newRate => Some (updateSampleRate newRate o)
  | OpSendAudio l r rate => sendAudio fuel l r rate o
  | OpMessage msg h p now => Some (_handleMessage msg h p now o)
  end.

(** The datagram takes the /invite branch and decodes to at least two
    arguments. *)
Definition accepted_invite (msg : Buffer) : bool :=
  negb (is_binary msg)
  && (0 <? indexOf msg 0 0)
  && includes (toString_ascii msg 0 (indexOf msg 0 0)) (str "/invite")
  && match _parseOscArgs msg (indexOf msg 0 0) with
     | Ok args => 2 <=? len args
     | Throw _ => false
     end.

(** Arguments of the types the decoder reads back: i, s, b, N, T, F. *)
Inductive osc_value :=
| OInt (z : Z)
| OStr (s : jsstring)
| OBlob (b : Buffer)
| ONull
| OTrue
| OFalse.

(** The [{type, value}] object given to the encoder. *)
Definition to_arg (v : osc_value) : oscarg :=
  match v with
  | OInt z => arg "i" (JInt z)
  | OStr s => arg "s" (JString s)
  | OBlob b => arg "b" (JBuffer b)
  | ONull => arg "N" JNull
  | OTrue => arg "T" (JBool true)
  | OFalse => arg "F" (JBool false)
  end.

(** The value the decoder is expected to push. *)
Definition decoded (v : osc_value) : jsval :=
  match v with
  | OInt z => JInt z
  | OStr s => JString s
  | OBlob b => JBuffer b
  | ONull => JNull
  | OTrue => JBool true
  | OFalse => JBool false
  end.

Definition tag_of (v : osc_value) : Z :=
  match v with
  | OInt _ => tag_i
  | OStr _ => tag_s
  | OBlob _ => tag_b
  | ONull => tag_N
  | OTrue => tag_T
  | OFalse => tag_F
  end.

(** Code units 1..127: no NUL, and unchanged by ASCII encoding and
    decoding. *)
Definition ascii7 (s : jsstring) : Prop := Forall (fun c => 1 <= c <= 127) s.

Definition wf_value (v : osc_value) : Prop :=
  match v with
  | OInt z => -2147483648 <= z <= 2147483647
  | OStr s => ascii7 s
  | OBlob b => len b <= 2147483647
  | _ => True
  end.

(** Whether the encoding of the argument occupies bytes. *)
Definition carries_bytes (v : osc_value) : bool :=
  match v with
  | OInt _ | OStr _ | OBlob _ => true
  | _ => false
  end.

(** The arguments up to and including the last one that occupies bytes. *)
Fixpoint strip_trailing (args : list osc_value) : list osc_value :=
  match args with
  | [] => []
  | a :: r =>
      if existsb carries_bytes (a :: r) then a :: strip_trailing r else []
  end.

(** A string followed by its NUL padding up to a multiple of four. *)
Definition padded (s : jsstring) : Buffer :=
  s ++ repeat 0 (Z.to_nat (ceil4 (len s + 1) - len s)).

(** Turn the boolean comparisons among the hypotheses into propositions. *)
Ltac bool_hyps :=
  repeat match goal with
  | H : (_ <? _) = true |- _ => apply Z.ltb_lt in H
  | H : (_ <? _) = false |- _ => apply Z.ltb_ge in H
  | H : (_ <=? _) = true |- _ => apply Z.leb_le in H
  | H : (_ <=? _) = false |- _ => apply Z.leb_gt in H
  | H : (_ =? _) = true |- _ => apply Z.eqb_eq in H
  | H : (_ =? _) = false |- _ => apply Z.eqb_neq in H
  end.

(** The bytes the encoder emits for one argument. *)
Definition enc (v : osc_value) : Buffer :=
  match v with
  | OInt z => be_bytes32 z
  | OStr s => padded s
  | OBlob b =>
      be_bytes32 (len b) ++ b ++ repeat 0 (Z.to_nat (ceil4 (len b) - len b))
  | _ => []
  end.

(** The last argument occupies bytes (or there is no argument). *)
Definition ends_with_bytes (args : list osc_value) : Prop :=
  args = [] \/ carries_bytes (last args ONull) = true.

(** A source configured with blocks of 8192 stereo pairs, whose frames would
    need a payload of 65536 bytes, after [addSink] and [start()]. *)
Definition large_block_options : Options :=
  {| opt_channels := Some 2; opt_sampleRate := Some 48000;
     opt_blockSize := Some 8192; opt_sourceId := None; opt_localPort := None |}.

Definition large_block_source : AooSource :=
  snd (start (snd (@addSink test_runtime (str "127.0.0.1") 9999 1
                     (constructor large_block_options 1234)))).

(** The scenario source after a first, empty [sendAudio] call has announced
    the stream. *)
Definition announced_scenario : AooSource :=
  match @sendAudio test_runtime 1 [] [] None scenario_source with
  | Some (_, o') => o'
  | None => scenario_source
  end.

(** The announced scenario source after an /invite whose token is the float
    1e10 has replaced its stream id. *)
Definition float_token_source : AooSource :=
  snd (@_handleMessage test_runtime invite_float_token (str "10.0.0.5") 7000 5
         announced_scenario).

(** The scenario source after a /start datagram whose second argument is the
    integer 5 has replaced its sink version. *)
Definition int_version_source : AooSource :=
  snd (@_handleMessage test_runtime
         (osc "/aoo/src/1/start" [arg "i" (JInt 1); arg "i" (JInt 5)])
         (str "127.0.0.1") 9999 5 scenario_source).

(** The scenario source with a second sink registered before [start()], and
    the scenario source with no sink at all. *)
Definition two_sink_source : AooSource :=
  snd (start
         (snd (@addSink test_runtime (str "127.0.0.1") 9998 2
                 (snd (@addSink test_runtime (str "127.0.0.1") 9999 1
                         (constructor scenario_options 1234)))))).

Definition no_sink_source : AooSource :=
  snd (start (constructor scenario_options 1234)).

(** The sequence numbers of the binary frames in a socket log, each with the
    port it was sent to. *)
Definition frames_sent (log : list Datagram) : list (Z * Z) :=
  map (fun d => (dg_port d, frame_sequence d))
    (filter (fun d => is_binary (dg_msg d)) log).

(** ** Definitions used by the further properties *)

(** The characters of a printed integer: the minus sign and the digits. *)
Definition dec_char (c : Z) : Prop := c = 45 \/ 48 <= c <= 57.

(** The sink object stored by [addSink]. *)
Definition new_sink (h : jsstring) (p id : Z) : Sink :=
  {| host := h; port := p; sinkId := id; active := true |}.

(** An entry of the registry sits under the key made of its own fields and is
    active. *)
Definition sink_entry_ok {rt : Runtime} (ks : jsstring * Sink) : Prop :=
  fst ks = sink_key (host (snd ks)) (port (snd ks)) (sinkId (snd ks))
  /\ active (snd ks) = true.

(** The registry holds one entry per key, each under its own key and
    active. *)
Definition registry_ok {rt : Runtime} (m : list (jsstring * Sink)) : Prop :=
  NoDup (map fst m) /\ Forall sink_entry_ok m.

(** The object after the assignments of the /start branch of the dispatcher,
    before its reply is built: the sink version is replaced when the datagram
    decodes to at least two arguments, and the sender is registered as sink 1
    unless its key is already present. *)
Definition start_adopt {rt : Runtime} (msg : Buffer) (nullIdx : Z)
    (h : jsstring) (p : Z) (o : AooSource) : AooSource :=
  let o1 :=
    match _parseOscArgs msg nullIdx with
    | Ok args =>
        if 2 <=? len args then set_sinkVersion (nth 1 args JUndefined) o else o
    | Throw _ => o
    end in
  if map_has (sinks o1) (sink_key h p 1) then o1
  else set_sinks (map_set (sinks o1) (sink_key h p 1) (new_sink h p 1)) o1.

(** The address the dispatcher reads from a datagram. *)
Definition address_of (msg : Buffer) : jsstring :=
  toString_ascii msg 0 (indexOf msg 0 0).

(** The object after the [if (sampleRate && sampleRate !== this.sampleRate)]
    of [sendAudio]: a rate that is given, not zero and different from the
    current one replaces it and bumps the format id. *)
Definition rate_applied (rate : option Z) (o : AooSource) : AooSource :=
  match rate with
  | Some r =>
      if negb (r =? 0) && negb (r =? sampleRate o)
      then set_formatId (formatId o + 1) (set_sampleRate r o)
      else o
  | None => o
  end.

(** The object whose format a [sendAudio] call works with: the rate argument
    counts only on a streaming source that has not announced itself. *)
Definition announced_state (rate : option Z) (o : AooSource) : AooSource :=
  if isStreaming o && negb (_startSent o) then rate_applied rate o else o.

(** A sequence of operations applied to the object; an operation that raises
    leaves the object as it is at that point, and the next one goes on from
    there.  [None] when a [sendAudio] loop is still running after [fuel]
    iterations. *)
Fixpoint run {rt : Runtime} (fuel : nat) (ops : list op) (o : AooSource)
  : option AooSource :=
  match ops with
  | [] => Some o
  | c :: rest =>
      match step fuel c o with
      | Some (_, o') => run fuel rest o'
      | None => None
      end
  end.

(** The type tags the decoder iterates over: the bytes between the comma that
    follows the padded address and the next NUL. *)
Definition type_tags (buf : Buffer) (addressEnd : Z) : jsstring :=
  toString_ascii buf (ceil4 (addressEnd + 1) + 1)
    (indexOf buf 0 (ceil4 (addressEnd + 1))).

(** The range of [writeInt32BE]. *)
Definition int32 (z : Z) : Prop := -2147483648 <= z <= 2147483647.

(** The version string [_sendStartOSC] encodes, [this.sinkVersion || '2.0'],
    when it is a string. *)
Definition version_string (o : AooSource) : option jsstring :=
  match (if truthy (sinkVersion o) then sinkVersion o else JString (str "2.0")) with
  | JString s => Some s
  | _ => None
  end.

(** The argument bytes of a /start message, in the order of the argument
    array of [_sendStartOSC]; [v] is the version string and [sid] the four
    bytes of the stream id. *)
Definition start_body (o : AooSource) (v : jsstring) (sid : Buffer) : Buffer :=
  be_bytes32 (sourceId o)
  ++ alloc_write_ascii (ceil4 (len v + 1)) v
  ++ sid
  ++ be_bytes32 (sequence o)
  ++ be_bytes32 (formatId o)
  ++ be_bytes32 (channels o)
  ++ be_bytes32 (sampleRate o)
  ++ be_bytes32 (blockSize o)
  ++ str "pcm" ++ [0]
  ++ be_bytes32 4 ++ be_bytes32 3
  ++ be_bytes64 0
  ++ be_bytes32 (Z.quot (sampleRate o) 10)
  ++ be_bytes32 0
  ++ be_bytes32 0.

(** A source whose /start messages and frames can always be encoded: the
    integer fields fit 32 signed bits, the counter is in its range, the
    stream id converts to a 32-bit field, the version is a string, and a
    block is not empty and fits the 16-bit length field of a frame. *)
Definition healthy {rt : Runtime} (o : AooSource) : Prop :=
  int32 (sourceId o) /\ int32 (channels o) /\ int32 (blockSize o)
  /\ int32 (sampleRate o) /\ int32 (formatId o)
  /\ 0 <= sequence o < M31
  /\ (exists sid, writeInt32BE (streamId o) = Ok sid)
  /\ version_string o <> None
  /\ 1 <= blockSize o * channels o
  /\ 4 * (blockSize o * channels o) <= 65535.

(** A rate argument that keeps the format encodable. *)
Definition rate_ok (rate : option Z) (o : AooSource) : Prop :=
  match rate with
  | Some r => int32 r /\ formatId o < 2147483647
  | None => True
  end.

(** A source constructed with a negative channel count, started, with no
    sink registered. *)
Definition negative_block_source : AooSource :=
  snd (start (constructor
                {| opt_channels := Some (-1); opt_sampleRate := None;
                   opt_blockSize := None; opt_sourceId := None;
                   opt_localPort := None |} 1234)).

(** The range of [writeBigUInt64BE]. *)
Definition uint64 (n : Z) : Prop := 0 <= n <= 18446744073709551615.

(** The arguments of a ping as this encoder writes them: the integer sink id
    followed by timetags. *)
Definition timetag (n : Z) : oscarg := arg "t" (JBigInt n).

Definition ping_args (id : Z) (ts : list Z) : list oscarg :=
  arg "i" (JInt id) :: map timetag ts.


(** The datagram is addressed to the host and port of a registered sink. *)
Definition sent_to_sink (o : AooSource) (d : Datagram) : Prop :=
  exists s, In s (map snd (sinks o)) /\ dg_host d = host s /\ dg_port d = port s.

(** The datagram is addressed to the sender of the datagram being handled. *)
Definition sent_to_sender (c : op) (d : Datagram) : Prop :=
  match c with
  | OpMessage _ h p _ => dg_host d = h /\ dg_port d = p
  | _ => False
  end.

(** * Properties *)

(** ** Basic facts about lengths and the Buffer primitives *)

Lemma len_app {A} (l1 l2 : list A) : len (l1 ++ l2) = len l1 + len l2.
Proof. unfold len. rewrite length_app. lia. Qed.

Lemma len_nonneg {A} (l : list A) : 0 <= len l.
Proof. unfold len. lia. Qed.

Lemma len_cons {A} (a : A) (l : list A) : len (a :: l) = 1 + len l.
Proof. unfold len. simpl length. lia. Qed.

Lemma len_nil {A} : len (@nil A) = 0.
Proof. reflexivity. Qed.

Lemma ceil4_bounds (x : Z) : x <= ceil4 x < x + 4 /\ ceil4 x mod 4 = 0.
Proof.
  unfold ceil4. pose proof (Z.div_mod (x + 3) 4 ltac:(lia)).
  pose proof (Z.mod_pos_bound (x + 3) 4 ltac:(lia)).
  split; [lia|]. apply Z.mod_mul. lia.
Qed.

Lemma writeInt32BE_number_length (x : number) (b : Buffer) :
  writeInt32BE_number x = Ok b -> length b = 4%nat.
Proof.
  destruct x as [| n | m e]; simpl; try discriminate.
  - intros H. inversion H. reflexivity.
  - destruct (fin_gt m e 2147483647 || fin_lt m e (-2147483648)); try discriminate.
    intros H. inversion H. reflexivity.
Qed.

Lemma writeInt32BE_length {rt : Runtime} (v : jsval) (b : Buffer) :
  writeInt32BE v = Ok b -> length b = 4%nat.
Proof.
  unfold writeInt32BE, bind. destruct (ToNumber v); try discriminate.
  apply writeInt32BE_number_length.
Qed.

Lemma writeInt32BE_Z_ok (z : Z) :
  -2147483648 <= z <= 2147483647 -> writeInt32BE_Z z = Ok (be_bytes32 z).
Proof.
  intros H. unfold writeInt32BE_Z, writeInt32BE_number, fin_gt, fin_lt, fin_trunc.
  simpl (0 <=? 0). cbv iota. rewrite Z.pow_0_r, Z.mul_1_r.
  destruct (2147483647 <? z) eqn:E1; [apply Z.ltb_lt in E1; lia|].
  destruct (z <? -2147483648) eqn:E2; [apply Z.ltb_lt in E2; lia|].
  reflexivity.
Qed.

(** ** The decoder raises only on a short four-byte read *)

Lemma readInt32BE_throw (buf : Buffer) (off : Z) (e : exn) :
  readInt32BE buf off = Throw e ->
  e = ERR_OUT_OF_RANGE_offset off /\ check4 buf off = false.
Proof.
  unfold readInt32BE. destruct (check4 buf off); intros H; inversion H; auto.
Qed.

Lemma readFloatBE_throw (buf : Buffer) (off : Z) (e : exn) :
  readFloatBE buf off = Throw e ->
  e = ERR_OUT_OF_RANGE_offset off /\ check4 buf off = false.
Proof.
  unfold readFloatBE. destruct (check4 buf off); intros H; inversion H; auto.
Qed.

Lemma parse_tags_throw (buf : Buffer) (tags : jsstring) :
  forall off args e,
    parse_tags buf tags off args = Throw e ->
    exists o, e = ERR_OUT_OF_RANGE_offset o /\ o < len buf /\ check4 buf o = false.
Proof.
  induction tags as [| tag rest IH]; intros off args e H; simpl in H.
  - discriminate.
  - destruct (len buf <=? off) eqn:Hend; [discriminate|].
    apply Z.leb_gt in Hend.
    destruct (tag =? tag_i).
    { unfold bind in H. destruct (readInt32BE buf off) eqn:R.
      - eapply IH; eauto.
      - inversion H; subst. apply readInt32BE_throw in R. destruct R. eauto. }
    destruct (tag =? tag_f).
    { unfold bind in H. destruct (readFloatBE buf off) eqn:R.
      - eapply IH; eauto.
      - inversion H; subst. apply readFloatBE_throw in R. destruct R. eauto. }
    destruct (tag =? tag_s); [eapply IH; eauto|].
    destruct (tag =? tag_b).
    { unfold bind in H. destruct (readInt32BE buf off) eqn:R.
      - eapply IH; eauto.
      - inversion H; subst. apply readInt32BE_throw in R. destruct R. eauto. }
    destruct (tag =? tag_N); [eapply IH; eauto|].
    destruct (tag =? tag_T); [eapply IH; eauto|].
    destruct (tag =? tag_F); eapply IH; eauto.
Qed.

Lemma parse_tags_past_end (buf : Buffer) (tags : jsstring) (off : Z)
    (args : list jsval) :
  len buf <= off -> parse_tags buf tags off args = Ok args.
Proof.
  intros H. destruct tags; simpl; [reflexivity|].
  apply Z.leb_le in H. rewrite H. reflexivity.
Qed.

Lemma check4_outside (buf : Buffer) (off : Z) :
  ~ (0 <= off /\ off + 4 <= len buf) -> check4 buf off = false.
Proof.
  intros H. unfold check4.
  destruct (0 <=? off) eqn:H1; [|reflexivity].
  destruct (off + 4 <=? len buf) eqn:H2; [|reflexivity].
  apply Z.leb_le in H1. apply Z.leb_le in H2. exfalso. apply H. now split.
Qed.

(** A four-byte read that starts before the end of the buffer and outside
    [0, length - 4] raises, whatever follows. *)
Lemma parse_tags_short_read (buf : Buffer) (tag : Z) (rest : jsstring)
    (off : Z) (args : list jsval) :
  tag = tag_i \/ tag = tag_f \/ tag = tag_b ->
  off < len buf ->
  ~ (0 <= off /\ off + 4 <= len buf) ->
  parse_tags buf (tag :: rest) off args = Throw (ERR_OUT_OF_RANGE_offset off).
Proof.
  intros Htag Hlt Hout. apply check4_outside in Hout.
  cbn [parse_tags]. apply Z.leb_gt in Hlt. rewrite Hlt.
  unfold readInt32BE, readFloatBE. rewrite Hout.
  destruct Htag as [-> | [-> | ->]]; reflexivity.
Qed.

(** C6, as amended.  [_parseOscArgs] is total.  It returns the empty list
    when the terminator of the type-tag string is absent; its loop stops and
    returns the arguments pushed so far when the running offset has reached
    or passed the end of the buffer; the only error it can raise is the
    out-of-range error of a four-byte read (tags i, f and the length prefix of
    b) that starts before the end of the buffer at an offset outside
    [0, length - 4]; and it does raise that error at every such read: in the
    loop, at a tag i, f or b met at such an offset, and so for a message
    whose first tag is i, f or b and whose argument data is one to three
    bytes long. *)
Theorem parseOscArgs_fails_soft_or_short_read (buf : Buffer) (addressEnd : Z) :
  (indexOf buf 0 (ceil4 (addressEnd + 1)) = -1 ->
   _parseOscArgs buf addressEnd = Ok [])
  /\ (forall tags off args,
        len buf <= off -> parse_tags buf tags off args = Ok args)
  /\ (forall e,
        _parseOscArgs buf addressEnd = Throw e ->
        exists off,
          e = ERR_OUT_OF_RANGE_offset off
          /\ off < len buf /\ ~ (0 <= off /\ off + 4 <= len buf))
  /\ (forall tag rest off args,
        tag = tag_i \/ tag = tag_f \/ tag = tag_b ->
        off < len buf ->
        ~ (0 <= off /\ off + 4 <= len buf) ->
        parse_tags buf (tag :: rest) off args
        = Throw (ERR_OUT_OF_RANGE_offset off))
  /\ (forall tag rest,
        let typeTagEnd := indexOf buf 0 (ceil4 (addressEnd + 1)) in
        let off := ceil4 (typeTagEnd + 1) in
        ceil4 (addressEnd + 1) < len buf ->
        typeTagEnd <> -1 ->
        toString_ascii buf (ceil4 (addressEnd + 1) + 1) typeTagEnd = tag :: rest ->
        tag = tag_i \/ tag = tag_f \/ tag = tag_b ->
        off < len buf ->
        ~ (0 <= off /\ off + 4 <= len buf) ->
        _parseOscArgs buf addressEnd = Throw (ERR_OUT_OF_RANGE_offset off)).
Proof.
  split; [|split; [|split; [|split]]].
  - intros H. unfold _parseOscArgs. rewrite H.
    destruct (len buf <=? ceil4 (addressEnd + 1)); reflexivity.
  - intros. now apply parse_tags_past_end.
  - intros e H. unfold _parseOscArgs in H.
    destruct (len buf <=? ceil4 (addressEnd + 1)); [discriminate|].
    destruct (indexOf buf 0 (ceil4 (addressEnd + 1)) =? -1); [discriminate|].
    apply parse_tags_throw in H. destruct H as (o & -> & Hlt & Hc).
    exists o. repeat split; auto.
    unfold check4 in Hc. intros [H1 H2].
    apply Z.leb_le in H1. apply Z.leb_le in H2. rewrite H1, H2 in Hc. discriminate.
  - intros. now apply parse_tags_short_read.
  - intros tag rest typeTagEnd off Hlen Hend Htags Htag Hlt Hout.
    unfold _parseOscArgs. apply Z.leb_gt in Hlen. rewrite Hlen.
    fold typeTagEnd. apply Z.eqb_neq in Hend. rewrite Hend. cbv zeta.
    rewrite Htags. now apply parse_tags_short_read.
Qed.

(** C6, the claim as stated fails: the message "/a" with type tags ",i" and a
    single byte of argument data makes the decoder raise. *)
Lemma parseOscArgs_short_int_raises :
  _parseOscArgs (str "/a" ++ [0; 0] ++ str ",i" ++ [0; 0] ++ [1]) 2
  = Throw (ERR_OUT_OF_RANGE_offset 8).
Proof. reflexivity. Qed.

(** The clauses of the amended C6 at concrete buffers: no terminator, an
    offset at the end of the buffer, and a one-byte integer. *)
Lemma parseOscArgs_fails_soft_witness :
  _parseOscArgs (str "/a" ++ [0; 0] ++ str ",i") 2 = Ok []
  /\ parse_tags (str "/a" ++ [0; 0]) (str "i") 4 [JNull] = Ok [JNull]
  /\ parse_tags (str "/a" ++ [0; 0] ++ [1; 2]) (str "f") 4 []
     = Throw (ERR_OUT_OF_RANGE_offset 4)
  /\ _parseOscArgs (str "/a" ++ [0; 0] ++ str ",b" ++ [0; 0] ++ [1; 2; 3]) 2
     = Throw (ERR_OUT_OF_RANGE_offset 8).
Proof.
  destruct (parseOscArgs_fails_soft_or_short_read (str "/a" ++ [0; 0] ++ str ",i") 2)
    as (H1 & _ & _).
  destruct (parseOscArgs_fails_soft_or_short_read (str "/a" ++ [0; 0]) 2)
    as (_ & H2 & _).
  destruct (parseOscArgs_fails_soft_or_short_read (str "/a" ++ [0; 0] ++ [1; 2]) 2)
    as (_ & _ & _ & H3 & _).
  destruct (parseOscArgs_fails_soft_or_short_read
              (str "/a" ++ [0; 0] ++ str ",b" ++ [0; 0] ++ [1; 2; 3]) 2)
    as (_ & _ & _ & _ & H4).
  split; [|split; [|split]].
  - apply H1. reflexivity.
  - apply H2. vm_compute. discriminate.
  - apply H3.
    + right. left. reflexivity.
    + vm_compute. reflexivity.
    + vm_compute. intros [_ H]. apply H. reflexivity.
  - apply (H4 tag_b []).
    + vm_compute. reflexivity.
    + vm_compute. discriminate.
    + reflexivity.
    + right. right. reflexivity.
    + vm_compute. reflexivity.
    + vm_compute. intros [_ H]. apply H. reflexivity.
Defined.

(** ** The binary frame header *)

Lemma length4_inv (b : Buffer) :
  length b = 4%nat -> exists b0 b1 b2 b3, b = [b0; b1; b2; b3].
Proof.
  destruct b as [| b0 [| b1 [| b2 [| b3 [| ? ?]]]]]; simpl; try discriminate.
  intros _. now exists b0, b1, b2, b3.
Qed.

Lemma land_255_range (z : Z) : 0 <= Z.land z 255 <= 255.
Proof.
  assert (E : Z.land z 255 = z mod 2 ^ 8)
    by (change 255 with (Z.ones 8); apply Z.land_ones; lia).
  rewrite E. pose proof (Z.mod_pos_bound z (2 ^ 8) ltac:(lia)). lia.
Qed.

Lemma writeUInt8_ok (z : Z) : 0 <= z <= 255 -> writeUInt8 z = Ok [z].
Proof.
  intros H. unfold writeUInt8.
  destruct (255 <? z) eqn:E1; [apply Z.ltb_lt in E1; lia|].
  destruct (z <? 0) eqn:E2; [apply Z.ltb_lt in E2; lia|].
  reflexivity.
Qed.

Lemma writeUInt16BE_inv (z : Z) (b : Buffer) :
  writeUInt16BE z = Ok b -> 0 <= z <= 65535 /\ b = be_bytes16 z.
Proof.
  unfold writeUInt16BE.
  destruct (65535 <? z) eqn:E1; [discriminate|].
  destruct (z <? 0) eqn:E2; [discriminate|].
  apply Z.ltb_ge in E1. apply Z.ltb_ge in E2.
  intros H. inversion H. split; [lia | reflexivity].
Qed.

Lemma buildDataMessage_shape {rt : Runtime} (o : AooSource) (sink : Sink)
    (audioData msg : Buffer) :
  _buildDataMessage o sink audioData = Ok msg ->
  exists s0 s1 s2 s3 q0 q1 q2 q3,
    writeInt32BE (streamId o) = Ok [s0; s1; s2; s3]
    /\ writeInt32BE_Z (sequence o) = Ok [q0; q1; q2; q3]
    /\ 0 <= len audioData <= 65535
    /\ msg = [129; 0; Z.land (sinkId sink) 255; Z.land (sourceId o) 255;
              s0; s1; s2; s3; q0; q1; q2; q3; 0; 0]
             ++ be_bytes16 (len audioData) ++ audioData.
Proof.
  unfold _buildDataMessage.
  rewrite (writeUInt8_ok (Z.lor kAooMsgTypeSink kAooBinMsgDomainBit))
    by (vm_compute; split; discriminate).
  rewrite (writeUInt8_ok kAooBinMsgCmdData) by (vm_compute; split; discriminate).
  rewrite !(writeUInt8_ok (Z.land _ 255)) by apply land_255_range.
  rewrite (writeUInt8_ok 0) by lia.
  unfold bind.
  destruct (writeInt32BE (streamId o)) as [sid|] eqn:Hsid; [|discriminate].
  destruct (writeInt32BE_Z (sequence o)) as [sq|] eqn:Hsq; [|discriminate].
  destruct (writeUInt16BE (len audioData)) as [l|] eqn:Hl; [|discriminate].
  intros H. inversion H; subst msg; clear H.
  apply writeUInt16BE_inv in Hl. destruct Hl as [Hr ->].
  destruct (length4_inv sid (writeInt32BE_length _ _ Hsid)) as (s0 & s1 & s2 & s3 & ->).
  destruct (length4_inv sq (writeInt32BE_number_length _ _ Hsq)) as (q0 & q1 & q2 & q3 & ->).
  exists s0, s1, s2, s3, q0, q1, q2, q3. repeat split; try lia. 
Qed.

Lemma buildDataMessage_ok {rt : Runtime} (o : AooSource) (sink : Sink)
    (audioData sid : Buffer) :
  writeInt32BE (streamId o) = Ok sid ->
  -2147483648 <= sequence o <= 2147483647 ->
  len audioData <= 65535 ->
  exists msg, _buildDataMessage o sink audioData = Ok msg.
Proof.
  intros Hsid Hseq Hlen. unfold _buildDataMessage.
  rewrite (writeUInt8_ok (Z.lor kAooMsgTypeSink kAooBinMsgDomainBit))
    by (vm_compute; split; discriminate).
  rewrite (writeUInt8_ok kAooBinMsgCmdData) by (vm_compute; split; discriminate).
  rewrite !(writeUInt8_ok (Z.land _ 255)) by apply land_255_range.
  rewrite (writeUInt8_ok 0) by lia.
  rewrite Hsid, (writeInt32BE_Z_ok _ Hseq). unfold bind, writeUInt16BE.
  pose proof (len_nonneg audioData).
  destruct (65535 <? len audioData) eqn:E1; [apply Z.ltb_lt in E1; lia|].
  destruct (len audioData <? 0) eqn:E2; [apply Z.ltb_lt in E2; lia|].
  simpl. eauto.
Qed.

(** C2, as amended.  Every datagram the frame encoder returns has byte 0 equal
    to 0x81, byte 1 equal to 0, bytes 12-13 zero and bytes 14-15 equal to the
    payload length, which is then at most 65535; a payload longer than 65535
    bytes makes the encoder raise (the range check of [writeUInt16BE]) and no
    datagram is produced; and the encoder does return a datagram when the
    stream id and the sequence number fit a signed 32-bit field and the
    payload is at most 65535 bytes long. *)
Theorem buildDataMessage_header {rt : Runtime} (o : AooSource) (sink : Sink)
    (audioData : Buffer) :
  (forall msg,
      _buildDataMessage o sink audioData = Ok msg ->
      byte_at msg 0 = 129 /\ byte_at msg 1 = 0
      /\ byte_at msg 12 = 0 /\ byte_at msg 13 = 0
      /\ byte_at msg 14 * 256 + byte_at msg 15 = len audioData
      /\ len audioData <= 65535
      /\ len msg = 16 + len audioData)
  /\ (65535 < len audioData ->
      exists e, _buildDataMessage o sink audioData = Throw e)
  /\ (forall sid,
      writeInt32BE (streamId o) = Ok sid ->
      -2147483648 <= sequence o <= 2147483647 ->
      len audioData <= 65535 ->
      exists msg, _buildDataMessage o sink audioData = Ok msg).
Proof.
  split; [|split].
  - intros msg H. apply buildDataMessage_shape in H.
    destruct H as (s0 & s1 & s2 & s3 & q0 & q1 & q2 & q3 & _ & _ & Hr & ->).
    repeat split; try reflexivity; try lia.
    + unfold byte_at, be_bytes16.
      change (Z.to_nat 14) with 14%nat. change (Z.to_nat 15) with 15%nat.
      cbn [nth app]. change (2 ^ 8) with 256.
      remember (len audioData) as L.
      rewrite (Z.mod_small (L / 256) 256)
        by (split; [apply Z.div_pos; lia | apply Z.div_lt_upper_bound; lia]).
      pose proof (Z.div_mod L 256 ltac:(lia)). lia.
    + rewrite len_app. unfold be_bytes16. rewrite len_app.
      unfold len at 1 2. simpl length. lia.
  - intros Hbig. destruct (_buildDataMessage o sink audioData) as [msg|e] eqn:H.
    + apply buildDataMessage_shape in H.
      destruct H as (? & ? & ? & ? & ? & ? & ? & ? & _ & _ & Hr & _). lia.
    + now exists e.
  - intros sid. apply buildDataMessage_ok.
Qed.

(** C2, the claim as stated fails: with a payload of 65536 bytes the encoder
    raises; it does not return a datagram whose length field holds the low 16
    bits. *)
Lemma buildDataMessage_oversize_raises :
  @_buildDataMessage test_runtime (constructor default_options 1234) sink1
    (repeat 0 (Z.to_nat 65536))
  = Throw ERR_OUT_OF_RANGE_value.
Proof. vm_compute. reflexivity. Qed.

(** The amended C2 at a frame of two samples. *)
Lemma buildDataMessage_header_witness :
  exists msg,
    @_buildDataMessage test_runtime (constructor default_options 1234) sink1
      (repeat 0 8) = Ok msg
    /\ byte_at msg 14 * 256 + byte_at msg 15 = 8.
Proof.
  destruct (@buildDataMessage_header test_runtime
              (constructor default_options 1234) sink1 (repeat 0 8))
    as (H1 & _ & H3).
  destruct (H3 (be_bytes32 1234)) as [msg Hmsg].
  - reflexivity.
  - vm_compute. split; discriminate.
  - vm_compute. discriminate.
  - exists msg. split; [exact Hmsg|]. now apply H1.
Defined.

(** ** The dispatcher *)

Lemma set_socket_same (o : AooSource) : set_socket (socket o) o = o.
Proof. destruct o; reflexivity. Qed.

Lemma sendPong_effect {rt : Runtime} (h : jsstring) (p : Z) (msg : Buffer)
    (nullIdx now : Z) (o : AooSource) :
  _sendPong h p msg nullIdx now o
  = (Ok tt,
     set_socket
       (socket o ++
        match _parseOscArgs msg nullIdx with
        | Ok args =>
            if 2 <=? len args then
              match pong_message o args now with
              | Ok m => [datagram m p h]
              | Throw _ => []
              end
            else []
        | Throw _ => []
        end) o).
Proof.
  unfold _sendPong, try_catch, mbind, lift, ret, socket_send, modify, datagram.
  destruct (_parseOscArgs msg nullIdx) as [args|e]; simpl.
  - destruct (2 <=? len args); simpl.
    + destruct (pong_message o args now); simpl;
        rewrite ?app_nil_r, ?set_socket_same; reflexivity.
    + rewrite app_nil_r, set_socket_same. reflexivity.
  - rewrite app_nil_r, set_socket_same. reflexivity.
Qed.

Lemma writeBigUInt64BE_ok (n : Z) :
  0 <= n <= 18446744073709551615 -> writeBigUInt64BE n = Ok (be_bytes64 n).
Proof.
  intros H. unfold writeBigUInt64BE.
  destruct (18446744073709551615 <? n) eqn:E1; [apply Z.ltb_lt in E1; lia|].
  destruct (n <? 0) eqn:E2; [apply Z.ltb_lt in E2; lia|].
  reflexivity.
Qed.

Lemma encode_arg_i_int {rt : Runtime} (z : Z) :
  encode_arg (arg "i" (JInt z)) = writeInt32BE_Z z.
Proof. reflexivity. Qed.

Lemma encode_arg_t {rt : Runtime} (n : Z) :
  encode_arg (arg "t" (JBigInt n)) = writeBigUInt64BE n.
Proof. reflexivity. Qed.

Lemma pong_message_int_ok {rt : Runtime} (o : AooSource) (args : list jsval)
    (now z : Z) :
  nth 1 args JUndefined = JInt z ->
  0 <= z <= 18446744073709551615 ->
  0 <= now * 1000000 <= 18446744073709551615 ->
  -2147483648 <= sourceId o <= 2147483647 ->
  exists m, pong_message o args now = Ok m.
Proof.
  intros Ht Hz Hnow Hsrc. unfold pong_message. rewrite Ht.
  assert (Hb : ToBigInt (if truthy (JInt z) then JInt z else JInt 0) = Ok z).
  { simpl. destruct (z =? 0) eqn:E; simpl.
    - apply Z.eqb_eq in E. subst. reflexivity.
    - unfold fin_trunc. simpl. f_equal. lia. }
  rewrite Hb. unfold bind at 1.
  unfold _buildOSCMessage. cbn [encode_args].
  rewrite encode_arg_i_int, !encode_arg_t.
  rewrite (writeInt32BE_Z_ok _ Hsrc), !writeBigUInt64BE_ok by assumption.
  unfold bind. eauto.
Qed.

(** C9, as amended.  A datagram that is not taken for a binary frame, whose
    address contains "/ping" and neither "/invite" nor "/start", and whose
    arguments decode to at least two values, is handled without changing any
    field of the object other than the list of sent datagrams, and without an
    error.  When the reply can be built, exactly one /pong goes to the sender's
    host and port, whatever the sink registry holds; when it cannot, nothing
    is sent.  The reply can be built when the second argument is an integer
    in the unsigned 64-bit range, the clock reading in nanoseconds fits 64
    bits, and the source id fits a signed 32-bit field. *)
Theorem ping_pong_stateless {rt : Runtime} (msg : Buffer) (h : jsstring)
    (p now : Z) (o : AooSource) (args : list jsval) :
  is_binary msg = false ->
  0 < indexOf msg 0 0 ->
  includes (toString_ascii msg 0 (indexOf msg 0 0)) (str "/invite") = false ->
  includes (toString_ascii msg 0 (indexOf msg 0 0)) (str "/start") = false ->
  includes (toString_ascii msg 0 (indexOf msg 0 0)) (str "/ping") = true ->
  _parseOscArgs msg (indexOf msg 0 0) = Ok args ->
  2 <= len args ->
  let r := _handleMessage msg h p now o in
  fst r = Ok tt
  /\ snd r = set_socket (socket (snd r)) o
  /\ (forall m, pong_message o args now = Ok m ->
        socket (snd r) = socket o ++ [datagram m p h])
  /\ (forall e, pong_message o args now = Throw e -> socket (snd r) = socket o)
  /\ (forall z,
        nth 1 args JUndefined = JInt z ->
        0 <= z <= 18446744073709551615 ->
        0 <= now * 1000000 <= 18446744073709551615 ->
        -2147483648 <= sourceId o <= 2147483647 ->
        exists m, pong_message o args now = Ok m).
Proof.
  intros Hbin Hnul Hinv Hst Hping Hargs Hlen r. subst r.
  unfold _handleMessage. rewrite Hbin.
  apply Z.ltb_lt in Hnul. rewrite Hnul, Hinv, Hst, Hping.
  rewrite sendPong_effect, Hargs.
  apply Z.leb_le in Hlen. rewrite Hlen. simpl fst. simpl snd.
  split; [reflexivity|]. split; [destruct o; reflexivity|].
  split; [|split].
  - intros m Hm. rewrite Hm. destruct o; reflexivity.
  - intros e He. rewrite He, app_nil_r. destruct o; reflexivity.
  - intros z. apply pong_message_int_ok.
Qed.

(** C9, the claim as stated fails: a /ping whose two arguments are the
    integers 1 and -1 gets no /pong (the echoed time tag is outside the
    unsigned 64-bit range and the error is swallowed); and a datagram whose
    address contains both "/invite" and "/ping" is handled as an invite and
    changes the stream id. *)
Lemma ping_without_pong :
  socket (snd (@_handleMessage test_runtime
                 (osc "/aoo/src/1/ping" [arg "i" (JInt 1); arg "i" (JInt (-1))])
                 (str "10.0.0.5") 7000 5 source0)) = []
  /\ streamId (snd (@_handleMessage test_runtime
                 (osc "/invite/ping" [arg "i" (JInt 1); arg "i" (JInt 2)])
                 (str "10.0.0.5") 7000 5 source0)) = JInt 2.
Proof. split; reflexivity. Qed.

(** The amended C9 on the /ping of the specification's scenario, from a
    sender that is not registered. *)
Lemma ping_pong_stateless_witness :
  exists m,
    socket (snd (@_handleMessage test_runtime
                   (osc "/aoo/src/1/ping" [arg "i" (JInt 1); arg "i" (JInt 123456)])
                   (str "10.0.0.5") 7000 5 source0))
    = [datagram m 7000 (str "10.0.0.5")].
Proof.
  pose proof (@ping_pong_stateless test_runtime
    (osc "/aoo/src/1/ping" [arg "i" (JInt 1); arg "i" (JInt 123456)])
    (str "10.0.0.5") 7000 5 source0 [JInt 1; JInt 123456]
    eq_refl eq_refl eq_refl eq_refl eq_refl eq_refl) as H.
  destruct H as (_ & _ & Hsend & _ & Hok).
  - vm_compute. discriminate.
  - destruct (Hok 123456) as [m Hm].
    + reflexivity.
    + lia.
    + lia.
    + vm_compute. split; discriminate.
    + exists m. rewrite (Hsend m Hm). reflexivity.
Defined.

Lemma jsstring_eqb_refl (k : jsstring) : jsstring_eqb k k = true.
Proof. unfold jsstring_eqb. destruct (list_eq_dec Z.eq_dec k k); congruence. Qed.

Lemma jsstring_eqb_eq (a b : jsstring) : jsstring_eqb a b = true -> a = b.
Proof. unfold jsstring_eqb. destruct (list_eq_dec Z.eq_dec a b); congruence. Qed.

Lemma map_get_set {V} (m : list (jsstring * V)) (k : jsstring) (v : V) :
  map_get (map_set m k v) k = Some v.
Proof.
  induction m as [| [k' v'] r IH]; simpl.
  - now rewrite jsstring_eqb_refl.
  - destruct (jsstring_eqb k' k) eqn:E; simpl.
    + now rewrite jsstring_eqb_refl.
    + now rewrite E.
Qed.

Lemma handle_invite_effect {rt : Runtime} (h : jsstring) (p : Z) (msg : Buffer)
    (nullIdx : Z) (o : AooSource) :
  handle_invite h p msg nullIdx o
  = (Ok tt,
     match _parseOscArgs msg nullIdx with
     | Ok args =>
         if 2 <=? len args then
           let o1 := invite_adopt (nth 1 args JUndefined) h p o in
           match start_message o1 1 with
           | Ok m => snd (start (set_socket (socket o1 ++ [datagram m p h]) o1))
           | Throw _ => o1
           end
         else o
     | Throw _ => o
     end).
Proof.
  unfold handle_invite, try_catch. f_equal.
  unfold mbind at 1, lift.
  destruct (_parseOscArgs msg nullIdx) as [args|e]; [|reflexivity].
  destruct (2 <=? len args); [|reflexivity].
  set (o1 := invite_adopt (nth 1 args JUndefined) h p o).
  assert (E : forall k : M unit,
             (modify (set_streamId (nth 1 args JUndefined))
              >> modify (set_formatId 0) >> modify (set_sequence 0)
              >> addSink h p 1 >> k) o = k o1) by reflexivity.
  rewrite E. cbv zeta.
  unfold mbind, _sendStartOSC, mbind, lift, socket_send, modify, datagram.
  destruct (start_message o1 1); reflexivity.
Qed.

(** C5, as amended.  A datagram that is not taken for a binary frame and whose
    address contains "/invite" is handled without an error.  With fewer than
    two decoded arguments (or a decoding error) nothing changes and nothing is
    sent.  With at least two, the object adopts arg[1] as streamId, resets
    formatId and sequence to 0 and registers the sender as sink 1, whether or
    not a reply can be built.  Then, when the /start message for the updated
    object can be encoded, that message is sent to the sender and [start()]
    is called, so the session is streaming afterwards; and when it cannot be
    encoded the error is swallowed, nothing is sent, [start()] is not called,
    and the object is left with the adopted token, the reset counters and the
    registered sender. *)
Theorem invite_handshake {rt : Runtime} (msg : Buffer) (h : jsstring)
    (p now : Z) (o : AooSource) :
  is_binary msg = false ->
  0 < indexOf msg 0 0 ->
  includes (toString_ascii msg 0 (indexOf msg 0 0)) (str "/invite") = true ->
  let r := _handleMessage msg h p now o in
  fst r = Ok tt
  /\ match _parseOscArgs msg (indexOf msg 0 0) with
     | Ok args =>
         (len args < 2 -> snd r = o)
         /\ (2 <= len args ->
             let o1 := invite_adopt (nth 1 args JUndefined) h p o in
             streamId (snd r) = nth 1 args JUndefined
             /\ formatId (snd r) = 0
             /\ sequence (snd r) = 0
             /\ sinks (snd r)
                = map_set (sinks o) (sink_key h p 1)
                    {| host := h; port := p; sinkId := 1; active := true |}
             /\ map_get (sinks (snd r)) (sink_key h p 1)
                = Some {| host := h; port := p; sinkId := 1; active := true |}
             /\ (forall m,
                   start_message o1 1 = Ok m ->
                   snd r
                   = snd (start (set_socket (socket o ++ [datagram m p h]) o1))
                   /\ socket (snd r) = socket o ++ [datagram m p h]
                   /\ isStreaming (snd r) = true)
             /\ (forall e,
                   start_message o1 1 = Throw e ->
                   snd r = o1
                   /\ socket (snd r) = socket o
                   /\ isStreaming (snd r) = isStreaming o
                   /\ _startSent (snd r) = _startSent o
                   /\ sampleBuffer (snd r) = sampleBuffer o))
     | Throw _ => snd r = o
     end.
Proof.
  intros Hbin Hnul Hinv r. subst r. unfold _handleMessage.
  rewrite Hbin. apply Z.ltb_lt in Hnul. rewrite Hnul, Hinv.
  rewrite handle_invite_effect. simpl fst. simpl snd.
  split; [reflexivity|].
  destruct (_parseOscArgs msg (indexOf msg 0 0)) as [args|e]; [|reflexivity].
  split.
  - intros Hlt. destruct (2 <=? len args) eqn:E; [apply Z.leb_le in E; lia|].
    reflexivity.
  - intros Hge. apply Z.leb_le in Hge. rewrite Hge. cbv zeta.
    set (o1 := invite_adopt (nth 1 args JUndefined) h p o) in *.
    pose proof (map_get_set (sinks o) (sink_key h p 1)
                  {| host := h; port := p; sinkId := 1; active := true |}) as Hget.
    destruct (start_message o1 1) as [m|e] eqn:Hm.
    + assert (Hst : forall s,
                 let o2 := snd (start (set_socket s o1)) in
                 streamId o2 = nth 1 args JUndefined /\ formatId o2 = 0
                 /\ sequence o2 = 0 /\ sinks o2 = sinks o1
                 /\ socket o2 = s /\ isStreaming o2 = true).
      { intros s. unfold start. cbn [isStreaming set_socket].
        destruct (isStreaming o1) eqn:Es; cbn; repeat split; auto. }
      destruct (Hst (socket o1 ++ [datagram m p h]))
        as (H1 & H2 & H3 & H4 & H5 & H6).
      split; [exact H1|]. split; [exact H2|]. split; [exact H3|].
      split; [exact H4|].
      split; [etransitivity; [|exact Hget]; f_equal; exact H4|].
      split; [|intros e He; discriminate].
      intros m' Hm'. assert (m' = m) by congruence. subst m'.
      split; [reflexivity|]. split; [exact H5 | exact H6].
    + split; [reflexivity|]. split; [reflexivity|]. split; [reflexivity|].
      split; [reflexivity|]. split; [exact Hget|].
      split; [intros m' Hm'; discriminate|].
      intros e' _. repeat split.
Qed.

(** C5, the claim as stated fails: an /invite whose second argument is the
    float 1e10 (bytes 50 15 02 F9) is decoded to two values and adopted as
    streamId, but the /start reply cannot be encoded, so nothing is sent and
    the session is not streaming. *)
Lemma invite_without_start :
  let r := @_handleMessage test_runtime invite_float_token (str "10.0.0.5") 7000 5
             source0 in
  _parseOscArgs invite_float_token (indexOf invite_float_token 0 0)
  = Ok [JInt 1; JNumber (Fin 9765625 10)]
  /\ streamId (snd r) = JNumber (Fin 9765625 10)
  /\ socket (snd r) = []
  /\ isStreaming (snd r) = false.
Proof. vm_compute. repeat split; reflexivity. Qed.

(** The amended C5 on the /invite of the specification's scenario. *)
Lemma invite_handshake_witness :
  let r := @_handleMessage test_runtime
             (osc "/aoo/src/1/invite" [arg "i" (JInt 5); arg "i" (JInt 777)])
             (str "10.0.0.5") 7000 5 source0 in
  streamId (snd r) = JInt 777 /\ isStreaming (snd r) = true
  /\ length (socket (snd r)) = 1%nat.
Proof.
  pose proof (@invite_handshake test_runtime
    (osc "/aoo/src/1/invite" [arg "i" (JInt 5); arg "i" (JInt 777)])
    (str "10.0.0.5") 7000 5 source0 eq_refl eq_refl eq_refl) as [_ H].
  cbv zeta in H.
  change (_parseOscArgs _ _) with (@Ok (list jsval) [JInt 5; JInt 777]) in H.
  destruct H as [_ H].
  assert (Hlen : 2 <= len [JInt 5; JInt 777]) by (vm_compute; discriminate).
  destruct (@start_message test_runtime
              (invite_adopt (nth 1 [JInt 5; JInt 777] JUndefined)
                 (str "10.0.0.5") 7000 source0) 1) as [m|e] eqn:Hm;
    [|vm_compute in Hm; discriminate].
  destruct (H Hlen) as (Hsid & _ & _ & _ & _ & Hok & _).
  destruct (Hok m eq_refl) as (_ & Hsock & Hstr).
  cbv zeta. rewrite Hsid, Hsock, Hstr. repeat split.
Defined.

(** C7, the code at the failing input: a /start datagram whose second
    argument is the integer 5 is stored as the sink version; the reply built
    by [_sendStartOSC], which this branch calls outside its [try] block, then
    raises, and the error leaves [_handleMessage]. *)
Theorem handleMessage_start_reply_raises (rt : Runtime) :
  fst (_handleMessage
         (osc "/aoo/src/1/start" [arg "i" (JInt 1); arg "i" (JInt 5)])
         (str "10.0.0.5") 7000 5 source0)
  = Throw ERR_OUT_OF_RANGE_value.
Proof. vm_compute. reflexivity. Qed.

(** ** Format changes *)

Lemma start_message_encodable {rt : Runtime} (o : AooSource) (body : Buffer) :
  encode_args (start_args o) = Ok body ->
  forall id, exists m, start_message o id = Ok m.
Proof.
  intros H id. unfold start_message, _buildOSCMessage. rewrite H.
  unfold bind. eauto.
Qed.

Lemma set_socket_twice (s1 s2 : list Datagram) (o : AooSource) :
  set_socket s2 (set_socket s1 o) = set_socket s2 o.
Proof. reflexivity. Qed.

Lemma start_each_spec {rt : Runtime} (l : list (jsstring * Sink)) :
  forall o,
    (forall id, exists m, start_message o id = Ok m) ->
    exists dgs,
      start_each l o = (Ok tt, set_socket (socket o ++ dgs) o)
      /\ Forall2 (is_start_for o) (filter active (map snd l)) dgs.
Proof.
  induction l as [| [k s] r IH]; intros o Henc.
  - exists []. simpl. rewrite app_nil_r, set_socket_same.
    split; [reflexivity | constructor].
  - simpl. destruct (active s) eqn:Ha.
    + destruct (Henc (sinkId s)) as [m Hm].
      set (o' := set_socket (socket o ++ [datagram m (port s) (host s)]) o).
      destruct (IH o') as (dgs & Hrun & Hall).
      { intros id. exact (Henc id). }
      exists (datagram m (port s) (host s) :: dgs). split.
      * unfold mbind at 1. unfold _sendStartOSC, mbind, lift, socket_send, modify.
        rewrite Hm. fold (datagram m (port s) (host s)). fold o'.
        rewrite Hrun. unfold o'. rewrite set_socket_twice.
        cbn [socket set_socket]. now rewrite <- app_assoc.
      * constructor; [|exact Hall]. repeat split. exact Hm.
    + unfold mbind at 1, ret. apply IH. exact Henc.
Qed.

Lemma start_each_fields {rt : Runtime} (l : list (jsstring * Sink)) :
  forall o, snd (start_each l o) = set_socket (socket (snd (start_each l o))) o.
Proof.
  induction l as [| [k s] r IH]; intros o.
  - simpl. now rewrite set_socket_same.
  - simpl. destruct (active s).
    + cbv beta iota delta [mbind _sendStartOSC lift socket_send modify].
      destruct (start_message o (sinkId s)) as [m|e].
      * rewrite IH at 1. reflexivity.
      * simpl. now rewrite set_socket_same.
    + unfold mbind, ret. apply IH.
Qed.

(** C8, as amended.  [updateSampleRate] with the current rate changes nothing and
    sends
    nothing.  With a different rate before the /start announcement it sets
    sampleRate, adds 1 to formatId and sends nothing.  With a different rate
    after the announcement it sets sampleRate and adds exactly 1 to formatId,
    and, the /start message of the updated object being encodable, sends
    exactly one /start of the updated object to each active registered sink,
    in registry order, and nothing else. *)
Theorem updateSampleRate_format_change {rt : Runtime} (newRate : Z)
    (o : AooSource) :
  let r := updateSampleRate newRate o in
  let o1 := set_formatId (formatId o + 1) (set_sampleRate newRate o) in
  (newRate = sampleRate o -> r = (Ok tt, o))
  /\ (newRate <> sampleRate o -> _startSent o = false -> r = (Ok tt, o1))
  /\ (newRate <> sampleRate o -> _startSent o = true ->
      sampleRate (snd r) = newRate
      /\ formatId (snd r) = formatId o + 1
      /\ forall body,
           encode_args (start_args o1) = Ok body ->
           exists dgs,
             r = (Ok tt, set_socket (socket o ++ dgs) o1)
             /\ Forall2 (is_start_for o1)
                  (filter active (map snd (sinks o))) dgs).
Proof.
  intros r o1. subst r. unfold updateSampleRate, _setSampleRate.
  split; [|split].
  - intros ->. rewrite Z.eqb_refl. simpl. destruct (_startSent o); reflexivity.
  - intros Hne Hs. rewrite Hs. simpl.
    destruct (sampleRate o =? newRate) eqn:E; [apply Z.eqb_eq in E; congruence|].
    reflexivity.
  - intros Hne Hs. rewrite Hs. simpl.
    destruct (sampleRate o =? newRate) eqn:E; [apply Z.eqb_eq in E; congruence|].
    simpl. unfold mbind, modify. fold o1.
    change (sinks o1) with (sinks o).
    split; [|split].
    + rewrite start_each_fields. reflexivity.
    + rewrite start_each_fields. reflexivity.
    + intros body Hbody.
      destruct (start_each_spec (sinks o) o1 (start_message_encodable o1 body Hbody))
        as (dgs & Hrun & Hall).
      exists dgs. split; [exact Hrun | exact Hall].
Qed.

(** The amended C8 on a source with one registered sink that has announced itself at
    48000 Hz and is switched to 44100 Hz. *)
Lemma updateSampleRate_format_change_witness :
  exists d,
    @updateSampleRate test_runtime 44100 announced_source
    = (Ok tt,
       set_socket [d]
         (set_formatId 1 (set_sampleRate 44100 announced_source)))
    /\ dg_port d = 9999.
Proof.
  destruct (@updateSampleRate_format_change test_runtime 44100 announced_source)
    as (_ & _ & H).
  destruct H as (_ & _ & H); [vm_compute; discriminate | reflexivity |].
  destruct (@encode_args test_runtime
              (start_args (set_formatId (formatId announced_source + 1)
                             (set_sampleRate 44100 announced_source))))
    as [body|e] eqn:Hb; [|vm_compute in Hb; discriminate].
  destruct (H body eq_refl) as (dgs & Hrun & Hall).
  inversion Hall as [| s d l l' Hd Hrest Heq1 Heq2]; subst.
  inversion Hrest; subst.
  exists d. split.
  - exact Hrun.
  - destruct Hd as (_ & Hp & _). exact Hp.
Defined.

(** C8, the claim as stated fails: after the announcement, with one active
    sink, a change to the rate 3000000000 (an unsigned 32-bit value) adds 1 to
    formatId but sends no /start at all: the message cannot be encoded and the
    call raises. *)
Lemma updateSampleRate_unencodable_rate :
  let r := @updateSampleRate test_runtime 3000000000 announced_source in
  _startSent announced_source = true
  /\ map (fun ks => active (snd ks)) (sinks announced_source) = [true]
  /\ fst r = Throw ERR_OUT_OF_RANGE_value
  /\ formatId (snd r) = formatId announced_source + 1
  /\ socket (snd r) = socket announced_source.
Proof. vm_compute. repeat split; reflexivity. Qed.

(** ** Interleaving and buffering *)

Lemma same_stream_refl (o : AooSource) : same_stream o o.
Proof. repeat split. Qed.

Lemma announce_same_stream {rt : Runtime} (rate : option Z) (o : AooSource) :
  same_stream (snd (announce rate o)) o.
Proof.
  unfold announce. destruct (_startSent o); simpl; [apply same_stream_refl|].
  set (pre := match rate with
              | Some r =>
                  if negb (r =? 0) && negb (r =? sampleRate o)
                  then _setSampleRate r else ret tt
              | None => ret tt
              end).
  assert (Hpre : fst (pre o) = Ok tt /\ same_stream (snd (pre o)) o).
  { unfold pre. destruct rate as [r|]; [|split; [reflexivity|apply same_stream_refl]].
    destruct (negb (r =? 0) && negb (r =? sampleRate o));
      [|split; [reflexivity|apply same_stream_refl]].
    unfold _setSampleRate. destruct (negb (sampleRate o =? r)); simpl;
      split; try reflexivity; repeat split. }
  destruct Hpre as [Hok Hsame]. unfold mbind at 1.
  destruct (pre o) as [res o1]. simpl in Hok, Hsame. subst res.
  unfold _sendStartToAllSinks, mbind, modify.
  pose proof (start_each_fields (sinks o1) o1) as Hf.
  destruct (start_each (sinks o1) o1) as [res o2]. simpl in Hf.
  assert (H2 : same_stream o2 o).
  { rewrite Hf. unfold same_stream in *. simpl. exact Hsame. }
  destruct res; simpl; [|exact H2].
  unfold same_stream in *. simpl. exact H2.
Qed.

Lemma interleave_length (left right : list jsval) :
  len (interleave left right) = 2 * len left.
Proof.
  revert right. induction left as [| x l IH]; intros right; [reflexivity|].
  simpl interleave. rewrite !len_cons, IH. lia.
Qed.

Lemma interleave_nth (left : list jsval) :
  forall (right : list jsval) (i : nat),
    (i < length left)%nat ->
    nth (2 * i) (interleave left right) JUndefined = nth i left JUndefined
    /\ nth (2 * i + 1) (interleave left right) JUndefined
       = nth i right JUndefined.
Proof.
  induction left as [| x l IH]; intros right i Hi; simpl in Hi; [lia|].
  destruct i as [| i].
  - simpl. split; [reflexivity|]. destruct right; reflexivity.
  - replace (2 * S i)%nat with (S (S (2 * i))) by lia.
    replace (S (S (2 * i)) + 1)%nat with (S (S (2 * i + 1))) by lia.
    simpl interleave. cbn [nth].
    destruct (IH (tl right) i ltac:(lia)) as [H1 H2].
    rewrite H1, H2. split; [reflexivity|].
    destruct right; [destruct i|]; reflexivity.
Qed.

Lemma interleave_firstn (left : list jsval) :
  forall right, interleave left right = interleave left (firstn (length left) right).
Proof.
  induction left as [| x l IH]; intros right; [reflexivity|].
  simpl. destruct right as [| y r]; simpl.
  - reflexivity.
  - f_equal. f_equal. apply IH.
Qed.

Lemma sendAudio_past_announcement {rt : Runtime} (fuel : nat)
    (left right : list jsval) (rate : option Z) (o o1 : AooSource) :
  isStreaming o = true ->
  announce rate o = (Ok tt, o1) ->
  sendAudio fuel left right rate o
  = drain fuel (blockSize o * channels o) (push_samples left right o1)
  /\ sampleBuffer (push_samples left right o1)
     = sampleBuffer o ++ interleave left right.
Proof.
  intros Hs Ha.
  pose proof (announce_same_stream rate o) as Hsame. rewrite Ha in Hsame.
  destruct Hsame as (Hc & Hb & _ & _ & _ & _ & _ & _ & Hbuf). simpl in Hc, Hb, Hbuf.
  split.
  - unfold sendAudio. rewrite Hs, Ha. simpl negb. cbv iota zeta.
    assert (E : blockSize (push_samples left right o1)
                * channels (push_samples left right o1)
                = blockSize o * channels o).
    { unfold push_samples. cbn [blockSize channels set_sampleBuffer]. now rewrite Hc, Hb. }
    now rewrite E.
  - unfold push_samples. cbn [sampleBuffer set_sampleBuffer]. now rewrite Hbuf.
Qed.

(** C10, as amended.  In a streaming call [sendAudio(left, right, rate)] that
    gets past
    the /start announcement, the samples appended to the sample buffer are
    left[0], right[0], left[1], right[1], ...: [2 * length(left)] of them,
    whatever [channels] is (the appended list is a function of the two arrays
    alone), and indices of [right] at or beyond [length(left)] are not read;
    the block loop then runs on that buffer. *)
Theorem sendAudio_interleaves_two_arrays {rt : Runtime} (fuel : nat)
    (left right : list jsval) (rate : option Z) (o o1 : AooSource) :
  isStreaming o = true ->
  announce rate o = (Ok tt, o1) ->
  sendAudio fuel left right rate o
  = drain fuel (blockSize o * channels o) (push_samples left right o1)
  /\ sampleBuffer (push_samples left right o1)
     = sampleBuffer o ++ interleave left right
  /\ len (interleave left right) = 2 * len left
  /\ (forall i, (i < length left)%nat ->
        nth (2 * i) (interleave left right) JUndefined = nth i left JUndefined
        /\ nth (2 * i + 1) (interleave left right) JUndefined
           = nth i right JUndefined)
  /\ interleave left right = interleave left (firstn (length left) right).
Proof.
  intros Hs Ha.
  destruct (sendAudio_past_announcement fuel left right rate o o1 Hs Ha)
    as [Hrun Hbuf].
  split; [exact Hrun|]. split; [exact Hbuf|].
  split; [apply interleave_length|].
  split; [apply interleave_nth | apply interleave_firstn].
Qed.

(** The amended C10 on the second call of the specification's scenario, with a [right]
    array longer than [left]. *)
Lemma sendAudio_interleaves_witness :
  exists o1,
    @announce test_runtime None scenario_source = (Ok tt, o1)
    /\ sampleBuffer (push_samples [num 5] [num 50; num 60] o1) = [num 5; num 50].
Proof.
  destruct (@announce test_runtime None scenario_source) as [res o1] eqn:Ha.
  assert (Hres : res = Ok tt).
  { change res with (fst (res, o1)). rewrite <- Ha. vm_compute. reflexivity. }
  subst res. exists o1. split; [reflexivity|].
  destruct (@sendAudio_interleaves_two_arrays test_runtime 1 [num 5] [num 50; num 60]
              None scenario_source o1 eq_refl Ha) as (_ & Hbuf & _).
  rewrite Hbuf. reflexivity.
Defined.

(** C10, the claim as stated fails: a streaming call whose /start
    announcement cannot be encoded raises before the interleaving loop and
    appends nothing.  This happens on the first call with the rate 3000000000,
    and on any first call once a /start datagram has stored a number as the
    sink version. *)
Lemma sendAudio_raises_before_interleaving :
  isStreaming scenario_source = true
  /\ @sendAudio test_runtime 9 [num 1] [num 2] (Some 3000000000) scenario_source
     = Some (Throw ERR_OUT_OF_RANGE_value,
             set_formatId 1 (set_sampleRate 3000000000 scenario_source))
  /\ isStreaming int_version_source = true
  /\ @sendAudio test_runtime 9 [num 1] [num 2] None int_version_source
     = Some (Throw ERR_OUT_OF_RANGE_value, int_version_source).
Proof. vm_compute. repeat split; reflexivity. Qed.

(** ** Blocks and sequence numbers *)

Lemma buildDataMessage_ext {rt : Runtime} (o1 o2 : AooSource) (s : Sink)
    (audio : Buffer) :
  sourceId o1 = sourceId o2 -> streamId o1 = streamId o2 ->
  sequence o1 = sequence o2 ->
  _buildDataMessage o1 s audio = _buildDataMessage o2 s audio.
Proof. intros H1 H2 H3. unfold _buildDataMessage. now rewrite H1, H2, H3. Qed.

Lemma buildDataMessage_all_sinks {rt : Runtime} (o : AooSource) (s s' : Sink)
    (audio m : Buffer) :
  _buildDataMessage o s audio = Ok m ->
  exists m', _buildDataMessage o s' audio = Ok m'.
Proof.
  intros H. apply buildDataMessage_shape in H.
  destruct H as (s0 & s1 & s2 & s3 & q0 & q1 & q2 & q3 & Hsid & Hsq & Hr & _).
  unfold _buildDataMessage.
  rewrite (writeUInt8_ok (Z.lor kAooMsgTypeSink kAooBinMsgDomainBit))
    by (vm_compute; split; discriminate).
  rewrite (writeUInt8_ok kAooBinMsgCmdData) by (vm_compute; split; discriminate).
  rewrite !(writeUInt8_ok (Z.land _ 255)) by apply land_255_range.
  rewrite (writeUInt8_ok 0) by lia.
  rewrite Hsid, Hsq. unfold bind, writeUInt16BE.
  destruct (65535 <? len audio) eqn:E1; [apply Z.ltb_lt in E1; lia|].
  destruct (len audio <? 0) eqn:E2; [apply Z.ltb_lt in E2; lia|].
  simpl. eauto.
Qed.

Lemma data_each_ok {rt : Runtime} (audio : Buffer) (l : list (jsstring * Sink)) :
  forall o,
    (forall s, In s (map snd l) -> exists m, _buildDataMessage o s audio = Ok m) ->
    exists dgs,
      data_each l audio o = (Ok tt, set_socket (socket o ++ dgs) o)
      /\ Forall2 (fun s d =>
                    _buildDataMessage o s audio = Ok (dg_msg d)
                    /\ dg_port d = port s /\ dg_host d = host s)
           (map snd l) dgs.
Proof.
  induction l as [| [k s] r IH]; intros o Hall.
  - exists []. simpl. rewrite app_nil_r, set_socket_same.
    split; [reflexivity | constructor].
  - destruct (Hall s (or_introl eq_refl)) as [m Hm].
    set (o' := set_socket (socket o ++ [datagram m (port s) (host s)]) o).
    destruct (IH o') as (dgs & Hrun & Hfr).
    { intros s' Hin. destruct (Hall s' (or_intror Hin)) as [m' Hm'].
      exists m'. rewrite <- Hm'. now apply buildDataMessage_ext. }
    exists (datagram m (port s) (host s) :: dgs). split.
    + simpl. cbv beta iota delta [mbind lift socket_send modify].
      rewrite Hm. fold (datagram m (port s) (host s)). fold o'.
      rewrite Hrun. unfold o'. rewrite set_socket_twice.
      cbn [socket set_socket]. now rewrite <- app_assoc.
    + simpl. constructor; [repeat split; exact Hm|].
      exact Hfr.
Qed.

(** The send loop of [_sendBlock] either sends one frame to every sink or
    raises at the first sink and sends nothing. *)
Lemma data_each_spec {rt : Runtime} (audio : Buffer) (l : list (jsstring * Sink)) :
  forall o,
    (exists dgs,
        data_each l audio o = (Ok tt, set_socket (socket o ++ dgs) o)
        /\ Forall2 (fun s d =>
                      _buildDataMessage o s audio = Ok (dg_msg d)
                      /\ dg_port d = port s /\ dg_host d = host s)
             (map snd l) dgs)
    \/ (exists e, data_each l audio o = (Throw e, o)).
Proof.
  intros o. destruct l as [| [k s] r].
  - left. apply data_each_ok. intros s [].
  - destruct (_buildDataMessage o s audio) as [m|e] eqn:Hm.
    + left. apply data_each_ok. intros s' _.
      eapply buildDataMessage_all_sinks; eauto.
    + right. exists e. simpl. cbv beta iota delta [mbind lift socket_send modify].
      now rewrite Hm.
Qed.

Lemma sendBlock_unfold {rt : Runtime} (samples : list jsval) (o : AooSource) :
  _sendBlock samples o
  = match audioBytes samples with
    | Ok bytes =>
        ((fun o => data_each (sinks o) bytes o)
         >> modify (fun o => set_sequence (next_sequence (sequence o)) o)) o
    | Throw e => (Throw e, o)
    end.
Proof.
  unfold _sendBlock, mbind, lift. destruct (audioBytes samples); reflexivity.
Qed.

Lemma sendBlock_spec {rt : Runtime} (samples : list jsval) (o : AooSource) :
  (exists dgs,
      _sendBlock samples o
      = (Ok tt,
         set_sequence (next_sequence (sequence o))
           (set_socket (socket o ++ dgs) o))
      /\ Forall2 (frame_for o (sequence o) samples) (map snd (sinks o)) dgs)
  \/ (exists e, _sendBlock samples o = (Throw e, o)).
Proof.
  rewrite sendBlock_unfold.
  destruct (audioBytes samples) as [bytes|e] eqn:Hbytes; [|right; eauto].
  destruct (data_each_spec bytes (sinks o) o)
    as [(dgs & Hrun & Hfr) | (e & Hrun)].
  - left. exists dgs. split.
    + cbv beta iota delta [mbind modify]. rewrite Hrun. reflexivity.
    + eapply Forall2_impl; [|exact Hfr].
      intros s d (Hb & Hp & Hh). unfold frame_for. rewrite Hbytes. cbn [bind].
      split; [|split; assumption]. rewrite <- Hb.
      now apply buildDataMessage_ext.
  - right. exists e. cbv beta iota delta [mbind modify]. now rewrite Hrun.
Qed.

Lemma drained_ext {rt : Runtime} (o1 o2 : AooSource) (sq : Z)
    (blocks : list (list jsval)) (new : list Datagram) :
  sourceId o1 = sourceId o2 -> streamId o1 = streamId o2 ->
  sinks o1 = sinks o2 ->
  drained o1 sq blocks new -> drained o2 sq blocks new.
Proof.
  intros H1 H2 H3 Hd. induction Hd as [| sq block blocks dgs rest Hfr _ IH].
  - constructor.
  - constructor; [|exact IH]. rewrite <- H3.
    eapply Forall2_impl; [|exact Hfr].
    intros s d (Hb & Hp & Hh). repeat split; auto.
    rewrite <- Hb. destruct (audioBytes block) as [bytes|e]; [|reflexivity].
    cbn [bind]. symmetry. now apply buildDataMessage_ext.
Qed.

(** What the loop of [sendAudio] does, whether it returns or stops at an
    error: the buffer it started with is made of the blocks it has sent, the
    block that was spliced out and could not be sent (if it stopped at an
    error), and what is left. *)
Lemma drain_full {rt : Runtime} (spb : Z) (fuel : nat) :
  forall o r o',
    drain fuel spb o = Some (r, o') ->
    exists blocks new lost,
      drained o (sequence o) blocks new
      /\ socket o' = socket o ++ new
      /\ sequence o' = Nat.iter (length blocks) next_sequence (sequence o)
      /\ drain_frame o' o
      /\ sampleBuffer o = concat blocks ++ lost ++ sampleBuffer o'
      /\ Forall (fun b => len b = Z.max 0 spb) blocks
      /\ (r = Ok tt -> lost = [] /\ len (sampleBuffer o') < spb)
      /\ (r <> Ok tt -> len lost = Z.max 0 spb).
Proof.
  induction fuel as [| f IH]; intros o r o' H; simpl in H.
  - destruct (spb <=? len (sampleBuffer o)) eqn:E; [discriminate|].
    inversion H; subst r o'. exists [], [], []. apply Z.leb_gt in E.
    split; [constructor|]. split; [now rewrite app_nil_r|].
    split; [reflexivity|]. split; [destruct o; reflexivity|].
    split; [reflexivity|]. split; [constructor|].
    split; [intros _; now split | intros Hr; now contradiction Hr].
  - destruct (spb <=? len (sampleBuffer o)) eqn:E.
    + apply Z.leb_le in E.
      set (block := firstn (Z.to_nat spb) (sampleBuffer o)) in *.
      set (o1 := set_sampleBuffer (skipn (Z.to_nat spb) (sampleBuffer o)) o) in *.
      assert (Hbl : len block = Z.max 0 spb).
      { unfold block, len. rewrite firstn_length_le; unfold len in E; lia. }
      destruct (sendBlock_spec block o1) as [(dgs & Hrun & Hfr) | (e & Hrun)];
        rewrite Hrun in H.
      * apply IH in H.
        destruct H as (blocks & new & lost & Hd & Hsock & Hseq & Hframe & Hbuf
                       & Hall & Hok & Hno).
        exists (block :: blocks), (dgs ++ new), lost.
        split; [|split; [|split; [|split; [|split; [|split; [|split]]]]]].
        -- constructor; [exact Hfr|].
           eapply drained_ext; [| | |exact Hd]; reflexivity.
        -- rewrite Hsock. cbn [socket set_sequence set_socket].
           unfold o1. cbn [socket set_sampleBuffer]. now rewrite app_assoc.
        -- rewrite Hseq. cbn [length]. rewrite Nat.iter_succ_r. reflexivity.
        -- unfold drain_frame in *. rewrite Hframe at 1. reflexivity.
        -- cbn [sampleBuffer set_sequence set_socket] in Hbuf.
           unfold o1 in Hbuf. cbn [sampleBuffer set_sampleBuffer] in Hbuf.
           cbn [concat]. rewrite <- app_assoc, <- Hbuf.
           unfold block. now rewrite firstn_skipn.
        -- constructor; [exact Hbl | exact Hall].
        -- exact Hok.
        -- exact Hno.
      * inversion H; subst r o'. exists [], [], block.
        split; [constructor|]. split; [now rewrite app_nil_r|].
        split; [reflexivity|]. split; [destruct o; reflexivity|].
        split; [unfold o1, block; cbn [concat app sampleBuffer set_sampleBuffer];
                now rewrite firstn_skipn|].
        split; [constructor|].
        split; [intros Hr; discriminate | intros _; exact Hbl].
    + inversion H; subst r o'. exists [], [], []. apply Z.leb_gt in E.
      split; [constructor|]. split; [now rewrite app_nil_r|].
      split; [reflexivity|]. split; [destruct o; reflexivity|].
      split; [reflexivity|]. split; [constructor|].
      split; [intros _; now split | intros Hr; now contradiction Hr].
Qed.

Lemma drain_spec {rt : Runtime} (spb : Z) (fuel : nat) :
  forall o r o',
    drain fuel spb o = Some (r, o') ->
    exists blocks new,
      drained o (sequence o) blocks new
      /\ socket o' = socket o ++ new
      /\ sequence o' = Nat.iter (length blocks) next_sequence (sequence o)
      /\ drain_frame o' o
      /\ (r = Ok tt ->
          sampleBuffer o = concat blocks ++ sampleBuffer o'
          /\ Forall (fun b => len b = spb) blocks
          /\ len (sampleBuffer o') < spb).
Proof.
  intros o r o' H. apply drain_full in H.
  destruct H as (blocks & new & lost & Hd & Hsock & Hseq & Hframe & Hbuf
                 & Hall & Hok & _).
  exists blocks, new. repeat (split; [assumption|]).
  intros Hr. destruct (Hok Hr) as [-> Hlt]. split; [exact Hbuf|].
  split; [|exact Hlt].
  pose proof (len_nonneg (sampleBuffer o')).
  eapply Forall_impl; [|exact Hall]. intros b0 Hb. cbv beta in Hb. lia.
Qed.

Lemma sendBlock_buffer {rt : Runtime} (samples : list jsval) (o : AooSource) :
  sampleBuffer (snd (_sendBlock samples o)) = sampleBuffer o.
Proof.
  destruct (sendBlock_spec samples o) as [(dgs & Hrun & _) | (e & Hrun)];
    rewrite Hrun; reflexivity.
Qed.

(** With a positive block length, the loop stops within as many iterations as
    there are buffered samples. *)
Lemma drain_terminates {rt : Runtime} (spb : Z) (fuel : nat) :
  forall o,
    1 <= spb -> (length (sampleBuffer o) <= fuel)%nat ->
    exists r o', drain fuel spb o = Some (r, o').
Proof.
  induction fuel as [| f IH]; intros o Hspb Hfuel; simpl.
  - destruct (spb <=? len (sampleBuffer o)) eqn:E; [|eauto].
    apply Z.leb_le in E. unfold len in E. lia.
  - destruct (spb <=? len (sampleBuffer o)) eqn:E; [|eauto].
    apply Z.leb_le in E.
    set (o1 := set_sampleBuffer (skipn (Z.to_nat spb) (sampleBuffer o)) o).
    pose proof (sendBlock_buffer (firstn (Z.to_nat spb) (sampleBuffer o)) o1) as Hb.
    destruct (_sendBlock (firstn (Z.to_nat spb) (sampleBuffer o)) o1) as [[[]|e] o2].
    + apply IH; [exact Hspb|]. simpl in Hb. rewrite Hb. unfold o1.
      cbn [sampleBuffer set_sampleBuffer]. rewrite length_skipn.
      unfold len in E. lia.
    + eauto.
Qed.

Lemma writeFloatBE_length {rt : Runtime} (v : jsval) (b : Buffer) :
  writeFloatBE v = Ok b -> len b = 4.
Proof.
  unfold writeFloatBE. destruct (ToNumber v) as [x|e]; [|discriminate].
  cbn [bind]. destruct (float32_bytes x) as [[[b0 b1] b2] b3].
  intros H. injection H as <-. reflexivity.
Qed.

Lemma writeFloatBE_all_length {rt : Runtime} (samples : list jsval) :
  forall bytes, audioBytes samples = Ok bytes -> len bytes = 4 * len samples.
Proof.
  induction samples as [| v l IH]; cbn [audioBytes]; intros bytes H.
  - injection H as <-. reflexivity.
  - destruct (writeFloatBE v) as [b|e] eqn:Hv; [|discriminate]. cbn [bind] in H.
    destruct (audioBytes l) as [r|e]; [|discriminate]. cbn [bind] in H.
    assert (E : bytes = b ++ r) by congruence. subst bytes.
    rewrite len_app, len_cons, (IH r eq_refl), (writeFloatBE_length v b Hv). lia.
Qed.

Lemma writeFloatBE_numeric {rt : Runtime} (v : jsval) :
  numeric v -> exists b, writeFloatBE v = Ok b.
Proof.
  intros Hv. unfold writeFloatBE.
  destruct (ToNumber v) as [x|e] eqn:Hx.
  - cbn [bind]. destruct (float32_bytes x) as [[[b0 b1] b2] b3]. eauto.
  - destruct v; try discriminate. contradiction.
Qed.

(** Samples that are not BigInts can always be written. *)
Lemma audioBytes_numeric {rt : Runtime} (samples : list jsval) :
  Forall numeric samples -> exists bytes, audioBytes samples = Ok bytes.
Proof.
  induction 1 as [| v l Hv _ IH]; cbn [audioBytes]; [eauto|].
  destruct IH as [r ->]. destruct (writeFloatBE_numeric v Hv) as [b ->].
  cbn [bind]. eauto.
Qed.

(** A BigInt sample makes the conversion raise: unary [+] rejects it. *)
Lemma audioBytes_bigint {rt : Runtime} (samples : list jsval) :
  ~ Forall numeric samples -> audioBytes samples = Throw TypeError.
Proof.
  induction samples as [| v l IH]; intros H.
  - exfalso. apply H. constructor.
  - cbn [audioBytes].
    assert (Hv : numeric v \/ exists n, v = JBigInt n).
    { destruct v; try (left; exact I). right. eauto. }
    destruct Hv as [Hv | [n ->]]; [|reflexivity].
    destruct (writeFloatBE_numeric v Hv) as [b ->]. cbn [bind].
    rewrite IH; [reflexivity|].
    intros Hl. apply H. now constructor.
Qed.

Lemma next_sequence_range (s : Z) :
  0 <= s < M31 -> 0 <= next_sequence s < M31.
Proof.
  unfold next_sequence, M31. intros H.
  destruct (2147483647 <=? s + 1) eqn:E.
  - lia.
  - apply Z.leb_gt in E. lia.
Qed.

Lemma next_sequence_mod (s : Z) :
  0 <= s < M31 -> next_sequence s = (s + 1) mod M31.
Proof.
  unfold next_sequence, M31. intros H.
  destruct (2147483647 <=? s + 1) eqn:E.
  - apply Z.leb_le in E. replace (s + 1) with 2147483647 by lia.
    now rewrite Z.mod_same.
  - apply Z.leb_gt in E. rewrite Z.mod_small; lia.
Qed.

Lemma iter_next_sequence (k : nat) (s : Z) :
  0 <= s < M31 ->
  Nat.iter k next_sequence s = (s + Z.of_nat k) mod M31.
Proof.
  intros H. induction k as [| k IH].
  - simpl. rewrite Z.add_0_r, Z.mod_small; [reflexivity | exact H].
  - rewrite Nat.iter_succ, IH, next_sequence_mod.
    + rewrite Zplus_mod_idemp_l. f_equal. lia.
    + apply Z.mod_pos_bound. unfold M31. lia.
Qed.

Lemma sendBlock_ok {rt : Runtime} (samples : list jsval) (o : AooSource) :
  Forall numeric samples ->
  can_frame o (len samples) ->
  exists dgs,
    _sendBlock samples o
    = (Ok tt,
       set_sequence (next_sequence (sequence o)) (set_socket (socket o ++ dgs) o)).
Proof.
  intros Hnum ([sid Hsid] & Hseq & Hlen).
  destruct (audioBytes_numeric samples Hnum) as [bytes Hbytes].
  destruct (data_each_ok bytes (sinks o) o) as (dgs & Hrun & _).
  { intros s _.
    apply (buildDataMessage_ok o s bytes sid Hsid).
    - unfold M31 in Hseq. lia.
    - rewrite (writeFloatBE_all_length samples bytes Hbytes). lia. }
  exists dgs. rewrite sendBlock_unfold, Hbytes.
  cbv beta iota delta [mbind modify]. rewrite Hrun. reflexivity.
Qed.

Lemma Forall_firstn {A} (P : A -> Prop) (n : nat) (l : list A) :
  Forall P l -> Forall P (firstn n l).
Proof.
  intros H. rewrite <- (firstn_skipn n l) in H.
  apply Forall_app in H. apply H.
Qed.

Lemma Forall_skipn {A} (P : A -> Prop) (n : nat) (l : list A) :
  Forall P l -> Forall P (skipn n l).
Proof.
  intros H. rewrite <- (firstn_skipn n l) in H.
  apply Forall_app in H. apply H.
Qed.

Lemma drain_ok {rt : Runtime} (spb : Z) (fuel : nat) :
  forall o,
    1 <= spb -> can_frame o spb ->
    Forall numeric (sampleBuffer o) ->
    (length (sampleBuffer o) <= fuel)%nat ->
    exists o', drain fuel spb o = Some (Ok tt, o').
Proof.
  induction fuel as [| f IH]; intros o Hspb Hcan Hnum Hfuel; simpl.
  - destruct (spb <=? len (sampleBuffer o)) eqn:E; [|eauto].
    apply Z.leb_le in E. unfold len in E. lia.
  - destruct (spb <=? len (sampleBuffer o)) eqn:E; [|eauto].
    apply Z.leb_le in E.
    set (block := firstn (Z.to_nat spb) (sampleBuffer o)).
    set (o1 := set_sampleBuffer (skipn (Z.to_nat spb) (sampleBuffer o)) o).
    assert (Hbl : len block = spb).
    { unfold block, len. rewrite firstn_length_le; unfold len in E; lia. }
    destruct (sendBlock_ok block o1) as [dgs Hrun].
    { apply Forall_firstn. exact Hnum. }
    { rewrite Hbl. exact Hcan. }
    rewrite Hrun. apply IH; [exact Hspb| | |].
    + destruct Hcan as (Hsid & Hseq & Hlen). repeat split; try assumption.
      * apply next_sequence_range. exact Hseq.
      * apply next_sequence_range. exact Hseq.
    + cbn [sampleBuffer set_sequence set_socket]. unfold o1.
      cbn [sampleBuffer set_sampleBuffer]. apply Forall_skipn. exact Hnum.
    + cbn [sampleBuffer set_sequence set_socket]. unfold o1.
      cbn [sampleBuffer set_sampleBuffer]. rewrite length_skipn.
      unfold len in E. lia.
Qed.

Lemma alloc_write_ascii_head (size c : Z) (s : jsstring) :
  1 <= size -> exists tl, alloc_write_ascii size (c :: s) = c mod 256 :: tl.
Proof.
  intros H. unfold alloc_write_ascii.
  destruct (Z.to_nat size) as [| k] eqn:E; [lia|].
  cbn [map firstn app]. eauto.
Qed.

(** An OSC message whose address starts with '/' is not taken for a binary
    frame. *)
Lemma osc_not_binary {rt : Runtime} (address : jsstring) (args : list oscarg)
    (m : Buffer) :
  _buildOSCMessage (47 :: address) args = Ok m -> is_binary m = false.
Proof.
  unfold _buildOSCMessage, bind.
  destruct (encode_args args) as [body|e]; [|discriminate].
  intros [= <-].
  match goal with
  | |- is_binary (alloc_write_ascii ?sz _ ++ _) = false =>
      destruct (alloc_write_ascii_head sz 47 address) as [tl Htl];
        [change sz with (ceil4 (len (47 :: address) + 1));
         pose proof (ceil4_bounds (len (47 :: address) + 1)) as [Hb _];
         pose proof (len_nonneg (47 :: address)); lia
        |rewrite Htl]
  end.
  unfold is_binary, byte_at. cbn [app Z.to_nat nth].
  change (Z.land (47 mod 256) kAooBinMsgDomainBit =? 0) with true.
  apply andb_false_r.
Qed.

Lemma start_message_not_binary {rt : Runtime} (o : AooSource) (id : Z)
    (m : Buffer) :
  start_message o id = Ok m -> is_binary m = false.
Proof. unfold start_message. apply osc_not_binary. Qed.

Lemma start_each_socket {rt : Runtime} (l : list (jsstring * Sink)) :
  forall o,
    exists ann,
      socket (snd (start_each l o)) = socket o ++ ann /\ Forall not_frame ann.
Proof.
  induction l as [| [k s] r IH]; intros o.
  - exists []. simpl. rewrite app_nil_r. split; [reflexivity | constructor].
  - simpl. destruct (active s).
    + cbv beta iota delta [mbind _sendStartOSC lift socket_send modify].
      destruct (start_message o (sinkId s)) as [m|e] eqn:Hm.
      * destruct (IH (set_socket
                        (socket o ++
                         [{| dg_msg := m; dg_port := port s; dg_host := host s |}])
                        o)) as (ann & Hann & Hosc).
        eexists. rewrite Hann. cbn [socket set_socket].
        rewrite <- app_assoc. split; [reflexivity|].
        constructor; [|exact Hosc].
        unfold not_frame. cbn [dg_msg].
        eapply start_message_not_binary. exact Hm.
      * exists []. simpl. rewrite app_nil_r. split; [reflexivity | constructor].
    + unfold mbind, ret. apply IH.
Qed.

Lemma announce_socket {rt : Runtime} (rate : option Z) (o : AooSource) :
  exists ann,
    socket (snd (announce rate o)) = socket o ++ ann /\ Forall not_frame ann.
Proof.
  unfold announce. destruct (_startSent o); simpl.
  - exists []. rewrite app_nil_r. split; [reflexivity | constructor].
  - set (pre := match rate with
                | Some r =>
                    if negb (r =? 0) && negb (r =? sampleRate o)
                    then _setSampleRate r else ret tt
                | None => ret tt
                end).
    assert (Hpre : fst (pre o) = Ok tt /\ socket (snd (pre o)) = socket o).
    { unfold pre. destruct rate as [r|]; [|split; reflexivity].
      destruct (negb (r =? 0) && negb (r =? sampleRate o)); [|split; reflexivity].
      unfold _setSampleRate. destruct (negb (sampleRate o =? r)); split; reflexivity. }
    destruct Hpre as [Hok Hsock]. unfold mbind at 1.
    destruct (pre o) as [res o1]. simpl in Hok, Hsock. subst res.
    unfold _sendStartToAllSinks, mbind, modify.
    destruct (start_each_socket (sinks o1) o1) as (ann & Hann & Hosc).
    destruct (start_each (sinks o1) o1) as [res o2]. simpl in Hann.
    exists ann. split; [|exact Hosc].
    destruct res; simpl; rewrite Hann, Hsock; reflexivity.
Qed.

Lemma announce_ok_startSent {rt : Runtime} (rate : option Z) (o o1 : AooSource) :
  announce rate o = (Ok tt, o1) -> _startSent o1 = true.
Proof.
  unfold announce. destruct (_startSent o) eqn:Hs; simpl.
  - intros H. inversion H. subst. exact Hs.
  - unfold mbind at 1.
    destruct (match rate with
              | Some r =>
                  if negb (r =? 0) && negb (r =? sampleRate o)
                  then _setSampleRate r else ret tt
              | None => ret tt
              end o) as [[[]|e] o0]; [|discriminate].
    unfold _sendStartToAllSinks, mbind, modify.
    destruct (start_each (sinks o0) o0) as [[[]|e] o2]; [|discriminate].
    intros H. inversion H. reflexivity.
Qed.

Lemma announce_sent {rt : Runtime} (rate : option Z) (o : AooSource) :
  _startSent o = true -> announce rate o = (Ok tt, o).
Proof. intros H. unfold announce. now rewrite H. Qed.

(** One call of [sendAudio] that gets past the announcement and sends blocks
    that can be framed. *)
Lemma sendAudio_call_spec {rt : Runtime} (fuel : nat) (left right : list jsval)
    (rate : option Z) (o o1 : AooSource) :
  let spb := blockSize o * channels o in
  isStreaming o = true -> 1 <= spb -> can_frame o spb ->
  announce rate o = (Ok tt, o1) ->
  Forall numeric (sampleBuffer o ++ interleave left right) ->
  (length (sampleBuffer o) + 2 * length left <= fuel)%nat ->
  exists o' blocks new,
    sendAudio fuel left right rate o = Some (Ok tt, o')
    /\ drained o (sequence o) blocks new
    /\ socket o' = socket o1 ++ new
    /\ sequence o' = Nat.iter (length blocks) next_sequence (sequence o)
    /\ sampleBuffer o ++ interleave left right = concat blocks ++ sampleBuffer o'
    /\ Forall (fun b => len b = spb) blocks
    /\ len (sampleBuffer o') < spb
    /\ drain_frame o' o1.
Proof.
  intros spb Hs Hspb Hcan Ha Hnum Hfuel.
  destruct (sendAudio_past_announcement fuel left right rate o o1 Hs Ha)
    as (Hrun & Hbuf).
  fold spb in Hrun.
  pose proof (announce_same_stream rate o) as Hsame. rewrite Ha in Hsame.
  destruct Hsame as (Hc & Hb & Hsrc & Hsinks & Hseq & Hsid & _ & _ & Hsb).
  simpl in Hc, Hb, Hsrc, Hsinks, Hseq, Hsid, Hsb.
  set (o2 := push_samples left right o1) in *.
  assert (Hcan2 : can_frame o2 spb).
  { destruct Hcan as (Hx & Hy & Hz). unfold can_frame, o2, push_samples.
    cbn [streamId sequence set_sampleBuffer]. rewrite Hsid, Hseq. auto. }
  destruct (drain_ok spb fuel o2 Hspb Hcan2) as [o' Hd].
  { rewrite Hbuf. exact Hnum. }
  { rewrite Hbuf, length_app. pose proof (interleave_length left right) as Hl.
    unfold len in Hl. lia. }
  exists o'. destruct (drain_spec spb fuel o2 (Ok tt) o' Hd)
    as (blocks & new & Hdr & Hsock & Hseq' & Hframe & Hok).
  destruct (Hok eq_refl) as (Hcat & Hall & Hlt).
  exists blocks, new. rewrite Hrun.
  split; [exact Hd|]. split.
  { assert (Hq : sequence o2 = sequence o) by (unfold o2, push_samples; exact Hseq).
    rewrite <- Hq. eapply drained_ext; [| | |exact Hdr].
    - exact Hsrc.
    - exact Hsid.
    - exact Hsinks. }
  split; [exact Hsock|]. split.
  { rewrite Hseq'. unfold o2, push_samples. cbn [sequence set_sampleBuffer].
    now rewrite Hseq. }
  split; [now rewrite <- Hbuf|]. split; [exact Hall|]. split; [exact Hlt|].
  unfold drain_frame in *. rewrite Hframe at 1. reflexivity.
Qed.

Lemma drained_app {rt : Runtime} (o : AooSource) (sq : Z)
    (b1 : list (list jsval)) (n1 : list Datagram) :
  drained o sq b1 n1 ->
  forall b2 n2,
    drained o (Nat.iter (length b1) next_sequence sq) b2 n2 ->
    drained o sq (b1 ++ b2) (n1 ++ n2).
Proof.
  induction 1 as [| sq block blocks dgs rest Hfr _ IH]; intros b2 n2 H2.
  - exact H2.
  - cbn [app]. rewrite <- app_assoc. constructor; [exact Hfr|].
    apply IH. cbn [length] in H2. now rewrite Nat.iter_succ_r in H2.
Qed.

Lemma drain_frame_fields (o' o : AooSource) :
  drain_frame o' o ->
  channels o' = channels o /\ blockSize o' = blockSize o
  /\ sourceId o' = sourceId o /\ sinks o' = sinks o
  /\ streamId o' = streamId o /\ isStreaming o' = isStreaming o
  /\ _startSent o' = _startSent o.
Proof.
  unfold drain_frame. intros H.
  repeat split; rewrite H; reflexivity.
Qed.

Lemma calls_spec {rt : Runtime} (fuel : nat) (spb : Z) :
  forall (calls : list call) (o : AooSource),
    spb = blockSize o * channels o ->
    isStreaming o = true -> 1 <= spb -> can_frame o spb ->
    len (sampleBuffer o) < spb ->
    first_announce_ok calls o ->
    Forall numeric (sampleBuffer o ++ pushed calls) ->
    (Z.to_nat spb + 2 * pairs calls <= fuel)%nat ->
    exists o' blocks ann new,
      sendAudio_calls fuel calls o = Some (Ok tt, o')
      /\ drained o (sequence o) blocks new
      /\ socket o' = socket o ++ ann ++ new
      /\ announced_by calls o ann
      /\ (_startSent o = true -> ann = [])
      /\ sampleBuffer o ++ pushed calls = concat blocks ++ sampleBuffer o'
      /\ Forall (fun b => len b = spb) blocks
      /\ len (sampleBuffer o') < spb
      /\ sequence o' = Nat.iter (length blocks) next_sequence (sequence o).
Proof.
  induction calls as [| [[l r] rate] rest IH];
    intros o Hspb Hs Hpos Hcan Hlt Hann Hnum Hfuel.
  - exists o, [], [], []. simpl. rewrite !app_nil_r.
    repeat split; auto; constructor.
  - simpl in Hann. destruct (announce rate o) as [res o1] eqn:Ha.
    simpl in Hann. subst res.
    assert (Hfuel1 : (length (sampleBuffer o) + 2 * length l <= fuel)%nat).
    { unfold pairs in Hfuel. simpl in Hfuel. unfold len in Hlt. lia. }
    assert (Hnum0 : Forall numeric ((sampleBuffer o ++ interleave l r) ++ pushed rest)).
    { rewrite <- app_assoc. exact Hnum. }
    apply Forall_app in Hnum0. destruct Hnum0 as [Hnum1 Hnum2].
    pose proof (sendAudio_call_spec fuel l r rate o o1) as Hcall.
    cbv zeta in Hcall. rewrite <- Hspb in Hcall.
    destruct (Hcall Hs Hpos Hcan Ha Hnum1 Hfuel1)
      as (o2 & b1 & n1 & Hrun & Hd1 & Hsock1 & Hseq1 & Hbuf1 & Hall1 & Hlt1 & Hfr1).
    clear Hcall.
    destruct (drain_frame_fields o2 o1 Hfr1)
      as (Hc2 & Hb2 & Hsrc2 & Hsinks2 & Hsid2 & Hstr2 & Hsent2).
    pose proof (announce_same_stream rate o) as Hsame. rewrite Ha in Hsame.
    destruct Hsame as (Hc & Hb & Hsrc & Hsinks & Hseq & Hsid & Hstr & _ & _).
    simpl in Hc, Hb, Hsrc, Hsinks, Hseq, Hsid, Hstr.
    pose proof (announce_ok_startSent rate o o1 Ha) as Hsent1.
    destruct Hcan as (Hx & Hy & Hz).
    assert (Hrange2 : 0 <= sequence o2 < M31).
    { rewrite Hseq1, iter_next_sequence by exact Hy.
      apply Z.mod_pos_bound. unfold M31. lia. }
    destruct (IH o2) as (o' & b2 & ann2 & n2 & Hrun2 & Hd2 & Hsock2 & _ & Hann2
                         & Hbuf2 & Hall2 & Hlt2 & Hseq2).
    + rewrite Hc2, Hb2, Hc, Hb. exact Hspb.
    + now rewrite Hstr2, Hstr.
    + exact Hpos.
    + repeat split; try apply Hrange2; try exact Hz. now rewrite Hsid2, Hsid.
    + exact Hlt1.
    + destruct rest as [| [[l' r'] rate'] rest']; [exact I|].
      simpl. rewrite announce_sent; [reflexivity|]. now rewrite Hsent2.
    + apply Forall_app. split; [|exact Hnum2].
      rewrite Hbuf1 in Hnum1. apply Forall_app in Hnum1. apply Hnum1.
    + unfold pairs in *. simpl in Hfuel. lia.
    + rewrite Hann2 in Hsock2 by (now rewrite Hsent2). simpl in Hsock2.
      destruct (announce_socket rate o) as (ann & Hsa & _). rewrite Ha in Hsa.
      simpl in Hsa.
      exists o', (b1 ++ b2), ann, (n1 ++ n2).
      split; [simpl; rewrite Hrun; exact Hrun2|].
      split.
      { apply drained_app; [exact Hd1|]. rewrite <- Hseq1.
        eapply drained_ext; [| | |exact Hd2].
        - now rewrite Hsrc2.
        - now rewrite Hsid2.
        - now rewrite Hsinks2. }
      split; [rewrite Hsock2, Hsock1, Hsa, <- !app_assoc; reflexivity|].
      split; [simpl; rewrite Ha; exact Hsa|].
      split.
      { intros Ht. rewrite (announce_sent rate o Ht) in Ha.
        inversion Ha; subst o1. 
        apply (f_equal (@length Datagram)) in Hsa.
        rewrite length_app in Hsa. destruct ann; [reflexivity|]. simpl in Hsa. lia. }
      split.
      { unfold pushed. cbn [flat_map fst snd]. fold (pushed rest).
        rewrite app_assoc, Hbuf1, <- app_assoc, Hbuf2, concat_app, <- app_assoc.
        reflexivity. }
      split; [apply Forall_app; split; assumption|].
      split; [exact Hlt2|].
      rewrite Hseq2, Hseq1, length_app, Nat.add_comm, Nat.iter_add. reflexivity.
Qed.

Lemma concat_length_uniform {A} (blocks : list (list A)) (size : Z) :
  Forall (fun b => len b = size) blocks ->
  len (concat blocks) = len blocks * size.
Proof.
  induction 1 as [| b l Hb _ IH]; [reflexivity|].
  cbn [concat]. rewrite len_app, len_cons, IH, Hb. lia.
Qed.

Lemma pushed_length (calls : list call) :
  len (pushed calls) = 2 * Z.of_nat (pairs calls).
Proof.
  induction calls as [| [[l r] rate] rest IH]; [reflexivity|].
  unfold pushed, pairs in *. cbn [flat_map map list_sum fold_right fst snd].
  rewrite len_app, IH, interleave_length. unfold len.
  fold (list_sum (map (fun c : call => length (fst (fst c))) rest)). lia.
Qed.

(** C4, as amended.  Take a streaming source with two channels, a positive
    block size, an
    empty sample buffer, and frames that can be encoded (the stream id fits a
    signed 32-bit field and [blockSize * channels * 4 <= 65535]).  Any sequence
    of [sendAudio] calls pushing [k] sample pairs in total, none of the pushed
    samples a BigInt (the first call getting past its /start announcement),
    returns normally, given fuel for
    the block loop; it leaves exactly [(k mod blockSize) * channels] samples
    in the buffer and has sent exactly [floor(k / blockSize)] blocks, each of
    [blockSize * channels] samples, each to every sink with consecutive
    sequence numbers; the blocks followed by the retained samples are the
    pushed samples in order (FIFO). *)
Theorem buffering_exactness {rt : Runtime} (fuel : nat) (calls : list call)
    (o : AooSource) :
  isStreaming o = true ->
  sampleBuffer o = [] ->
  channels o = 2 ->
  1 <= blockSize o ->
  can_frame o (blockSize o * channels o) ->
  first_announce_ok calls o ->
  Forall numeric (pushed calls) ->
  (Z.to_nat (blockSize o * channels o) + 2 * pairs calls <= fuel)%nat ->
  let k := Z.of_nat (pairs calls) in
  exists o' blocks ann new,
    sendAudio_calls fuel calls o = Some (Ok tt, o')
    /\ len (sampleBuffer o') = (k mod blockSize o) * channels o
    /\ len blocks = k / blockSize o
    /\ Forall (fun b => len b = blockSize o * channels o) blocks
    /\ concat blocks ++ sampleBuffer o' = pushed calls
    /\ socket o' = socket o ++ ann ++ new
    /\ announced_by calls o ann
    /\ drained o (sequence o) blocks new.
Proof.
  intros Hs Hempty Hch Hbs Hcan Hann Hnum Hfuel k.
  assert (Hpos : 1 <= blockSize o * channels o) by (rewrite Hch; lia).
  destruct (calls_spec fuel (blockSize o * channels o) calls o eq_refl Hs Hpos
              Hcan) as (o' & blocks & ann & new & Hrun & Hd & Hsock & Hab & _
                        & Hbuf & Hall & Hlt & _); try assumption.
  { rewrite Hempty, len_nil. lia. }
  { rewrite Hempty. exact Hnum. }
  rewrite Hempty in Hbuf. simpl in Hbuf.
  exists o', blocks, ann, new.
  pose proof (f_equal len Hbuf) as Hlen.
  rewrite pushed_length, len_app, (concat_length_uniform _ _ Hall) in Hlen.
  fold k in Hlen. rewrite Hch in *.
  pose proof (len_nonneg (sampleBuffer o')) as Hnn.
  pose proof (len_nonneg blocks) as Hnb.
  set (bs := blockSize o) in *. set (rem := len (sampleBuffer o')) in *.
  set (nb := len blocks) in *.
  assert (Heven : rem = 2 * (k - nb * bs)) by lia.
  assert (Hq : k = bs * nb + (k - nb * bs)) by lia.
  assert (Hr : 0 <= k - nb * bs < bs) by lia.
  pose proof (Z.div_unique_pos k bs nb (k - nb * bs) Hr Hq) as Hdiv.
  pose proof (Z.mod_unique_pos k bs nb (k - nb * bs) Hr Hq) as Hmod.
  repeat split; try assumption.
  - rewrite <- Hmod. lia.
  - now symmetry.
Qed.

(** The amended C4 on the two calls of the specification's scenario: five pairs pushed
    with a block size of four leave two samples and send one block. *)
Lemma buffering_exactness_witness :
  exists o' blocks,
    @sendAudio_calls test_runtime 18
      [([num 1; num 2; num 3; num 4], [num 10; num 20; num 30; num 40], None);
       ([num 5], [num 50], None)] scenario_source = Some (Ok tt, o')
    /\ len (sampleBuffer o') = 2 /\ len blocks = 1
    /\ concat blocks ++ sampleBuffer o'
       = [num 1; num 10; num 2; num 20; num 3; num 30; num 4; num 40; num 5; num 50].
Proof.
  destruct (@buffering_exactness test_runtime 18
              [([num 1; num 2; num 3; num 4], [num 10; num 20; num 30; num 40], None);
               ([num 5], [num 50], None)] scenario_source)
    as (o' & blocks & ann & new & Hrun & Hlen & Hnb & _ & Hcat & _).
  - reflexivity.
  - reflexivity.
  - reflexivity.
  - vm_compute. discriminate.
  - split; [exists (be_bytes32 1234); reflexivity|].
    split; [vm_compute; split; [discriminate | reflexivity]|].
    vm_compute. discriminate.
  - vm_compute. reflexivity.
  - vm_compute. repeat constructor.
  - vm_compute. repeat constructor.
  - exists o', blocks. split; [exact Hrun|]. split; [exact Hlen|].
    split; [exact Hnb | exact Hcat].
Defined.

(** C4, the claim as stated fails when a frame cannot be encoded.  With
    blocks of 8192 stereo pairs the payload is 65536 bytes: after 8193 pairs
    the block has left the buffer but the call raises and no frame is sent
    (the only datagram is the /start).  Once an /invite has replaced the
    stream id by the float 1e10, five pairs with a block size of four leave
    two samples but send no frame.  And when one of the samples is a BigInt,
    five pairs with a block size of four leave two samples, the call raises
    a TypeError and no frame is sent. *)
Lemma buffering_frames_not_sent :
  match @sendAudio test_runtime 1 (repeat (num 0) (Z.to_nat 8193))
          (repeat (num 0) (Z.to_nat 8193)) None large_block_source with
  | Some (r, o') =>
      r = Throw ERR_OUT_OF_RANGE_value
      /\ len (sampleBuffer o') = 2
      /\ length (socket o') = 1%nat
      /\ Forall not_frame (socket o')
  | None => False
  end
  /\ match @sendAudio test_runtime 9
            [num 1; num 2; num 3; num 4; num 5]
            [num 10; num 20; num 30; num 40; num 50] None float_token_source with
     | Some (r, o') =>
         r = Throw ERR_OUT_OF_RANGE_value
         /\ sampleBuffer o' = [num 5; num 50]
         /\ socket o' = socket float_token_source
     | None => False
     end
  /\ match @sendAudio test_runtime 9
            [num 1; JBigInt 2; num 3; num 4; num 5]
            [num 10; num 20; num 30; num 40; num 50] None scenario_source with
     | Some (r, o') =>
         r = Throw TypeError
         /\ sampleBuffer o' = [num 5; num 50]
         /\ frames_sent (socket o') = []
     | None => False
     end.
Proof.
  split; [|split].
  - vm_compute. repeat split; try reflexivity. repeat constructor.
  - vm_compute. repeat split; reflexivity.
  - vm_compute. repeat split; reflexivity.
Qed.

(** ** Big-endian fields read back *)

Lemma uint32_bytes (z : Z) :
  0 <= z < 2 ^ 32 ->
  (z / 2 ^ 24) mod 256 * 2 ^ 24 + (z / 2 ^ 16) mod 256 * 2 ^ 16
  + (z / 2 ^ 8) mod 256 * 2 ^ 8 + z mod 256 = z.
Proof.
  intros H.
  change (2 ^ 24) with (256 * 65536). change (2 ^ 16) with (256 * 256).
  change (2 ^ 8) with 256. change (2 ^ 32) with 4294967296 in H.
  rewrite <- !Z.div_div by lia.
  pose proof (Z.div_mod z 256 ltac:(lia)).
  pose proof (Z.mod_pos_bound z 256 ltac:(lia)).
  set (q1 := z / 256) in *.
  pose proof (Z.div_mod q1 256 ltac:(lia)).
  pose proof (Z.mod_pos_bound q1 256 ltac:(lia)).
  set (q2 := q1 / 256) in *.
  assert (E : q1 / 65536 = q2 / 256).
  { unfold q2. rewrite Z.div_div by lia. reflexivity. }
  rewrite E.
  pose proof (Z.div_mod q2 256 ltac:(lia)).
  pose proof (Z.mod_pos_bound q2 256 ltac:(lia)).
  set (q3 := q2 / 256) in *.
  assert (0 <= q3 < 256) by lia.
  rewrite (Z.mod_small q3 256) by lia. lia.
Qed.

Lemma be_bytes32_wrap (z : Z) : be_bytes32 (z + 2 ^ 32) = be_bytes32 z.
Proof.
  unfold be_bytes32.
  assert (H : forall k j, 2 ^ 32 = j * 2 ^ k -> j mod 256 = 0 ->
                ((z + 2 ^ 32) / 2 ^ k) mod 256 = (z / 2 ^ k) mod 256).
  { intros k j Hj Hm.
    assert (Hnz : 2 ^ k <> 0).
    { intros Hz. rewrite Hz, Z.mul_0_r in Hj. discriminate. }
    rewrite Hj, Z.div_add by exact Hnz.
    rewrite Z.add_mod, Hm, Z.add_0_r, Z.mod_mod by lia. reflexivity. }
  rewrite (H 24 256), (H 16 65536), (H 8 16777216) by reflexivity.
  f_equal. f_equal. f_equal. f_equal.
  change (2 ^ 32) with (16777216 * 256). apply Z_mod_plus_full.
Qed.

Lemma uint32_at_app (pre rest : Buffer) (b0 b1 b2 b3 : Z) :
  uint32_at (pre ++ b0 :: b1 :: b2 :: b3 :: rest) (len pre)
  = b0 * 2 ^ 24 + b1 * 2 ^ 16 + b2 * 2 ^ 8 + b3.
Proof.
  unfold uint32_at, byte_at, len.
  replace (Z.to_nat (Z.of_nat (length pre))) with (length pre + 0)%nat by lia.
  replace (Z.to_nat (Z.of_nat (length pre) + 1)) with (length pre + 1)%nat by lia.
  replace (Z.to_nat (Z.of_nat (length pre) + 2)) with (length pre + 2)%nat by lia.
  replace (Z.to_nat (Z.of_nat (length pre) + 3)) with (length pre + 3)%nat by lia.
  rewrite !app_nth2_plus. reflexivity.
Qed.

Lemma combine32_be (z : Z) : 0 <= z < 2 ^ 32 -> combine32 (be_bytes32 z) = z.
Proof. intros H. unfold combine32, be_bytes32. now apply uint32_bytes. Qed.

(** The signed value read back from the bytes written for [z]. *)
Lemma int32_roundtrip (z : Z) :
  -2147483648 <= z <= 2147483647 ->
  (let u := combine32 (be_bytes32 z) in
   if u <? 2 ^ 31 then u else u - 2 ^ 32) = z.
Proof.
  intros H. cbv zeta. destruct (Z_lt_le_dec z 0) as [Hneg | Hpos].
  - rewrite <- be_bytes32_wrap.
    rewrite combine32_be by (change (2 ^ 32) with 4294967296; lia).
    destruct (z + 2 ^ 32 <? 2 ^ 31) eqn:E.
    + apply Z.ltb_lt in E. change (2 ^ 32) with 4294967296 in E.
      change (2 ^ 31) with 2147483648 in E. lia.
    + lia.
  - rewrite combine32_be by (change (2 ^ 32) with 4294967296; lia).
    destruct (z <? 2 ^ 31) eqn:E; [reflexivity|].
    apply Z.ltb_ge in E. change (2 ^ 31) with 2147483648 in E. lia.
Qed.

(** ** Sequence numbers on the wire *)

Lemma frame_for_bytes {rt : Runtime} (o : AooSource) (sq : Z)
    (samples : list jsval) (s : Sink) (d : Datagram) :
  frame_for o sq samples s d ->
  exists bytes,
    audioBytes samples = Ok bytes
    /\ _buildDataMessage (set_sequence sq o) s bytes = Ok (dg_msg d).
Proof.
  intros (Hb & _). destruct (audioBytes samples) as [bytes|e]; [|discriminate].
  exists bytes. split; [reflexivity | exact Hb].
Qed.

Lemma frame_for_sequence {rt : Runtime} (o : AooSource) (sq : Z)
    (samples : list jsval) (s : Sink) (d : Datagram) :
  0 <= sq < M31 -> frame_for o sq samples s d -> frame_sequence d = sq.
Proof.
  intros Hsq Hf. destruct (frame_for_bytes o sq samples s d Hf) as (bytes & _ & Hb).
  apply buildDataMessage_shape in Hb.
  destruct Hb as (s0 & s1 & s2 & s3 & q0 & q1 & q2 & q3 & _ & Hq & _ & Hm).
  cbn [sequence set_sequence] in Hq.
  rewrite writeInt32BE_Z_ok in Hq by (unfold M31 in Hsq; lia).
  unfold frame_sequence. rewrite Hm.
  change ([129; 0; Z.land (sinkId s) 255; Z.land (sourceId (set_sequence sq o)) 255;
           s0; s1; s2; s3; q0; q1; q2; q3; 0; 0]
          ++ be_bytes16 (len bytes) ++ bytes)
    with ([129; 0; Z.land (sinkId s) 255; Z.land (sourceId (set_sequence sq o)) 255;
           s0; s1; s2; s3]
          ++ q0 :: q1 :: q2 :: q3
               :: ([0; 0] ++ be_bytes16 (len bytes) ++ bytes)).
  change 8 with (len [129; 0; Z.land (sinkId s) 255;
                      Z.land (sourceId (set_sequence sq o)) 255; s0; s1; s2; s3]).
  rewrite uint32_at_app.
  change (q0 * 2 ^ 24 + q1 * 2 ^ 16 + q2 * 2 ^ 8 + q3)
    with (combine32 [q0; q1; q2; q3]).
  assert (Hbytes : be_bytes32 sq = [q0; q1; q2; q3]) by congruence.
  rewrite <- Hbytes. apply combine32_be. unfold M31 in Hsq. change (2 ^ 32) with 4294967296. lia.
Qed.

Lemma flat_map_after_map {A B C} (f : B -> list C) (g : A -> B) (l : list A) :
  flat_map f (map g l) = flat_map (fun x => f (g x)) l.
Proof.
  induction l as [| a l IH]; [reflexivity|]. simpl. now rewrite IH.
Qed.

Lemma drained_sequences {rt : Runtime} (o : AooSource) (sq : Z)
    (blocks : list (list jsval)) (frames : list Datagram) :
  drained o sq blocks frames ->
  0 <= sq < M31 ->
  map frame_sequence frames
  = flat_map (fun i => repeat (Nat.iter i next_sequence sq) (length (sinks o)))
      (seq 0 (length blocks)).
Proof.
  induction 1 as [| sq block blocks dgs rest Hfr _ IH]; intros Hsq.
  - reflexivity.
  - cbn [length seq flat_map]. rewrite map_app. f_equal.
    + cbn [Nat.iter]. rewrite <- (length_map snd (sinks o)).
      induction Hfr as [| s d ss ds Hsd _ IHf]; [reflexivity|].
      cbn [map length repeat]. f_equal; [|exact IHf].
      eapply frame_for_sequence; eauto.
    + rewrite IH by (now apply next_sequence_range).
      rewrite <- seq_shift, flat_map_after_map.
      apply flat_map_ext. intros i. now rewrite Nat.iter_succ_r.
Qed.

Lemma frame_for_binary {rt : Runtime} (o : AooSource) (sq : Z)
    (samples : list jsval) (s : Sink) (d : Datagram) :
  frame_for o sq samples s d -> is_frame d.
Proof.
  intros Hf. destruct (frame_for_bytes o sq samples s d Hf) as (bytes & _ & Hb).
  apply buildDataMessage_shape in Hb.
  destruct Hb as (s0 & s1 & s2 & s3 & q0 & q1 & q2 & q3 & _ & _ & _ & Hm).
  unfold is_frame, is_binary. rewrite Hm.
  set (tl := be_bytes16 (len bytes) ++ bytes).
  assert (Hlen : 4 <= len ([129; 0; Z.land (sinkId s) 255;
                            Z.land (sourceId (set_sequence sq o)) 255;
                            s0; s1; s2; s3; q0; q1; q2; q3; 0; 0] ++ tl)).
  { rewrite len_app. pose proof (len_nonneg tl).
    unfold len at 1. simpl length. lia. }
  apply Z.leb_le in Hlen. rewrite Hlen. reflexivity.
Qed.

Lemma drained_binary {rt : Runtime} (o : AooSource) (sq : Z)
    (blocks : list (list jsval)) (frames : list Datagram) :
  drained o sq blocks frames -> Forall is_frame frames.
Proof.
  induction 1 as [| sq block blocks dgs rest Hfr _ IH]; [constructor|].
  apply Forall_app. split; [|exact IH].
  induction Hfr as [| s d ss ds Hsd _ IHf]; constructor; [|exact IHf].
  eapply frame_for_binary. exact Hsd.
Qed.

(** What one call of [sendAudio] sends, whether it returns or raises: the
    /start announcements if they are due, then the frames of the blocks that
    were sent. *)
Lemma sendAudio_spec {rt : Runtime} (fuel : nat) (left right : list jsval)
    (rate : option Z) (o : AooSource) (res : result unit) (o' : AooSource) :
  sendAudio fuel left right rate o = Some (res, o') ->
  exists ann blocks frames,
    socket o' = socket o ++ ann ++ frames
    /\ Forall not_frame ann
    /\ (isStreaming o = false \/ _startSent o = true -> ann = [])
    /\ drained o (sequence o) blocks frames
    /\ sequence o' = Nat.iter (length blocks) next_sequence (sequence o)
    /\ sourceId o' = sourceId o /\ streamId o' = streamId o
    /\ sinks o' = sinks o /\ isStreaming o' = isStreaming o
    /\ (res = Ok tt -> isStreaming o = true -> _startSent o' = true).
Proof.
  unfold sendAudio. destruct (isStreaming o) eqn:Hstr; simpl.
  - pose proof (announce_same_stream rate o) as Hsame.
    destruct (announce_socket rate o) as (ann & Hann & Hosc).
    assert (Hnil : isStreaming o = false \/ _startSent o = true -> ann = []).
    { intros [Hf | Ht]; [congruence|].
      rewrite (announce_sent rate o Ht) in Hann. simpl in Hann.
      apply (f_equal (@length Datagram)) in Hann. rewrite length_app in Hann.
      destruct ann; [reflexivity | simpl in Hann; lia]. }
    destruct (announce rate o) as [[[]|e] o1] eqn:Ha; simpl in Hsame, Hann.
    + intros H. apply drain_spec in H.
      destruct H as (blocks & new & Hd & Hsock & Hseq & Hframe & _).
      destruct Hsame as (_ & _ & Hsrc & Hsinks & Hsq & Hsid & Hst & _).
      destruct (drain_frame_fields _ _ Hframe)
        as (_ & _ & Hsrc2 & Hsinks2 & Hsid2 & Hst2 & Hsent2).
      exists ann, blocks, new.
      split; [|split; [|split; [|split; [|split]]]].
      * rewrite Hsock. unfold push_samples. cbn [socket set_sampleBuffer].
        now rewrite Hann, <- app_assoc.
      * exact Hosc.
      * rewrite Hstr in Hnil. exact Hnil.
      * assert (Hq : sequence (push_samples left right o1) = sequence o)
          by exact Hsq.
        rewrite <- Hq. eapply drained_ext; [| | |exact Hd].
        -- exact Hsrc.
        -- exact Hsid.
        -- exact Hsinks.
      * rewrite Hseq. unfold push_samples. cbn [sequence set_sampleBuffer].
        now rewrite Hsq.
      * split; [rewrite Hsrc2; exact Hsrc|].
        split; [rewrite Hsid2; exact Hsid|].
        split; [rewrite Hsinks2; exact Hsinks|].
        split; [rewrite Hst2; unfold push_samples;
                cbn [isStreaming set_sampleBuffer]; congruence|].
        intros _ _. rewrite Hsent2. unfold push_samples.
        cbn [_startSent set_sampleBuffer].
        eapply announce_ok_startSent. exact Ha.
    + intros H. inversion H; subst res o'.
      destruct Hsame as (_ & _ & Hsrc & Hsinks & Hsq & Hsid & Hst & _).
      exists ann, [], []. rewrite app_nil_r.
      split; [exact Hann|]. split; [exact Hosc|].
      split; [rewrite Hstr in Hnil; exact Hnil|].
      split; [constructor|]. split; [exact Hsq|].
      split; [exact Hsrc|]. split; [exact Hsid|]. split; [exact Hsinks|].
      split; [congruence|]. intros Hr. discriminate.
  - intros H. inversion H; subst res o'. exists [], [], []. simpl.
    rewrite app_nil_r.
    split; [reflexivity|]. split; [constructor|]. split; [reflexivity|].
    split; [constructor|].
    repeat (split; [first [reflexivity | assumption]|]).
    intros _ Ht. discriminate.
Qed.

(** A run of [sendAudio] calls sends the announcements of its first call,
    then frames under consecutive sequence numbers. *)
Lemma sendAudio_calls_spec {rt : Runtime} (fuel : nat) :
  forall (calls : list call) (o : AooSource) (res : result unit)
         (o' : AooSource),
    sendAudio_calls fuel calls o = Some (res, o') ->
    exists ann blocks frames,
      socket o' = socket o ++ ann ++ frames
      /\ Forall not_frame ann
      /\ (isStreaming o = false \/ _startSent o = true -> ann = [])
      /\ drained o (sequence o) blocks frames
      /\ sequence o' = Nat.iter (length blocks) next_sequence (sequence o).
Proof.
  induction calls as [| [[l r] rate] rest IH]; intros o res o' H; simpl in H.
  - inversion H; subst res o'. exists [], [], []. simpl. rewrite app_nil_r.
    repeat split; auto; constructor.
  - destruct (sendAudio fuel l r rate o) as [[[[]|e] o1]|] eqn:Hcall;
      [| |discriminate].
    + apply sendAudio_spec in Hcall.
      destruct Hcall as (ann & b1 & f1 & Hsock1 & Hosc & Hnil & Hd1 & Hseq1
                         & Hsrc & Hsid & Hsinks & Hstr & Hsent).
      apply IH in H.
      destruct H as (ann2 & b2 & f2 & Hsock2 & _ & Hnil2 & Hd2 & Hseq2).
      assert (Hann2 : ann2 = []).
      { apply Hnil2. rewrite Hstr.
        destruct (isStreaming o) eqn:E; [right; now apply Hsent | now left]. }
      subst ann2. simpl in Hsock2.
      exists ann, (b1 ++ b2), (f1 ++ f2).
      split; [rewrite Hsock2, Hsock1, <- !app_assoc; reflexivity|].
      split; [exact Hosc|]. split; [exact Hnil|].
      split.
      { apply drained_app; [exact Hd1|]. rewrite <- Hseq1.
        eapply drained_ext; [| | |exact Hd2]; assumption. }
      rewrite Hseq2, Hseq1, length_app, Nat.add_comm, Nat.iter_add. reflexivity.
    + inversion H; subst res o'. apply sendAudio_spec in Hcall.
      destruct Hcall as (ann & b1 & f1 & Hsock1 & Hosc & Hnil & Hd1 & Hseq1 & _).
      exists ann, b1, f1. repeat split; assumption.
Qed.

Lemma drained_length {rt : Runtime} (o : AooSource) (sq : Z)
    (blocks : list (list jsval)) (frames : list Datagram) :
  drained o sq blocks frames ->
  length frames = (length blocks * length (sinks o))%nat.
Proof.
  induction 1 as [| sq block blocks dgs rest Hfr _ IH]; [reflexivity|].
  rewrite length_app, IH. apply Forall2_length in Hfr.
  rewrite length_map in Hfr. cbn [length]. lia.
Qed.

(** One call of [sendAudio], whether it returns or raises, with the blocks it
    took from the buffer: they are the leading blocks of the buffered samples
    followed by the interleaved arguments, each of one block length. *)
Lemma sendAudio_full {rt : Runtime} (fuel : nat) (left right : list jsval)
    (rate : option Z) (o : AooSource) (res : result unit) (o' : AooSource) :
  sendAudio fuel left right rate o = Some (res, o') ->
  exists ann blocks frames rest,
    socket o' = socket o ++ ann ++ frames
    /\ Forall not_frame ann
    /\ (isStreaming o = false \/ _startSent o = true -> ann = [])
    /\ drained o (sequence o) blocks frames
    /\ sequence o' = Nat.iter (length blocks) next_sequence (sequence o)
    /\ (sourceId o' = sourceId o /\ streamId o' = streamId o
        /\ sinks o' = sinks o /\ isStreaming o' = isStreaming o
        /\ blockSize o' = blockSize o /\ channels o' = channels o)
    /\ (res = Ok tt -> isStreaming o = true -> _startSent o' = true)
    /\ Forall (fun b => len b = Z.max 0 (blockSize o * channels o)) blocks
    /\ sampleBuffer o ++ interleave left right = concat blocks ++ rest
    /\ (isStreaming o = false -> blocks = [] /\ o' = o)
    /\ (isStreaming o = true -> res = Ok tt ->
        rest = sampleBuffer o'
        /\ len (sampleBuffer o') < blockSize o * channels o)
    /\ (isStreaming o = true ->
        (exists e,
            fst (announce rate o) = Throw e /\ res = Throw e
            /\ blocks = [] /\ sampleBuffer o' = sampleBuffer o)
        \/ (fst (announce rate o) = Ok tt
            /\ exists lost,
                 rest = lost ++ sampleBuffer o'
                 /\ len lost = match res with
                               | Ok _ => 0
                               | Throw _ => Z.max 0 (blockSize o * channels o)
                               end)).
Proof.
  intros H. destruct (isStreaming o) eqn:Hstr.
  - pose proof (announce_same_stream rate o) as Hsame.
    destruct (announce_socket rate o) as (ann & Hann & Hosc).
    assert (Hnil : true = false \/ _startSent o = true -> ann = []).
    { intros [Hf | Ht]; [discriminate|].
      rewrite (announce_sent rate o Ht) in Hann. simpl in Hann.
      apply (f_equal (@length Datagram)) in Hann. rewrite length_app in Hann.
      destruct ann; [reflexivity | simpl in Hann; lia]. }
    destruct (announce rate o) as [[[]|e] o1] eqn:Ha; cbn [snd] in Hsame, Hann;
      destruct Hsame as (Hc & Hb & Hsrc & Hsinks & Hsq & Hsid & Hst & _ & Hsb).
    + destruct (sendAudio_past_announcement fuel left right rate o o1 Hstr Ha)
        as [Hrun Hbuf0].
      rewrite Hrun in H. apply drain_full in H.
      destruct H as (blocks & new & lost & Hd & Hsock & Hseq & Hframe & Hbuf
                     & Hall & Hok & Hno).
      destruct (drain_frame_fields _ _ Hframe)
        as (Hc2 & Hb2 & Hsrc2 & Hsinks2 & Hsid2 & Hst2 & Hsent2).
      unfold push_samples in Hc2, Hb2, Hsrc2, Hsinks2, Hsid2, Hst2, Hsent2, Hsock,
                             Hseq.
      cbn [channels blockSize sourceId sinks streamId isStreaming _startSent
           socket sequence set_sampleBuffer] in *.
      exists ann, blocks, new, (lost ++ sampleBuffer o').
      split; [now rewrite Hsock, Hann, <- app_assoc|].
      split; [exact Hosc|]. split; [exact Hnil|].
      split.
      { assert (Hq : sequence (push_samples left right o1) = sequence o)
          by exact Hsq.
        rewrite <- Hq. eapply drained_ext; [| | |exact Hd].
        - exact Hsrc.
        - exact Hsid.
        - exact Hsinks. }
      split; [now rewrite Hseq, Hsq|].
      split; [repeat split; congruence|].
      split.
      { intros _ _. rewrite Hsent2. eapply announce_ok_startSent. exact Ha. }
      split; [exact Hall|].
      split; [now rewrite <- Hbuf0|].
      split; [discriminate|].
      split; [intros _ Hr; destruct (Hok Hr) as [-> Hlt]; now split|].
      intros _. right. split; [reflexivity|]. exists lost.
      split; [reflexivity|].
      destruct res as [[]|e]; [now destruct (Hok eq_refl) as [-> _]|].
      apply Hno. discriminate.
    + unfold sendAudio in H. rewrite Hstr, Ha in H. cbn [negb] in H.
      inversion H; subst res o'.
      exists ann, [], [], (sampleBuffer o ++ interleave left right).
      rewrite app_nil_r.
      split; [exact Hann|]. split; [exact Hosc|]. split; [exact Hnil|].
      split; [constructor|]. split; [exact Hsq|].
      split; [repeat split; congruence|].
      split; [discriminate|]. split; [constructor|].
      split; [reflexivity|]. split; [discriminate|]. split; [discriminate|].
      intros _. left. exists e. repeat split. exact Hsb.
  - unfold sendAudio in H. rewrite Hstr in H. cbn [negb] in H.
    inversion H; subst res o'.
    exists [], [], [], (sampleBuffer o ++ interleave left right).
    rewrite app_nil_r.
    split; [reflexivity|]. split; [constructor|]. split; [reflexivity|].
    split; [constructor|]. split; [reflexivity|].
    split; [repeat split; assumption|].
    split; [discriminate|]. split; [constructor|].
    split; [reflexivity|]. split; [now split|]. split; discriminate.
Qed.

Lemma sendAudio_calls_idle {rt : Runtime} (fuel : nat) (calls : list call)
    (o : AooSource) :
  isStreaming o = false -> sendAudio_calls fuel calls o = Some (Ok tt, o).
Proof.
  intros Hs. induction calls as [| [[l r] rate] rest IH]; [reflexivity|].
  cbn [sendAudio_calls]. unfold sendAudio. rewrite Hs. cbn [negb]. exact IH.
Qed.

(** A run that stops at an error: the calls before the failing one returned
    normally, and the failing call is the last one made. *)
Lemma sendAudio_calls_stops {rt : Runtime} (fuel : nat) :
  forall (calls : list call) (o : AooSource) (e : exn) (o' : AooSource),
    sendAudio_calls fuel calls o = Some (Throw e, o') ->
    exists done l r rate later o_k,
      calls = done ++ (l, r, rate) :: later
      /\ sendAudio_calls fuel done o = Some (Ok tt, o_k)
      /\ sendAudio fuel l r rate o_k = Some (Throw e, o').
Proof.
  induction calls as [| [[l r] rate] rest IH]; intros o e o' H;
    cbn [sendAudio_calls] in H; [discriminate|].
  destruct (sendAudio fuel l r rate o) as [[[[]|e1] o1]|] eqn:Hcall;
    [| |discriminate].
  - destruct (IH o1 e o' H) as (done & l' & r' & rate' & later & o_k & -> & Hd & Hf).
    exists ((l, r, rate) :: done), l', r', rate', later, o_k.
    split; [reflexivity|]. split; [|exact Hf].
    cbn [app sendAudio_calls]. rewrite Hcall. exact Hd.
  - inversion H; subst e1 o1.
    exists [], l, r, rate, rest, o. repeat split. exact Hcall.
Qed.

(** A run of [sendAudio] calls on a streaming source, whether it returns or
    stops at an error: the blocks it sent are the leading blocks of the
    buffered samples followed by everything the calls were given. *)
Lemma sendAudio_calls_full {rt : Runtime} (fuel : nat) :
  forall (calls : list call) (o : AooSource) (res : result unit)
         (o' : AooSource),
    isStreaming o = true ->
    sendAudio_calls fuel calls o = Some (res, o') ->
    exists ann blocks frames rest,
      socket o' = socket o ++ ann ++ frames
      /\ Forall not_frame ann
      /\ (_startSent o = true -> ann = [])
      /\ drained o (sequence o) blocks frames
      /\ sequence o' = Nat.iter (length blocks) next_sequence (sequence o)
      /\ Forall (fun b => len b = Z.max 0 (blockSize o * channels o)) blocks
      /\ sampleBuffer o ++ pushed calls = concat blocks ++ rest
      /\ (res = Ok tt -> rest = sampleBuffer o')
      /\ (res = Ok tt -> calls <> [] ->
          len (sampleBuffer o') < blockSize o * channels o).
Proof.
  induction calls as [| [[l r] rate] rest IH]; intros o res o' Hs H;
    cbn [sendAudio_calls] in H.
  - inversion H; subst res o'. exists [], [], [], (sampleBuffer o).
    cbn [app concat pushed flat_map]. rewrite !app_nil_r.
    split; [reflexivity|]. split; [constructor|]. split; [reflexivity|].
    split; [constructor|]. split; [reflexivity|]. split; [constructor|].
    split; [reflexivity|]. split; [reflexivity|]. intros _ Hne. now contradiction Hne.
  - destruct (sendAudio fuel l r rate o) as [[[[]|e] o1]|] eqn:Hcall;
      [| |discriminate].
    + apply sendAudio_full in Hcall.
      destruct Hcall as (ann & b1 & f1 & rest1 & Hsock1 & Hosc & Hnil & Hd1 & Hseq1
                         & (Hsrc & Hsid & Hsinks & Hstr & Hbs & Hch) & Hsent
                         & Hall1 & Hbuf1 & _ & Hok1 & _).
      destruct (Hok1 Hs eq_refl) as [-> Hlt1].
      assert (Hs1 : isStreaming o1 = true) by congruence.
      destruct (IH o1 res o' Hs1 H)
        as (ann2 & b2 & f2 & rest2 & Hsock2 & _ & Hnil2 & Hd2 & Hseq2 & Hall2
            & Hbuf2 & Hok2 & Hlt2).
      rewrite (Hnil2 (Hsent eq_refl Hs)) in Hsock2. cbn [app] in Hsock2.
      exists ann, (b1 ++ b2), (f1 ++ f2), rest2.
      split; [rewrite Hsock2, Hsock1, <- !app_assoc; reflexivity|].
      split; [exact Hosc|].
      split; [intros Ht; apply Hnil; now right|].
      split.
      { apply drained_app; [exact Hd1|]. rewrite <- Hseq1.
        eapply drained_ext; [| | |exact Hd2]; assumption. }
      split.
      { rewrite Hseq2, Hseq1, length_app, Nat.add_comm, Nat.iter_add.
        reflexivity. }
      split.
      { apply Forall_app. split; [exact Hall1|]. now rewrite <- Hbs, <- Hch. }
      split.
      { unfold pushed. cbn [flat_map fst snd]. fold (pushed rest).
        rewrite app_assoc, Hbuf1, <- app_assoc, Hbuf2, concat_app, <- app_assoc.
        reflexivity. }
      split; [exact Hok2|].
      intros Hr _. destruct rest as [| c rest'].
      * cbn [sendAudio_calls] in H. inversion H; subst o'. exact Hlt1.
      * rewrite <- Hbs, <- Hch. apply Hlt2; [exact Hr | discriminate].
    + inversion H; subst res o'. apply sendAudio_full in Hcall.
      destruct Hcall as (ann & b1 & f1 & rest1 & Hsock1 & Hosc & Hnil & Hd1 & Hseq1
                         & _ & _ & Hall1 & Hbuf1 & _).
      exists ann, b1, f1, (rest1 ++ pushed rest).
      split; [exact Hsock1|]. split; [exact Hosc|].
      split; [intros Ht; apply Hnil; now right|].
      split; [exact Hd1|]. split; [exact Hseq1|]. split; [exact Hall1|].
      split.
      { unfold pushed. cbn [flat_map fst snd]. fold (pushed rest).
        now rewrite app_assoc, Hbuf1, <- app_assoc. }
      split; intros Hr; discriminate.
Qed.

Lemma sendStartOSC_fields {rt : Runtime} (h : jsstring) (p id : Z) (o : AooSource) :
  snd (_sendStartOSC h p id o) = set_socket (socket (snd (_sendStartOSC h p id o))) o.
Proof.
  cbv beta iota delta [_sendStartOSC mbind lift socket_send modify].
  destruct (start_message o id); simpl; [reflexivity|].
  now rewrite set_socket_same.
Qed.

Lemma handle_start_sequence {rt : Runtime} (h : jsstring) (p : Z) (msg : Buffer)
    (nullIdx : Z) (o : AooSource) :
  sequence (snd (handle_start h p msg nullIdx o)) = sequence o.
Proof.
  unfold handle_start. unfold mbind at 1. unfold try_catch.
  set (o1 := snd (mbind (lift (_parseOscArgs msg nullIdx))
                    (fun args =>
                       if 2 <=? len args
                       then modify (set_sinkVersion (nth 1 args JUndefined))
                       else ret tt) o)).
  assert (H1 : sequence o1 = sequence o).
  { unfold o1, mbind, lift. destruct (_parseOscArgs msg nullIdx) as [args|e];
      [|reflexivity].
    destruct (2 <=? len args); reflexivity. }
  cbv beta iota. unfold mbind at 1.
  set (o2 := if negb (map_has (sinks o1) (sink_key h p 1))
             then addSink h p 1 o1 else (Ok tt, o1)).
  assert (H2 : fst o2 = Ok tt /\ sequence (snd o2) = sequence o).
  { unfold o2. destruct (negb (map_has (sinks o1) (sink_key h p 1)));
      split; try reflexivity; exact H1. }
  destruct o2 as [r2 o2']. destruct H2 as [Hr Hs]. simpl in Hr, Hs. subst r2.
  rewrite sendStartOSC_fields. exact Hs.
Qed.

Lemma handleMessage_sequence {rt : Runtime} (msg : Buffer) (h : jsstring)
    (p now : Z) (o : AooSource) :
  sequence (snd (_handleMessage msg h p now o))
  = if accepted_invite msg then 0 else sequence o.
Proof.
  unfold _handleMessage, accepted_invite.
  destruct (is_binary msg); [reflexivity|]. simpl negb. cbv iota.
  destruct (0 <? indexOf msg 0 0); [|reflexivity]. simpl andb.
  destruct (includes (toString_ascii msg 0 (indexOf msg 0 0)) (str "/invite")).
  - rewrite handle_invite_effect. simpl snd.
    destruct (_parseOscArgs msg (indexOf msg 0 0)) as [args|e]; [|reflexivity].
    destruct (2 <=? len args); [|reflexivity]. cbv zeta.
    destruct (start_message _ 1); [|reflexivity].
    unfold start. cbn [isStreaming set_socket].
    destruct (isStreaming _); reflexivity.
  - simpl andb.
    destruct (includes (toString_ascii msg 0 (indexOf msg 0 0)) (str "/start"));
      [apply handle_start_sequence|].
    destruct (includes (toString_ascii msg 0 (indexOf msg 0 0)) (str "/ping"));
      [|reflexivity].
    rewrite sendPong_effect. reflexivity.
Qed.

Lemma updateSampleRate_sequence {rt : Runtime} (newRate : Z) (o : AooSource) :
  sequence (snd (updateSampleRate newRate o)) = sequence o.
Proof.
  unfold updateSampleRate, _setSampleRate.
  destruct (negb (_startSent o)).
  - destruct (negb (sampleRate o =? newRate)); reflexivity.
  - destruct (negb (sampleRate o =? newRate)); [|reflexivity].
    cbv beta iota delta [mbind modify]. rewrite start_each_fields. reflexivity.
Qed.

Lemma some_pair_snd {A B} (x : A * B) (a : A) (b : B) :
  Some x = Some (a, b) -> b = snd x.
Proof. intros H. inversion H. reflexivity. Qed.

(** How each operation acts on the sequence counter. *)
Lemma step_sequence {rt : Runtime} (fuel : nat) (c : op) (o : AooSource)
    (res : result unit) (o' : AooSource) :
  0 <= sequence o < M31 ->
  step fuel c o = Some (res, o') ->
  0 <= sequence o' < M31
  /\ match c with
     | OpSendAudio _ _ _ =>
         exists blocks : nat,
           sequence o' = (sequence o + Z.of_nat blocks) mod M31
     | OpStart => sequence o' = if isStreaming o then sequence o else 0
     | OpMessage msg _ _ _ =>
         sequence o' = if accepted_invite msg then 0 else sequence o
     | OpAddSink _ _ _ | OpStop | OpUpdateSampleRate _ =>
         sequence o' = sequence o
     end.
Proof.
  intros Hsq Hstep.
  assert (Hzero : 0 <= 0 < M31) by (unfold M31; lia).
  destruct c as [h p id | | | newRate | l r rate | msg h p now];
    simpl in Hstep.
  - apply some_pair_snd in Hstep. subst o'. split; [exact Hsq | reflexivity].
  - apply some_pair_snd in Hstep. subst o'. unfold start.
    destruct (isStreaming o); simpl; split; auto.
  - apply some_pair_snd in Hstep. subst o'. split; [exact Hsq | reflexivity].
  - apply some_pair_snd in Hstep. subst o'.
    rewrite updateSampleRate_sequence. split; [exact Hsq | reflexivity].
  - apply sendAudio_spec in Hstep.
    destruct Hstep as (ann & blocks & frames & _ & _ & _ & _ & Hseq & _).
    rewrite iter_next_sequence in Hseq by exact Hsq.
    split; [|exists (length blocks); exact Hseq].
    rewrite Hseq. apply Z.mod_pos_bound. unfold M31. lia.
  - apply some_pair_snd in Hstep. subst o'.
    rewrite handleMessage_sequence.
    destruct (accepted_invite msg); split; auto.
Qed.

Lemma updateSampleRate_isStreaming {rt : Runtime} (newRate : Z) (o : AooSource) :
  isStreaming (snd (updateSampleRate newRate o)) = isStreaming o.
Proof.
  unfold updateSampleRate, _setSampleRate.
  destruct (negb (_startSent o)).
  - destruct (negb (sampleRate o =? newRate)); reflexivity.
  - destruct (negb (sampleRate o =? newRate)); [|reflexivity].
    cbv beta iota delta [mbind modify]. rewrite start_each_fields. reflexivity.
Qed.

(** C3, as amended: sequence numbers count blocks, not frames.  A streaming
    session is a run of [sendAudio] calls on an object whose counter is in
    [0, 0x7FFFFFFF).  Whether the run returns or stops at an error, what it
    has sent is the /start announcements of its first call followed by the
    frames of N blocks, one frame per registered sink and block; every sink
    receives block number i under the sequence number
    (counter + i) mod 0x7FFFFFFF, so each of 0, 1, ..., N-1 after a reset is
    carried by as many frames as there are sinks, wrapping to 0 on reaching
    0x7FFFFFFF; and the counter ends at (counter + N) mod 0x7FFFFFFF, also
    when no sink is registered and no frame is sent.  The N blocks are the
    leading blocks, of [blockSize * channels] samples each, of the buffered
    samples followed by the samples given to the calls; when the run returns
    they are all the whole blocks there are.  A run on a source that is not
    streaming sends nothing and changes nothing; a run that stops at an
    error has made its calls up to the failing one, and that call either
    failed in its announcement, before taking any block, or lost the block
    it was sending.  As for every single
    operation: it keeps the counter in range; [stop()] clears the streaming
    flag and leaves the counter alone; [start()] sets the flag, and resets
    the counter to 0 when the source was not streaming (so at a [start()]
    that follows a [stop()]) and leaves it alone otherwise; an inbound
    datagram resets it to 0 when it is an accepted /invite and leaves it
    alone otherwise; [updateSampleRate] and [addSink] leave the counter and
    the flag alone, and [sendAudio] leaves the flag alone and advances the
    counter by the number of blocks it took from the buffer and sent. *)
Theorem sequence_monotonicity {rt : Runtime} (fuel : nat) (calls : list call)
    (o : AooSource) (res : result unit) (o' : AooSource) :
  0 <= sequence o < M31 ->
  sendAudio_calls fuel calls o = Some (res, o') ->
  (exists ann blocks frames rest,
      socket o' = socket o ++ ann ++ frames
      /\ Forall not_frame ann
      /\ Forall is_frame frames
      /\ drained o (sequence o) blocks frames
      /\ length frames = (length blocks * length (sinks o))%nat
      /\ map frame_sequence frames
         = flat_map
             (fun i => repeat ((sequence o + Z.of_nat i) mod M31)
                         (length (sinks o)))
             (seq 0 (length blocks))
      /\ sequence o' = (sequence o + Z.of_nat (length blocks)) mod M31
      /\ Forall (fun b => len b = Z.max 0 (blockSize o * channels o)) blocks
      /\ sampleBuffer o ++ pushed calls = concat blocks ++ rest
      /\ (isStreaming o = false -> blocks = [] /\ o' = o)
      /\ (isStreaming o = true -> res = Ok tt ->
          rest = sampleBuffer o'
          /\ (calls <> [] ->
              len (sampleBuffer o') < blockSize o * channels o)))
  /\ (forall e,
        res = Throw e ->
        exists done l r rate later o_k,
          calls = done ++ (l, r, rate) :: later
          /\ sendAudio_calls fuel done o = Some (Ok tt, o_k)
          /\ step fuel (OpSendAudio l r rate) o_k = Some (Throw e, o'))
  /\ (forall (c : op) (o0 : AooSource) (r0 : result unit) (o1 : AooSource),
        0 <= sequence o0 < M31 ->
        step fuel c o0 = Some (r0, o1) ->
        0 <= sequence o1 < M31
        /\ match c with
           | OpSendAudio l r rate =>
               isStreaming o1 = isStreaming o0
               /\ exists ann blocks frames rest,
                    socket o1 = socket o0 ++ ann ++ frames
                    /\ Forall not_frame ann
                    /\ drained o0 (sequence o0) blocks frames
                    /\ length frames
                       = (length blocks * length (sinks o0))%nat
                    /\ sequence o1
                       = (sequence o0 + Z.of_nat (length blocks)) mod M31
                    /\ Forall (fun b => len b
                                        = Z.max 0 (blockSize o0 * channels o0))
                         blocks
                    /\ sampleBuffer o0 ++ interleave l r = concat blocks ++ rest
                    /\ (isStreaming o0 = false -> blocks = [] /\ o1 = o0)
                    /\ (isStreaming o0 = true -> r0 = Ok tt ->
                        rest = sampleBuffer o1
                        /\ len (sampleBuffer o1) < blockSize o0 * channels o0)
                    /\ (isStreaming o0 = true ->
                        (exists e,
                            fst (announce rate o0) = Throw e /\ r0 = Throw e
                            /\ blocks = []
                            /\ sampleBuffer o1 = sampleBuffer o0)
                        \/ (fst (announce rate o0) = Ok tt
                            /\ exists lost,
                                 rest = lost ++ sampleBuffer o1
                                 /\ len lost
                                    = match r0 with
                                      | Ok _ => 0
                                      | Throw _ =>
                                          Z.max 0 (blockSize o0 * channels o0)
                                      end))
           | OpStart =>
               isStreaming o1 = true
               /\ sequence o1 = if isStreaming o0 then sequence o0 else 0
           | OpStop => isStreaming o1 = false /\ sequence o1 = sequence o0
           | OpMessage msg _ _ _ =>
               sequence o1 = if accepted_invite msg then 0 else sequence o0
           | OpAddSink _ _ _ | OpUpdateSampleRate _ =>
               isStreaming o1 = isStreaming o0 /\ sequence o1 = sequence o0
           end)
  /\ (forall o0 : AooSource,
        isStreaming (snd (stop o0)) = false
        /\ sequence (snd (stop o0)) = sequence o0
        /\ isStreaming (snd (start (snd (stop o0)))) = true
        /\ sequence (snd (start (snd (stop o0)))) = 0).
Proof.
  intros Hsq Hrun. split; [|split; [|split]].
  2:{ intros e ->. now apply sendAudio_calls_stops. }
  - destruct (isStreaming o) eqn:Hs.
    + apply sendAudio_calls_full in Hrun; [|exact Hs].
      destruct Hrun as (ann & blocks & frames & rest & Hsock & Hosc & _ & Hd
                        & Hseq & Hall & Hbuf & Hrest & Hlt).
      exists ann, blocks, frames, rest.
      split; [exact Hsock|]. split; [exact Hosc|].
      split; [eapply drained_binary; exact Hd|]. split; [exact Hd|].
      split; [eapply drained_length; exact Hd|].
      split.
      { rewrite (drained_sequences o (sequence o) blocks frames Hd Hsq).
        apply flat_map_ext. intros i. now rewrite iter_next_sequence. }
      split; [rewrite Hseq; now apply iter_next_sequence|].
      split; [exact Hall|]. split; [exact Hbuf|].
      split; [discriminate|].
      intros _ Hr. split; [now apply Hrest | now apply Hlt].
    + rewrite (sendAudio_calls_idle fuel calls o Hs) in Hrun.
      inversion Hrun; subst res o'.
      exists [], [], [], (sampleBuffer o ++ pushed calls).
      cbn [app concat length seq flat_map map Nat.mul]. rewrite app_nil_r.
      split; [reflexivity|]. split; [constructor|]. split; [constructor|].
      split; [constructor|]. split; [reflexivity|]. split; [reflexivity|].
      split; [rewrite Z.add_0_r, Z.mod_small; [reflexivity | exact Hsq]|].
      split; [constructor|]. split; [reflexivity|].
      split; [now split | discriminate].
  - intros c o0 r0 o1 H0 Hstep.
    split; [exact (proj1 (step_sequence fuel c o0 r0 o1 H0 Hstep))|].
    destruct c as [h p id | | | newRate | l r rate | msg h p now];
      cbn [step] in Hstep.
    + apply some_pair_snd in Hstep. subst o1. split; reflexivity.
    + apply some_pair_snd in Hstep. subst o1. unfold start.
      destruct (isStreaming o0) eqn:E; cbn [snd]; [split; [exact E | reflexivity]|].
      split; reflexivity.
    + apply some_pair_snd in Hstep. subst o1. split; reflexivity.
    + apply some_pair_snd in Hstep. subst o1.
      split; [apply updateSampleRate_isStreaming
             |apply updateSampleRate_sequence].
    + apply sendAudio_full in Hstep.
      destruct Hstep as (ann & blocks & frames & rest & Hsock & Hosc & _ & Hd
                         & Hseq & (_ & _ & _ & Hstr & _ & _) & _ & Hall & Hbuf
                         & Hidle & Hok).
      split; [exact Hstr|].
      exists ann, blocks, frames, rest.
      split; [exact Hsock|]. split; [exact Hosc|]. split; [exact Hd|].
      split; [eapply drained_length; exact Hd|].
      split; [rewrite Hseq; now apply iter_next_sequence|].
      split; [exact Hall|]. split; [exact Hbuf|].
      split; [exact Hidle | exact Hok].
    + apply some_pair_snd in Hstep. subst o1. apply handleMessage_sequence.
  - intros o0. repeat split.
Qed.

(** The amended C3 on the specification's scenario: after [start()] the two
    calls push ten samples, send one block of eight to the one sink under
    sequence number 0, and leave the counter at 1 and two samples in the
    buffer. *)
Lemma sequence_monotonicity_witness :
  exists o' ann frames,
    @sendAudio_calls test_runtime 18
      [([num 1; num 2; num 3; num 4], [num 10; num 20; num 30; num 40], None);
       ([num 5], [num 50], None)] scenario_source = Some (Ok tt, o')
    /\ socket o' = socket scenario_source ++ ann ++ frames
    /\ length frames = 1%nat
    /\ map frame_sequence frames = [0]
    /\ sequence o' = 1
    /\ len (sampleBuffer o') = 2.
Proof.
  destruct (@sendAudio_calls test_runtime 18
              [([num 1; num 2; num 3; num 4], [num 10; num 20; num 30; num 40], None);
               ([num 5], [num 50], None)] scenario_source)
    as [[res o']|] eqn:Hrun; [|vm_compute in Hrun; discriminate].
  assert (Hres : res = Ok tt).
  { assert (E : option_map fst (Some (res, o')) = Some (Ok tt))
      by (rewrite <- Hrun; vm_compute; reflexivity).
    simpl in E. congruence. }
  subst res.
  destruct (@sequence_monotonicity test_runtime 18
              [([num 1; num 2; num 3; num 4], [num 10; num 20; num 30; num 40], None);
               ([num 5], [num 50], None)] scenario_source (Ok tt) o')
    as ((ann & blocks & frames & rest & Hsock & _ & _ & _ & Hlen & Hseqs & Hseq
         & Hall & Hbuf & _ & Hok) & _).
  - vm_compute. split; [discriminate | reflexivity].
  - exact Hrun.
  - destruct (Hok eq_refl eq_refl) as [-> Hlt].
    specialize (Hlt ltac:(discriminate)).
    change (blockSize scenario_source * channels scenario_source) with 8
      in Hlt, Hall.
    change (Z.max 0 8) with 8 in Hall.
    assert (Hn : length blocks = 1%nat /\ len (sampleBuffer o') = 2).
    { pose proof (concat_length_uniform _ _ Hall) as Hc.
      apply (f_equal len) in Hbuf.
      rewrite (len_app (concat blocks) (sampleBuffer o')), Hc in Hbuf.
      change (len (sampleBuffer scenario_source ++ _)) with 10 in Hbuf.
      pose proof (len_nonneg (sampleBuffer o')) as Hnn.
      unfold len in Hbuf at 1. lia. }
    destruct Hn as [Hn Hrem].
    rewrite Hn in Hlen, Hseqs, Hseq.
    exists o', ann, frames.
    split; [reflexivity|]. split; [exact Hsock|].
    split; [exact Hlen|]. split; [exact Hseqs|].
    split; [exact Hseq | exact Hrem].
Defined.

(** C3, the claim as stated fails: the counter advances once per block, not
    once per frame.  With two sinks, sixteen samples in blocks of eight give
    four frames numbered 0, 0, 1, 1 (and not 0, 1, 2, 3); with no sink the
    counter reaches 2 though no frame was sent; and a sink added after the
    first block receives its first frame under number 1. *)
Lemma sequence_counts_blocks_not_frames :
  match @sendAudio test_runtime 4 (repeat (num 0) 8) (repeat (num 0) 8) None
          two_sink_source with
  | Some (r, o') =>
      r = Ok tt
      /\ frames_sent (socket o') = [(9999, 0); (9998, 0); (9999, 1); (9998, 1)]
      /\ sequence o' = 2
  | None => False
  end
  /\ match @sendAudio test_runtime 4 (repeat (num 0) 8) (repeat (num 0) 8) None
            no_sink_source with
     | Some (r, o') => r = Ok tt /\ socket o' = [] /\ sequence o' = 2
     | None => False
     end
  /\ match @sendAudio test_runtime 4 (repeat (num 0) 4) (repeat (num 0) 4) None
            scenario_source with
     | Some (_, o1) =>
         match @sendAudio test_runtime 4 (repeat (num 0) 4) (repeat (num 0) 4)
                 None (snd (@addSink test_runtime (str "127.0.0.1") 9998 2 o1))
         with
         | Some (r, o2) =>
             r = Ok tt
             /\ frames_sent (socket o2) = [(9999, 0); (9999, 1); (9998, 1)]
         | None => False
         end
     | None => False
     end.
Proof.
  split; [|split]; vm_compute; repeat split; reflexivity.
Qed.

(** ** OSC round trip *)

Lemma ceil4_add (a b : Z) : a mod 4 = 0 -> ceil4 (a + b) = a + ceil4 b.
Proof.
  intros H. unfold ceil4.
  pose proof (Z.div_mod a 4 ltac:(lia)) as Ha. rewrite H in Ha.
  replace (a + b + 3) with (b + 3 + (a / 4) * 4) by lia.
  rewrite Z.div_add by lia. lia.
Qed.

Lemma ceil4_fix (a : Z) : a mod 4 = 0 -> ceil4 a = a.
Proof.
  intros H. pose proof (ceil4_add a 0 H) as E. rewrite Z.add_0_r in E.
  rewrite E. unfold ceil4. simpl. lia.
Qed.

Lemma len_repeat {A} (x : A) (k : nat) : len (repeat x k) = Z.of_nat k.
Proof. unfold len. now rewrite repeat_length. Qed.

Lemma padded_length (s : jsstring) : len (padded s) = ceil4 (len s + 1).
Proof.
  unfold padded. rewrite len_app, len_repeat.
  pose proof (ceil4_bounds (len s + 1)). lia.
Qed.

Lemma padded_cons (s : jsstring) :
  exists k, padded s = s ++ 0 :: repeat 0 k.
Proof.
  unfold padded. pose proof (ceil4_bounds (len s + 1)) as [H _].
  destruct (Z.to_nat (ceil4 (len s + 1) - len s)) as [| k] eqn:E; [lia|].
  exists k. reflexivity.
Qed.

Lemma ascii7_mod (s : jsstring) : ascii7 s -> map (fun c => c mod 256) s = s.
Proof.
  induction 1 as [| c l Hc _ IH]; [reflexivity|].
  simpl. rewrite IH, Z.mod_small by lia. reflexivity.
Qed.

Lemma ascii7_land (s : jsstring) : ascii7 s -> map (fun b => Z.land b 127) s = s.
Proof.
  induction 1 as [| c l Hc _ IH]; [reflexivity|].
  simpl. rewrite IH. f_equal.
  change 127 with (Z.ones 7). rewrite Z.land_ones by lia.
  apply Z.mod_small. change (2 ^ 7) with 128. lia.
Qed.

Lemma alloc_write_ascii_padded (s : jsstring) :
  ascii7 s -> alloc_write_ascii (ceil4 (len s + 1)) s = padded s.
Proof.
  intros H. unfold alloc_write_ascii, padded. rewrite (ascii7_mod s H).
  pose proof (ceil4_bounds (len s + 1)) as [Hb _].
  set (c := ceil4 (len s + 1)) in *. unfold len in Hb.
  rewrite firstn_all2 by lia.
  f_equal. f_equal. unfold len. lia.
Qed.

Lemma find_from_skip (val : Z) (s rest : list Z) (i : Z) :
  Forall (fun c => c <> val) s ->
  find_from val (s ++ val :: rest) i = i + len s.
Proof.
  intros H. revert i. induction H as [| c l Hc _ IH]; intros i; simpl.
  - rewrite Z.eqb_refl. rewrite len_nil. lia.
  - destruct (c =? val) eqn:E; [apply Z.eqb_eq in E; contradiction|].
    rewrite IH, len_cons. lia.
Qed.

Lemma skipn_len_app {A} (pre rest : list A) :
  skipn (Z.to_nat (len pre)) (pre ++ rest) = rest.
Proof.
  unfold len. rewrite Nat2Z.id, skipn_app, skipn_all, Nat.sub_diag. reflexivity.
Qed.

Lemma indexOf_terminator (pre s rest : Buffer) :
  Forall (fun c => c <> 0) s ->
  indexOf (pre ++ s ++ 0 :: rest) 0 (len pre) = len pre + len s.
Proof.
  intros H. unfold indexOf.
  pose proof (len_nonneg pre). pose proof (len_nonneg s). pose proof (len_nonneg rest).
  assert (Hn : len (pre ++ s ++ 0 :: rest) = len pre + len s + 1 + len rest)
    by (rewrite !len_app, len_cons; lia).
  rewrite Hn.
  destruct (len pre <? 0) eqn:E1; [bool_hyps; lia|].
  destruct (len pre + 1 <=? len pre + len s + 1 + len rest) eqn:E2;
    [|bool_hyps; lia].
  rewrite E1. cbn [orb].
  destruct (len pre + len s + 1 + len rest =? 0) eqn:E3; [bool_hyps; lia|].
  rewrite skipn_len_app. now apply find_from_skip.
Qed.

Lemma ascii7_nonzero (s : jsstring) : ascii7 s -> Forall (fun c => c <> 0) s.
Proof. apply Forall_impl. intros c Hc. lia. Qed.

Lemma sub_list_app {A} (pre s rest : list A) :
  sub_list (pre ++ s ++ rest) (len pre) (len pre + len s) = s.
Proof.
  unfold sub_list. rewrite skipn_len_app.
  replace (Z.to_nat (len pre + len s - len pre)) with (length s)
    by (unfold len; lia).
  rewrite firstn_app, firstn_all, Nat.sub_diag. simpl. apply app_nil_r.
Qed.

Lemma toString_ascii_app (pre s rest : Buffer) :
  ascii7 s ->
  toString_ascii (pre ++ s ++ rest) (len pre) (len pre + len s) = s.
Proof.
  intros H. unfold toString_ascii.
  pose proof (len_nonneg pre). pose proof (len_nonneg s). pose proof (len_nonneg rest).
  assert (Hn : len (pre ++ s ++ rest) = len pre + len s + len rest)
    by (rewrite !len_app; lia).
  rewrite Hn.
  assert (Hs : (if len pre <=? 0 then 0 else len pre) = len pre).
  { destruct (len pre <=? 0) eqn:E; [bool_hyps; lia | reflexivity]. }
  rewrite Hs.
  destruct (len pre + len s + len rest <=? len pre) eqn:E1.
  { bool_hyps. destruct s as [| c s']; [reflexivity|].
    rewrite len_cons in *. pose proof (len_nonneg s'). lia. }
  destruct (len pre + len s + len rest <? len pre + len s) eqn:E2;
    [bool_hyps; lia|].
  destruct (len pre + len s <=? len pre) eqn:E3.
  { bool_hyps. destruct s as [| c s']; [reflexivity|].
    rewrite len_cons in *. pose proof (len_nonneg s'). lia. }
  rewrite sub_list_app. now apply ascii7_land.
Qed.

Lemma be_bytes32_cons (z : Z) :
  exists b0 b1 b2 b3, be_bytes32 z = [b0; b1; b2; b3].
Proof. unfold be_bytes32. eauto. Qed.

Lemma readInt32BE_app (pre rest : Buffer) (z : Z) :
  -2147483648 <= z <= 2147483647 ->
  readInt32BE (pre ++ be_bytes32 z ++ rest) (len pre) = Ok z.
Proof.
  intros H. unfold readInt32BE, check4.
  pose proof (len_nonneg pre). pose proof (len_nonneg rest).
  assert (Hn : len (pre ++ be_bytes32 z ++ rest) = len pre + 4 + len rest).
  { rewrite !len_app. unfold be_bytes32, len at 2. simpl length. lia. }
  rewrite Hn.
  destruct (0 <=? len pre) eqn:E1; [|bool_hyps; lia].
  destruct (len pre + 4 <=? len pre + 4 + len rest) eqn:E2; [|bool_hyps; lia].
  cbn [andb]. f_equal.
  pose proof (int32_roundtrip z H) as Hr. cbv zeta in Hr.
  destruct (be_bytes32_cons z) as (b0 & b1 & b2 & b3 & Hb).
  rewrite Hb in *. cbn [app]. rewrite uint32_at_app. exact Hr.
Qed.

Lemma slice_app (pre b rest : Buffer) :
  0 < len pre ->
  slice (pre ++ b ++ rest) (len pre) (len pre + len b) = b.
Proof.
  intros Hpre. unfold slice, adjustOffset.
  pose proof (len_nonneg b). pose proof (len_nonneg rest).
  assert (Hn : len (pre ++ b ++ rest) = len pre + len b + len rest)
    by (rewrite !len_app; lia).
  rewrite Hn.
  destruct (len pre =? 0) eqn:E1; [bool_hyps; lia|].
  destruct (len pre <? 0) eqn:E2; [bool_hyps; lia|].
  destruct (len pre + len b =? 0) eqn:E3; [bool_hyps; lia|].
  destruct (len pre + len b <? 0) eqn:E4; [bool_hyps; lia|].
  destruct b as [| x b'].
  - rewrite len_nil in *.
    destruct (len pre <? len pre + 0 + len rest) eqn:E5;
      destruct (len pre + 0 <? len pre + 0 + len rest) eqn:E6; bool_hyps;
      try lia.
    + destruct (len pre <? len pre + 0) eqn:E7; [bool_hyps; lia | reflexivity].
    + rewrite Z.ltb_irrefl. reflexivity.
  - rewrite len_cons in *. pose proof (len_nonneg b').
    destruct (len pre <? len pre + (1 + len b') + len rest) eqn:E5;
      [|bool_hyps; lia].
    assert (He : (if len pre + (1 + len b') <? len pre + (1 + len b') + len rest
                  then len pre + (1 + len b')
                  else len pre + (1 + len b') + len rest)
                 = len pre + (1 + len b')).
    { destruct (len pre + (1 + len b') <? len pre + (1 + len b') + len rest) eqn:E6;
        [reflexivity | bool_hyps; lia]. }
    rewrite He.
    destruct (len pre <? len pre + (1 + len b')) eqn:E7; [|bool_hyps; lia].
    replace (len pre + (1 + len b')) with (len pre + len (x :: b'))
      by (rewrite len_cons; lia).
    apply sub_list_app.
Qed.

Lemma encode_arg_enc {rt : Runtime} (v : osc_value) :
  wf_value v -> encode_arg (to_arg v) = Ok (enc v).
Proof.
  destruct v as [z | s | b | | |]; simpl wf_value; intros H; try reflexivity.
  - change (encode_arg (to_arg (OInt z))) with (writeInt32BE_Z z).
    now apply writeInt32BE_Z_ok.
  - change (encode_arg (to_arg (OStr s)))
      with (@Ok Buffer (alloc_write_ascii (ceil4 (len s + 1)) s)).
    now rewrite alloc_write_ascii_padded.
  - change (encode_arg (to_arg (OBlob b)))
      with (l <- writeInt32BE_Z (len b) ;;
            Ok (l ++ b ++ repeat 0 (Z.to_nat (ceil4 (len b) - len b)))).
    pose proof (len_nonneg b).
    rewrite writeInt32BE_Z_ok by lia. reflexivity.
Qed.

Lemma encode_args_enc {rt : Runtime} (args : list osc_value) :
  Forall wf_value args ->
  encode_args (map to_arg args) = Ok (flat_map enc args).
Proof.
  induction 1 as [| v l Hv _ IH]; [reflexivity|].
  cbn [map encode_args flat_map]. rewrite (encode_arg_enc v Hv), IH. reflexivity.
Qed.

Lemma padded_length_ge (s : jsstring) : 4 <= len (padded s).
Proof.
  rewrite padded_length. pose proof (len_nonneg s).
  pose proof (ceil4_bounds (len s + 1)) as [Hb Hm].
  pose proof (Z.div_mod (ceil4 (len s + 1)) 4 ltac:(lia)). lia.
Qed.

Lemma blob_length (b : Buffer) :
  len (be_bytes32 (len b) ++ b ++ repeat 0 (Z.to_nat (ceil4 (len b) - len b)))
  = 4 + ceil4 (len b).
Proof.
  rewrite !len_app, len_repeat. pose proof (ceil4_bounds (len b)) as [Hb Hm].
  replace (len (be_bytes32 (len b))) with 4 by reflexivity. lia.
Qed.

Lemma enc_length (v : osc_value) :
  len (enc v) mod 4 = 0
  /\ (carries_bytes v = true -> 4 <= len (enc v))
  /\ (carries_bytes v = false -> enc v = []).
Proof.
  destruct v as [z | s | b | | |]; cbn [enc carries_bytes];
    (split; [|split; intros Hc; try discriminate Hc; try reflexivity]);
    try reflexivity.
  - rewrite padded_length. apply ceil4_bounds.
  - apply padded_length_ge.
  - rewrite blob_length. pose proof (ceil4_bounds (len b)) as [_ Hm].
    replace (4 + ceil4 (len b)) with (ceil4 (len b) + 1 * 4) by lia.
    rewrite Z_mod_plus_full. exact Hm.
  - rewrite blob_length. pose proof (ceil4_bounds (len b)) as [Hb _].
    pose proof (len_nonneg b). lia.
Qed.

Lemma enc_all_empty (args : list osc_value) :
  existsb carries_bytes args = false -> flat_map enc args = [].
Proof.
  induction args as [| v l IH]; [reflexivity|].
  cbn [existsb flat_map]. intros H. apply orb_false_iff in H. destruct H as [Hv Hl].
  destruct (enc_length v) as (_ & _ & He). rewrite (He Hv), (IH Hl). reflexivity.
Qed.

Lemma enc_some_bytes (args : list osc_value) :
  existsb carries_bytes args = true -> 4 <= len (flat_map enc args).
Proof.
  induction args as [| v l IH]; [discriminate|].
  cbn [existsb flat_map]. intros H. rewrite len_app.
  pose proof (len_nonneg (enc v)). pose proof (len_nonneg (flat_map enc l)).
  apply orb_true_iff in H. destruct H as [Hv | Hl].
  - destruct (enc_length v) as (_ & He & _). specialize (He Hv). lia.
  - specialize (IH Hl). lia.
Qed.

Lemma parse_tags_roundtrip (args : list osc_value) :
  forall (pre : Buffer) (acc : list jsval),
    len pre mod 4 = 0 ->
    Forall wf_value args ->
    parse_tags (pre ++ flat_map enc args) (map tag_of args) (len pre) acc
    = Ok (acc ++ map decoded (strip_trailing args)).
Proof.
  induction args as [| a r IH]; intros pre acc Hpre Hwf.
  - simpl. now rewrite app_nil_r.
  - inversion Hwf as [| ? ? Ha Hr]; subst.
    cbn [map parse_tags strip_trailing].
    destruct (existsb carries_bytes (a :: r)) eqn:Hex.
    + pose proof (enc_some_bytes (a :: r) Hex) as Hbytes.
      destruct (len (pre ++ flat_map enc (a :: r)) <=? len pre) eqn:E.
      { bool_hyps. rewrite len_app in E. lia. }
      clear E. cbn [flat_map]. cbn [flat_map] in Hbytes.
      destruct (enc_length a) as (Hmod & _ & Hnil).
      assert (Hpre' : len (pre ++ enc a) mod 4 = 0).
      { rewrite len_app, Z.add_mod, Hpre, Hmod by lia. reflexivity. }
      destruct a as [z | s | b | | |]; cbn [tag_of decoded enc] in *.
      * change (tag_i =? tag_i) with true. cbv iota.
        rewrite readInt32BE_app by exact Ha. unfold bind.
        rewrite app_assoc.
        replace (len pre + 4) with (len (pre ++ be_bytes32 z))
          by (rewrite len_app; reflexivity).
        rewrite IH by assumption. rewrite <- app_assoc. reflexivity.
      * change (tag_s =? tag_i) with false. change (tag_s =? tag_f) with false.
        change (tag_s =? tag_s) with true. cbv iota.
        destruct (padded_cons s) as [k Hk].
        assert (Hend : indexOf (pre ++ padded s ++ flat_map enc r) 0 (len pre)
                       = len pre + len s).
        { rewrite Hk, <- app_assoc. cbn [app].
          apply indexOf_terminator. now apply ascii7_nonzero. }
        rewrite Hend.
        assert (Hstr : toString_ascii (pre ++ padded s ++ flat_map enc r)
                         (len pre) (len pre + len s) = s).
        { unfold padded. rewrite <- app_assoc. now apply toString_ascii_app. }
        rewrite Hstr.
        replace (ceil4 (len pre + len s + 1)) with (len (pre ++ padded s))
          by (rewrite len_app, padded_length, <- Z.add_assoc,
                (ceil4_add _ _ Hpre); reflexivity).
        rewrite app_assoc, IH by assumption. rewrite <- app_assoc. reflexivity.
      * change (tag_b =? tag_i) with false. change (tag_b =? tag_f) with false.
        change (tag_b =? tag_s) with false. change (tag_b =? tag_b) with true.
        cbv iota. simpl in Ha. pose proof (len_nonneg b) as Hnb.
        rewrite <- !app_assoc.
        rewrite readInt32BE_app by lia. unfold bind.
        set (rest := repeat 0 (Z.to_nat (ceil4 (len b) - len b))
                     ++ flat_map enc r).
        assert (Hsl : slice (pre ++ be_bytes32 (len b) ++ b ++ rest)
                        (len pre + 4) (len pre + 4 + len b) = b).
        { rewrite (app_assoc pre).
          replace (len pre + 4) with (len (pre ++ be_bytes32 (len b)))
            by (rewrite len_app; reflexivity).
          apply slice_app. rewrite len_app. pose proof (len_nonneg pre).
          replace (len (be_bytes32 (len b))) with 4 by reflexivity. lia. }
        rewrite Hsl. unfold rest.
        replace (pre ++ be_bytes32 (len b) ++ b
                 ++ repeat 0 (Z.to_nat (ceil4 (len b) - len b)) ++ flat_map enc r)
          with ((pre ++ be_bytes32 (len b) ++ b
                 ++ repeat 0 (Z.to_nat (ceil4 (len b) - len b)))
                ++ flat_map enc r)
          by (rewrite <- !app_assoc; reflexivity).
        replace (ceil4 (len pre + 4 + len b))
          with (len (pre ++ be_bytes32 (len b) ++ b
                     ++ repeat 0 (Z.to_nat (ceil4 (len b) - len b)))).
        2:{ rewrite len_app, blob_length, <- Z.add_assoc, ceil4_add by exact Hpre.
            rewrite (Z.add_comm 4 (len b)), (Z.add_comm 4 (ceil4 (len b))).
            pose proof (ceil4_add 4 (len b) eq_refl) as E.
            rewrite (Z.add_comm (len b) 4). rewrite E. lia. }
        rewrite IH by assumption. rewrite <- app_assoc. reflexivity.
      * change (tag_N =? tag_i) with false. change (tag_N =? tag_f) with false.
        change (tag_N =? tag_s) with false. change (tag_N =? tag_b) with false.
        change (tag_N =? tag_N) with true. cbv iota. cbn [app].
        rewrite IH by assumption. rewrite <- app_assoc. reflexivity.
      * change (tag_T =? tag_i) with false. change (tag_T =? tag_f) with false.
        change (tag_T =? tag_s) with false. change (tag_T =? tag_b) with false.
        change (tag_T =? tag_N) with false. change (tag_T =? tag_T) with true.
        cbv iota. cbn [app].
        rewrite IH by assumption. rewrite <- app_assoc. reflexivity.
      * change (tag_F =? tag_i) with false. change (tag_F =? tag_f) with false.
        change (tag_F =? tag_s) with false. change (tag_F =? tag_b) with false.
        change (tag_F =? tag_N) with false. change (tag_F =? tag_T) with false.
        change (tag_F =? tag_F) with true. cbv iota. cbn [app].
        rewrite IH by assumption. rewrite <- app_assoc. reflexivity.
    + rewrite (enc_all_empty (a :: r) Hex), !app_nil_r, Z.leb_refl. reflexivity.
Qed.

Lemma typeTag_to_arg (args : list osc_value) :
  typeTag (map to_arg args) = 44 :: map tag_of args.
Proof.
  unfold typeTag. change (str ",") with [44]. cbn [app]. f_equal.
  induction args as [| v l IH]; [reflexivity|].
  cbn [map concat]. rewrite IH. destruct v; reflexivity.
Qed.

Lemma tag_of_ascii7 (args : list osc_value) : ascii7 (map tag_of args).
Proof.
  induction args as [| v l IH]; [constructor|].
  constructor; [|exact IH]. destruct v; vm_compute; split; discriminate.
Qed.

Lemma strip_trailing_id (args : list osc_value) :
  ends_with_bytes args -> strip_trailing args = args.
Proof.
  intros [-> | H]; [reflexivity|].
  induction args as [| a r IH]; [reflexivity|].
  cbn [strip_trailing].
  assert (Hex : existsb carries_bytes (a :: r) = true).
  { clear IH. revert a H. induction r as [| b r IHr]; intros a H.
    - simpl in H. simpl. now rewrite H.
    - change (existsb carries_bytes (a :: b :: r))
        with (carries_bytes a || existsb carries_bytes (b :: r)).
      rewrite (IHr b); [apply orb_true_r|].
      exact H. }
  rewrite Hex. f_equal. destruct r as [| b r']; [reflexivity|].
  apply IH. exact H.
Qed.

(** C1, as amended.  For an address and string arguments made of code units
    1..127 (no NUL, seven-bit), integer arguments within the signed 32-bit
    range, and an argument list over the types i, s, b, N, T, F, the encoder
    returns a message, and decoding it (address up to the first NUL, then
    [_parseOscArgs]) gives back the address and the arguments up to and
    including the last one that occupies bytes; so when the last argument is
    an i, s or b (or the list is empty) exactly the same argument values are
    recovered: the integer for i, the string for s, the bytes for b, and
    null, true, false for N, T, F. *)
Theorem osc_roundtrip {rt : Runtime} (address : jsstring)
    (args : list osc_value) :
  ascii7 address ->
  Forall wf_value args ->
  exists msg,
    _buildOSCMessage address (map to_arg args) = Ok msg
    /\ decode msg = (address, Ok (map decoded (strip_trailing args)))
    /\ (ends_with_bytes args -> decode msg = (address, Ok (map decoded args))).
Proof.
  intros Haddr Hwf.
  set (tag := 44 :: map tag_of args).
  assert (Htag : ascii7 tag).
  { constructor; [lia | apply tag_of_ascii7]. }
  exists (padded address ++ padded tag ++ flat_map enc args).
  assert (Hbuild : _buildOSCMessage address (map to_arg args)
                   = Ok (padded address ++ padded tag ++ flat_map enc args)).
  { unfold _buildOSCMessage. rewrite typeTag_to_arg. fold tag.
    rewrite (encode_args_enc args Hwf). unfold bind.
    rewrite !alloc_write_ascii_padded by assumption. reflexivity. }
  assert (Hdec : decode (padded address ++ padded tag ++ flat_map enc args)
                 = (address, Ok (map decoded (strip_trailing args)))).
  { unfold decode.
    set (msg := padded address ++ padded tag ++ flat_map enc args).
    destruct (padded_cons address) as [ka Hka].
    destruct (padded_cons tag) as [kt Hkt].
    assert (Hnull : indexOf msg 0 0 = len address).
    { unfold msg. rewrite Hka, <- app_assoc. cbn [app].
      apply (indexOf_terminator [] address). now apply ascii7_nonzero. }
    rewrite Hnull.
    assert (Hstr : toString_ascii msg 0 (len address) = address).
    { unfold msg, padded. rewrite <- app_assoc.
      apply (toString_ascii_app [] address). exact Haddr. }
    rewrite Hstr. f_equal.
    unfold _parseOscArgs. rewrite <- padded_length.
    pose proof (padded_length_ge tag) as Hge.
    pose proof (len_nonneg (flat_map enc args)) as Hnn.
    destruct (len msg <=? len (padded address)) eqn:E1.
    { bool_hyps. unfold msg in E1. rewrite !len_app in E1. lia. }
    assert (Hend : indexOf msg 0 (len (padded address))
                   = len (padded address) + len tag).
    { unfold msg. rewrite Hkt, <- app_assoc. cbn [app].
      apply indexOf_terminator. now apply ascii7_nonzero. }
    rewrite Hend.
    pose proof (len_nonneg (padded address)). pose proof (len_nonneg tag).
    destruct (len (padded address) + len tag =? -1) eqn:E2; [bool_hyps; lia|].
    assert (Hmod : len (padded address) mod 4 = 0).
    { rewrite padded_length. apply ceil4_bounds. }
    assert (Htags : toString_ascii msg (len (padded address) + 1)
                      (len (padded address) + len tag) = map tag_of args).
    { assert (Hshape : msg = (padded address ++ [44]) ++ map tag_of args
                             ++ (repeat 0 (Z.to_nat (ceil4 (len tag + 1) - len tag))
                                 ++ flat_map enc args)).
      { unfold msg, padded at 2. unfold tag at 1.
        rewrite <- !app_assoc. reflexivity. }
      rewrite Hshape.
      replace (len (padded address) + 1) with (len (padded address ++ [44]))
        by (rewrite len_app; reflexivity).
      replace (len (padded address) + len tag)
        with (len (padded address ++ [44]) + len (map tag_of args))
        by (unfold tag; rewrite len_app, !len_cons, len_nil; lia).
      apply toString_ascii_app. apply tag_of_ascii7. }
    rewrite Htags.
    replace (ceil4 (len (padded address) + len tag + 1))
      with (len (padded address ++ padded tag))
      by (rewrite len_app, (padded_length tag), <- Z.add_assoc,
            (ceil4_add _ _ Hmod); reflexivity).
    unfold msg. rewrite app_assoc.
    apply parse_tags_roundtrip; [|exact Hwf].
    rewrite len_app, Z.add_mod, Hmod by lia.
    rewrite (padded_length tag).
    destruct (ceil4_bounds (len tag + 1)) as [_ Hm]. rewrite Hm. reflexivity. }
  split; [exact Hbuild|]. split; [exact Hdec|].
  intros Hends. rewrite Hdec, (strip_trailing_id args Hends). reflexivity.
Qed.

(** C1, the claim as stated fails, each time on arguments of supported types:
    a trailing N is not recovered (the loop stops once the offset has reached
    the end of the buffer); an address containing NUL is cut at it; a string
    argument with a code unit above 127 comes back changed; and an i value
    outside the signed 32-bit range makes the encoder raise. *)
Lemma osc_roundtrip_fails :
  (exists msg,
      @_buildOSCMessage test_runtime (str "/a") [arg "i" (JInt 7); arg "N" JNull]
      = Ok msg
      /\ decode msg = (str "/a", Ok [JInt 7]))
  /\ (exists msg,
      @_buildOSCMessage test_runtime [47; 0; 97] [arg "i" (JInt 7)] = Ok msg
      /\ decode msg = ([47], Ok [JInt 7]))
  /\ (exists msg,
      @_buildOSCMessage test_runtime (str "/a") [arg "s" (JString [233])] = Ok msg
      /\ decode msg = (str "/a", Ok [JString [105]]))
  /\ @_buildOSCMessage test_runtime (str "/a") [arg "i" (JInt 2147483648)]
     = Throw ERR_OUT_OF_RANGE_value.
Proof.
  split; [|split; [|split]].
  - eexists. split; reflexivity.
  - eexists. split; reflexivity.
  - eexists. split; reflexivity.
  - reflexivity.
Qed.

(** A time tag is written by the encoder but [_parseOscArgs] has no case for
    the tag t: the argument is skipped and the offset does not advance. *)
Remark timetag_argument_not_decoded :
  exists msg,
    @_buildOSCMessage test_runtime (str "/a") [arg "t" (JBigInt 5)] = Ok msg
    /\ decode msg = (str "/a", Ok []).
Proof. eexists. split; reflexivity. Qed.

(** The amended C1 on a message with every decodable type. *)
Lemma osc_roundtrip_witness :
  exists msg,
    @_buildOSCMessage test_runtime (str "/aoo/sink/1/start")
      (map to_arg [OInt (-2); ONull; OStr (str "pcm"); OTrue; OFalse;
                   OBlob [0; 0; 0; 3]]) = Ok msg
    /\ decode msg
       = (str "/aoo/sink/1/start",
          Ok [JInt (-2); JNull; JString (str "pcm"); JBool true; JBool false;
              JBuffer [0; 0; 0; 3]]).
Proof.
  destruct (@osc_roundtrip test_runtime (str "/aoo/sink/1/start")
              [OInt (-2); ONull; OStr (str "pcm"); OTrue; OFalse;
               OBlob [0; 0; 0; 3]]) as (msg & Hb & _ & Hd).
  - unfold ascii7. repeat constructor; vm_compute; discriminate.
  - repeat constructor; try (vm_compute; discriminate).
  - exists msg. split; [exact Hb|]. apply Hd. right. reflexivity.
Defined.

(** * Further properties *)

(** ** The sink registry *)

Lemma jsstring_eqb_neq (a b : jsstring) : jsstring_eqb a b = false -> a <> b.
Proof. unfold jsstring_eqb. destruct (list_eq_dec Z.eq_dec a b); congruence. Qed.

Lemma map_has_In {V} (m : list (jsstring * V)) (k : jsstring) :
  map_has m k = true <-> In k (map fst m).
Proof.
  induction m as [|[k' v'] m IH]; simpl.
  - split; [discriminate | tauto].
  - rewrite orb_true_iff, IH. split.
    + intros [H | H]; [left; now apply jsstring_eqb_eq | now right].
    + intros [H | H]; [left; subst; apply jsstring_eqb_refl | now right].
Qed.

Lemma map_set_keys {V} (m : list (jsstring * V)) (k : jsstring) (v : V) :
  map fst (map_set m k v)
  = if map_has m k then map fst m else map fst m ++ [k].
Proof.
  induction m as [|[k' v'] m IH]; simpl; [reflexivity|].
  destruct (jsstring_eqb k' k) eqn:E; simpl.
  - apply jsstring_eqb_eq in E. now subst.
  - rewrite IH. now destruct (map_has m k).
Qed.

Lemma map_set_absent {V} (m : list (jsstring * V)) (k : jsstring) (v : V) :
  map_has m k = false -> map_set m k v = m ++ [(k, v)].
Proof.
  induction m as [|[k' v'] m IH]; simpl; [reflexivity|].
  intros H. apply orb_false_iff in H as [H1 H2]. rewrite H1. now rewrite IH.
Qed.

Lemma map_get_set_other {V} (m : list (jsstring * V)) (k k' : jsstring) (v : V) :
  k' <> k -> map_get (map_set m k v) k' = map_get m k'.
Proof.
  intros Hne. induction m as [|[k0 v0] m IH]; simpl.
  - destruct (jsstring_eqb k k') eqn:E; [|reflexivity].
    apply jsstring_eqb_eq in E. congruence.
  - destruct (jsstring_eqb k0 k) eqn:E; simpl.
    + apply jsstring_eqb_eq in E. subst k0.
      destruct (jsstring_eqb k k') eqn:E'; [|reflexivity].
      apply jsstring_eqb_eq in E'. congruence.
    + now rewrite IH.
Qed.

Lemma map_has_set {V} (m : list (jsstring * V)) (k k' : jsstring) (v : V) :
  map_has m k' = true -> map_has (map_set m k v) k' = true.
Proof.
  rewrite !map_has_In, map_set_keys. destruct (map_has m k); [tauto|].
  intros H. apply in_or_app. now left.
Qed.

Lemma map_set_Forall {V} (P : jsstring * V -> Prop) (m : list (jsstring * V))
    (k : jsstring) (v : V) :
  Forall P m -> P (k, v) -> Forall P (map_set m k v).
Proof.
  intros Hm Hv. induction Hm as [|[k' v'] m Hx Hm IH]; simpl.
  - now constructor.
  - destruct (jsstring_eqb k' k); now constructor.
Qed.

Lemma map_set_NoDup {V} (m : list (jsstring * V)) (k : jsstring) (v : V) :
  NoDup (map fst m) -> NoDup (map fst (map_set m k v)).
Proof.
  intros H. rewrite map_set_keys. destruct (map_has m k) eqn:E; [exact H|].
  apply NoDup_app; [exact H | repeat constructor; simpl; tauto |].
  intros x Hx [<- | []]. apply map_has_In in Hx. congruence.
Qed.

(** X1 (addSink, lines 131-134): [addSink] never fails and changes only the
    registry; afterwards the key "host:port:sinkId" maps to the new active
    sink, every other key maps to what it mapped to before, a key that was
    already present keeps its place (the registry does not grow), and a new
    key is appended at the end. *)
Theorem addSink_registry {rt : Runtime} (h : jsstring) (p id : Z)
    (o : AooSource) :
  let r := addSink h p id o in
  let k := sink_key h p id in
  fst r = Ok tt
  /\ snd r = set_sinks (sinks (snd r)) o
  /\ map_get (sinks (snd r)) k = Some (new_sink h p id)
  /\ (forall k', k' <> k -> map_get (sinks (snd r)) k' = map_get (sinks o) k')
  /\ (if map_has (sinks o) k
      then map fst (sinks (snd r)) = map fst (sinks o)
      else sinks (snd r) = sinks o ++ [(k, new_sink h p id)]).
Proof.
  cbn zeta. unfold addSink, modify. cbn [fst snd].
  split; [reflexivity|]. split; [reflexivity|]. cbn [sinks set_sinks].
  split; [apply map_get_set|].
  split; [intros k' Hk; now apply map_get_set_other|].
  destruct (map_has (sinks o) (sink_key h p id)) eqn:E.
  - now rewrite map_set_keys, E.
  - now apply map_set_absent.
Qed.

Lemma addSink_registry_witness :
  map fst (sinks (snd (@addSink test_runtime (str "127.0.0.1") 9999 1
                         scenario_source)))
  = map fst (sinks scenario_source).
Proof.
  destruct (@addSink_registry test_runtime (str "127.0.0.1") 9999 1
              scenario_source)
    as (_ & _ & _ & _ & H).
  exact H.
Defined.

Lemma str_cons (c : ascii) (s : string) :
  str (String c s) = Z.of_nat (nat_of_ascii c) :: str s.
Proof. reflexivity. Qed.

Lemma str_inj (s s' : string) : str s = str s' -> s = s'.
Proof.
  revert s'. induction s as [|c s IH]; intros [|c' s']; try discriminate.
  - reflexivity.
  - rewrite !str_cons. intros H. injection H as Hc Hs.
    apply Nat2Z.inj in Hc. f_equal; [|now apply IH].
    rewrite <- (ascii_nat_embedding c), <- (ascii_nat_embedding c'). now rewrite Hc.
Qed.

Lemma string_of_uint_chars (d : Decimal.uint) :
  Forall dec_char (str (NilEmpty.string_of_uint d)).
Proof.
  induction d; cbn [NilEmpty.string_of_uint]; [constructor | ..];
    rewrite str_cons; (constructor; [right; cbn; lia | assumption]).
Qed.

Lemma dec_chars (z : Z) : Forall dec_char (dec z).
Proof.
  assert (Hu : forall d, Forall dec_char (str (NilZero.string_of_uint d))).
  { intros d. destruct d; try apply string_of_uint_chars.
    change (Forall dec_char [48]). constructor; [right; lia | constructor]. }
  unfold dec. destruct z; cbn [Z.to_int NilZero.string_of_int].
  - apply (Hu (Decimal.D0 Decimal.Nil)).
  - apply Hu.
  - rewrite str_cons. constructor; [left; reflexivity | apply Hu].
Qed.

Lemma dec_no_colon (z : Z) : ~ In 58 (dec z).
Proof.
  intros H. pose proof (dec_chars z) as Hc. rewrite Forall_forall in Hc.
  destruct (Hc _ H) as [E | E]; lia.
Qed.

Lemma dec_inj (z z' : Z) : dec z = dec z' -> z = z'.
Proof.
  unfold dec. intros H. apply str_inj in H.
  apply DecimalZ.to_int_inj.
  assert (Hn : forall z, Z.to_int z <> Decimal.Pos Decimal.Nil
                         /\ Z.to_int z <> Decimal.Neg Decimal.Nil).
  { intros [|q|q]; cbn [Z.to_int]; split; try discriminate;
      intros E; injection E as E;
      now apply DecimalPos.Unsigned.to_uint_nonnil in E. }
  destruct (Hn z) as [H1 H2]. destruct (Hn z') as [H1' H2'].
  pose proof (NilZero.isi _ H1 H2) as E. pose proof (NilZero.isi _ H1' H2') as E'.
  rewrite H in E. congruence.
Qed.

Lemma split_at_last (c : Z) (a : list Z) :
  forall b x y,
    ~ In c x -> ~ In c y -> a ++ c :: x = b ++ c :: y -> a = b /\ x = y.
Proof.
  induction a as [|u a IH]; intros [|v b] x y Hx Hy H; cbn in H.
  - injection H as H. now split.
  - injection H as H1 H2. exfalso. apply Hx. rewrite H2. apply in_or_app.
    right. now left.
  - injection H as H1 H2. exfalso. apply Hy. rewrite <- H2. apply in_or_app.
    right. now left.
  - injection H as H1 H2. destruct (IH b x y Hx Hy H2) as [-> ->].
    now subst.
Qed.

(** A safe integer (below 2^53 in magnitude) prints as its decimal digits. *)
Lemma ToString_safe {rt : Runtime} (z : Z) :
  Z.abs z < 2 ^ 53 -> ToString (JInt z) = dec z.
Proof.
  intros H. unfold ToString, JInt, fin_is_integer, fin_trunc.
  cbn [Z.leb Z.compare orb andb]. rewrite Z.pow_0_r, Z.mul_1_r.
  apply Z.ltb_lt in H. now rewrite H.
Qed.

Lemma sink_key_inj {rt : Runtime} (h h' : jsstring) (p p' id id' : Z) :
  Z.abs p < 2 ^ 53 -> Z.abs p' < 2 ^ 53 ->
  Z.abs id < 2 ^ 53 -> Z.abs id' < 2 ^ 53 ->
  sink_key h p id = sink_key h' p' id' -> h = h' /\ p = p' /\ id = id'.
Proof.
  intros Hp Hp' Hid Hid'. unfold sink_key.
  rewrite !ToString_safe by assumption.
  change (str ":") with [58]. cbn [app].
  intros H.
  assert (H' : (h ++ 58 :: dec p) ++ 58 :: dec id
               = (h' ++ 58 :: dec p') ++ 58 :: dec id').
  { rewrite <- !app_assoc. exact H. }
  apply split_at_last in H' as [H1 H2]; try apply dec_no_colon.
  apply split_at_last in H1 as [H3 H4]; try apply dec_no_colon.
  split; [exact H3|]. split; now apply dec_inj.
Qed.

(** X2 (addSink, lines 131-134, key of line 132): for ports and sink ids that
    are safe integers (below 2^53 in magnitude, where the template literal
    prints every digit), the registry key is "host:port:sinkId" with port and
    id in decimal, and it determines the three components, whatever the host
    string holds (colons included).  So two such sinks that differ in host,
    port or id never share a key, and adding one of them leaves the entry of
    the other as it is. *)
Theorem sink_key_injective {rt : Runtime} (h h' : jsstring) (p p' id id' : Z) :
  Z.abs p < 2 ^ 53 -> Z.abs p' < 2 ^ 53 ->
  Z.abs id < 2 ^ 53 -> Z.abs id' < 2 ^ 53 ->
  sink_key h p id = h ++ str ":" ++ dec p ++ str ":" ++ dec id
  /\ (sink_key h p id = sink_key h' p' id' -> h = h' /\ p = p' /\ id = id')
  /\ ((h, p, id) <> (h', p', id') ->
      forall o,
        map_get (sinks (snd (addSink h' p' id' o))) (sink_key h p id)
        = map_get (sinks o) (sink_key h p id)).
Proof.
  intros Hp Hp' Hid Hid'.
  split; [unfold sink_key; now rewrite !ToString_safe by assumption|].
  split; [now apply sink_key_inj|].
  intros Hne o. unfold addSink, modify. cbn [snd sinks set_sinks].
  apply map_get_set_other. intros E.
  apply sink_key_inj in E as (-> & -> & ->); try assumption. now apply Hne.
Qed.

Lemma sink_key_injective_witness :
  @sink_key test_runtime (str "127.0.0.1") 9999 1 = str "127.0.0.1:9999:1"
  /\ map_get (sinks (snd (@addSink test_runtime (str "::1") 9999 2 scenario_source)))
       (@sink_key test_runtime (str "127.0.0.1") 9999 1)
     = Some sink1.
Proof.
  destruct (@sink_key_injective test_runtime (str "127.0.0.1") (str "::1")
              9999 9999 1 2)
    as (Hk & _ & H); try (vm_compute; reflexivity).
  split; [exact Hk|].
  rewrite H; [reflexivity | discriminate].
Defined.

(** ** Datagrams the dispatcher ignores, and the /start branch *)

Lemma buildDataMessage_binary {rt : Runtime} (o : AooSource) (s : Sink)
    (audio m : Buffer) :
  _buildDataMessage o s audio = Ok m -> is_binary m = true.
Proof.
  intros H. apply buildDataMessage_shape in H
    as (s0 & s1 & s2 & s3 & q0 & q1 & q2 & q3 & _ & _ & _ & ->).
  unfold is_binary. cbn [app byte_at Z.to_nat nth].
  rewrite !len_cons. pose proof (len_nonneg (be_bytes16 (len audio) ++ audio)).
  apply andb_true_iff. split; [apply Z.leb_le; lia | reflexivity].
Qed.

(** X3 (_handleMessage, lines 509-556; _buildDataMessage, lines 318-352): the
    dispatcher drops, without any effect and without raising, every frame
    that [_buildDataMessage] can produce, every datagram whose first NUL is
    missing or at index 0 (the empty datagram included), and every datagram
    whose address contains none of "/invite", "/start" and "/ping". *)
Theorem handleMessage_ignores {rt : Runtime} (msg : Buffer) (h : jsstring)
    (p now : Z) (o : AooSource) :
  ((exists o1 s audio, _buildDataMessage o1 s audio = Ok msg) ->
   _handleMessage msg h p now o = (Ok tt, o))
  /\ (indexOf msg 0 0 <= 0 -> _handleMessage msg h p now o = (Ok tt, o))
  /\ (includes (address_of msg) (str "/invite") = false ->
      includes (address_of msg) (str "/start") = false ->
      includes (address_of msg) (str "/ping") = false ->
      _handleMessage msg h p now o = (Ok tt, o)).
Proof.
  unfold address_of. repeat split.
  - intros (o1 & s & audio & H). apply buildDataMessage_binary in H.
    unfold _handleMessage. now rewrite H.
  - intros H. unfold _handleMessage. destruct (is_binary msg); [reflexivity|].
    destruct (0 <? indexOf msg 0 0) eqn:E; [|reflexivity].
    apply Z.ltb_lt in E. lia.
  - intros H1 H2 H3. unfold _handleMessage.
    destruct (is_binary msg); [reflexivity|].
    destruct (0 <? indexOf msg 0 0); [|reflexivity].
    now rewrite H1, H2, H3.
Qed.

Lemma handleMessage_ignores_witness :
  @_handleMessage test_runtime
    [129; 0; 1; 1; 0; 0; 4; 210; 0; 0; 0; 0; 0; 0; 0; 4; 1; 2; 3; 4]
    (str "10.0.0.5") 7000 5 source0 = (Ok tt, source0)
  /\ @_handleMessage test_runtime [] (str "10.0.0.5") 7000 5 source0
     = (Ok tt, source0)
  /\ @_handleMessage test_runtime (osc "/aoo/src/1/data" []) (str "10.0.0.5")
       7000 5 source0 = (Ok tt, source0).
Proof.
  split; [|split].
  - destruct (@handleMessage_ignores test_runtime
                [129; 0; 1; 1; 0; 0; 4; 210; 0; 0; 0; 0; 0; 0; 0; 4; 1; 2; 3; 4]
                (str "10.0.0.5") 7000 5 source0) as (H & _ & _).
    apply H. exists source0, sink1, [1; 2; 3; 4]. reflexivity.
  - destruct (@handleMessage_ignores test_runtime [] (str "10.0.0.5") 7000 5
                source0) as (_ & H & _).
    apply H. vm_compute. discriminate.
  - destruct (@handleMessage_ignores test_runtime (osc "/aoo/src/1/data" [])
                (str "10.0.0.5") 7000 5 source0) as (_ & _ & H).
    apply H; reflexivity.
Defined.

Lemma map_has_get {V} (m : list (jsstring * V)) (k : jsstring) :
  map_has m k = match map_get m k with Some _ => true | None => false end.
Proof.
  induction m as [|[k' v'] m IH]; simpl; [reflexivity|].
  destruct (jsstring_eqb k' k); [reflexivity | exact IH].
Qed.

Lemma handle_start_effect {rt : Runtime} (h : jsstring) (p : Z) (msg : Buffer)
    (nullIdx : Z) (o : AooSource) :
  let o2 := start_adopt msg nullIdx h p o in
  handle_start h p msg nullIdx o
  = match start_message o2 1 with
    | Ok m => (Ok tt, set_socket (socket o ++ [datagram m p h]) o2)
    | Throw e => (Throw e, o2)
    end
  /\ socket o2 = socket o.
Proof.
  cbn zeta. unfold handle_start, start_adopt, try_catch, addSink, _sendStartOSC,
    socket_send, mbind, lift, ret, modify, new_sink, datagram.
  destruct (_parseOscArgs msg nullIdx) as [args|e]; cbn [snd fst].
  - destruct (2 <=? len args); cbn [snd fst negb].
    + destruct (map_has (sinks (set_sinkVersion (nth 1 args JUndefined) o))
                  (sink_key h p 1)); cbn [negb mbind lift];
        (split; [|reflexivity]);
        match goal with |- context [start_message ?x 1] =>
          destruct (start_message x 1) end; reflexivity.
    + destruct (map_has (sinks o) (sink_key h p 1)); cbn [negb];
        (split; [|reflexivity]);
        match goal with |- context [start_message ?x 1] =>
          destruct (start_message x 1) end; reflexivity.
  - destruct (map_has (sinks o) (sink_key h p 1)); cbn [negb];
      (split; [|reflexivity]);
      match goal with |- context [start_message ?x 1] =>
        destruct (start_message x 1) end; reflexivity.
Qed.

Lemma start_adopt_fields {rt : Runtime} (msg : Buffer) (nullIdx : Z)
    (h : jsstring) (p : Z) (o : AooSource) :
  let o2 := start_adopt msg nullIdx h p o in
  o2 = set_sinks (sinks o2) (set_sinkVersion (sinkVersion o2) o)
  /\ (sinks o2 = sinks o
      \/ sinks o2 = map_set (sinks o) (sink_key h p 1) (new_sink h p 1)).
Proof.
  cbn zeta. unfold start_adopt.
  destruct (_parseOscArgs msg nullIdx) as [args|e];
    [destruct (2 <=? len args)|];
    match goal with |- context [map_has ?m ?k] => destruct (map_has m k) end;
    destruct o; cbn; split; auto.
Qed.

(** X4 (_handleMessage, lines 536-550): a datagram routed to the /start
    branch never touches the stream id, the counters, the sample rate, the
    streaming flags or the buffer.  It replaces [sinkVersion] by the second
    decoded argument when there are at least two (a decoding error is
    swallowed), registers the sender as sink 1 unless that key is present (an
    existing entry is kept as it is), and then sends exactly one /start reply
    to the sender; if that reply cannot be built the error leaves the
    dispatcher after the assignments, with nothing sent. *)
Theorem start_datagram_effect {rt : Runtime} (msg : Buffer) (h : jsstring)
    (p now : Z) (o : AooSource) :
  is_binary msg = false ->
  0 < indexOf msg 0 0 ->
  includes (address_of msg) (str "/invite") = false ->
  includes (address_of msg) (str "/start") = true ->
  let r := _handleMessage msg h p now o in
  let o2 := start_adopt msg (indexOf msg 0 0) h p o in
  let k := sink_key h p 1 in
  r = match start_message o2 1 with
      | Ok m => (Ok tt, set_socket (socket o ++ [datagram m p h]) o2)
      | Throw e => (Throw e, o2)
      end
  /\ o2 = set_sinks (sinks o2) (set_sinkVersion (sinkVersion o2) o)
  /\ sinkVersion o2
     = match _parseOscArgs msg (indexOf msg 0 0) with
       | Ok args =>
           if 2 <=? len args then nth 1 args JUndefined else sinkVersion o
       | Throw _ => sinkVersion o
       end
  /\ map_get (sinks o2) k
     = match map_get (sinks o) k with
       | Some s => Some s
       | None => Some (new_sink h p 1)
       end
  /\ (forall k', k' <> k -> map_get (sinks o2) k' = map_get (sinks o) k').
Proof.
  unfold address_of. intros Hb Hn Hi Hs. cbn zeta.
  split; [|split; [|split; [|split]]].
  - unfold _handleMessage. rewrite Hb.
    apply Z.ltb_lt in Hn. rewrite Hn, Hi, Hs.
    apply handle_start_effect.
  - apply start_adopt_fields.
  - unfold start_adopt.
    destruct (_parseOscArgs msg (indexOf msg 0 0)) as [args|e];
      [destruct (2 <=? len args)|];
      match goal with |- context [map_has ?m ?k] => destruct (map_has m k) end;
      reflexivity.
  - unfold start_adopt.
    assert (Hs' : forall o1, sinks o1 = sinks o ->
              map_get
                (sinks (if map_has (sinks o1) (sink_key h p 1) then o1
                        else set_sinks (map_set (sinks o1) (sink_key h p 1)
                                          (new_sink h p 1)) o1))
                (sink_key h p 1)
              = match map_get (sinks o) (sink_key h p 1) with
                | Some s => Some s
                | None => Some (new_sink h p 1)
                end).
    { intros o1 E. rewrite E, map_has_get.
      destruct (map_get (sinks o) (sink_key h p 1)) eqn:G.
      - now rewrite E.
      - cbn [sinks set_sinks]. apply map_get_set. }
    apply Hs'.
    destruct (_parseOscArgs msg (indexOf msg 0 0)) as [args|e];
      [destruct (2 <=? len args)|]; reflexivity.
  - intros k' Hk.
    destruct (start_adopt_fields msg (indexOf msg 0 0) h p o) as [_ [E | E]];
      rewrite E; [reflexivity | now apply map_get_set_other].
Qed.

Lemma start_datagram_effect_witness :
  exists m,
    @_handleMessage test_runtime
      (osc "/aoo/src/1/start" [arg "i" (JInt 1); arg "s" (JString (str "2.1"))])
      (str "10.0.0.5") 7000 5 source0
    = (Ok tt,
       set_socket [datagram m 7000 (str "10.0.0.5")]
         (set_sinks [(@sink_key test_runtime (str "10.0.0.5") 7000 1,
                      new_sink (str "10.0.0.5") 7000 1)]
            (set_sinkVersion (JString (str "2.1")) source0))).
Proof.
  pose proof (@start_datagram_effect test_runtime
                (osc "/aoo/src/1/start"
                   [arg "i" (JInt 1); arg "s" (JString (str "2.1"))])
                (str "10.0.0.5") 7000 5 source0
                eq_refl eq_refl eq_refl eq_refl) as [H _].
  eexists. rewrite H. vm_compute. reflexivity.
Defined.

(** ** The announcement of a stream *)

Lemma announce_unfold {rt : Runtime} (rate : option Z) (o : AooSource) :
  _startSent o = false ->
  announce rate o = _sendStartToAllSinks (rate_applied rate o).
Proof.
  intros H. unfold announce, rate_applied. rewrite H. cbn [negb].
  unfold mbind at 1. destruct rate as [r|]; [|reflexivity].
  destruct (negb (r =? 0) && negb (r =? sampleRate o)) eqn:E; [|reflexivity].
  unfold _setSampleRate. apply andb_true_iff in E as [_ E].
  rewrite Z.eqb_sym. now rewrite E.
Qed.

Lemma rate_applied_fields (rate : option Z) (o : AooSource) :
  rate_applied rate o
  = set_formatId (formatId (rate_applied rate o))
      (set_sampleRate (sampleRate (rate_applied rate o)) o).
Proof.
  unfold rate_applied. destruct rate as [r|]; [|now destruct o].
  destruct (negb (r =? 0) && negb (r =? sampleRate o)); [reflexivity|].
  now destruct o.
Qed.

Lemma announce_run {rt : Runtime} (rate : option Z) (o : AooSource) :
  _startSent o = false ->
  (forall id, exists m, start_message (rate_applied rate o) id = Ok m) ->
  exists dgs,
    announce rate o
    = (Ok tt,
       set_startSent true (set_socket (socket o ++ dgs) (rate_applied rate o)))
    /\ Forall2 (is_start_for (rate_applied rate o))
         (filter active (map snd (sinks o))) dgs.
Proof.
  intros Hs Henc. rewrite announce_unfold by exact Hs.
  destruct (start_each_spec (sinks (rate_applied rate o)) _ Henc)
    as (dgs & Hrun & Hall).
  assert (Hsinks : sinks (rate_applied rate o) = sinks o)
    by (rewrite rate_applied_fields; reflexivity).
  assert (Hsock : socket (rate_applied rate o) = socket o)
    by (rewrite rate_applied_fields; reflexivity).
  exists dgs. split.
  - unfold _sendStartToAllSinks, mbind, modify. rewrite Hrun, Hsock. reflexivity.
  - rewrite <- Hsinks. exact Hall.
Qed.

(** X5 (sendAudio, lines 240-245; _sendStartToAllSinks, lines 165-172): on a
    source that has not announced itself, the rate given to [sendAudio] is
    applied first (a rate of 0 or equal to the current one is ignored, any
    other replaces the sample rate and bumps the format id); then, provided
    the /start message of the updated object can be encoded, exactly one
    /start goes to every active sink, in registry order, and the flag
    [_startSent] is set.  Once the flag is set the announcement is skipped
    and the rate argument is ignored. *)
Theorem announce_effect {rt : Runtime} (rate : option Z) (o : AooSource) :
  let o1 := rate_applied rate o in
  (_startSent o = true -> announce rate o = (Ok tt, o))
  /\ (_startSent o = false ->
      forall body,
        encode_args (start_args o1) = Ok body ->
        exists dgs,
          announce rate o
          = (Ok tt, set_startSent true (set_socket (socket o ++ dgs) o1))
          /\ Forall2 (is_start_for o1) (filter active (map snd (sinks o))) dgs).
Proof.
  cbn zeta. split; [apply announce_sent|].
  intros Hs body Hbody. apply announce_run; [exact Hs|].
  now apply (start_message_encodable _ body).
Qed.

Lemma announce_effect_witness :
  exists d,
    @announce test_runtime (Some 44100) scenario_source
    = (Ok tt,
       set_startSent true
         (set_socket [d]
            (set_formatId 1 (set_sampleRate 44100 scenario_source))))
    /\ dg_port d = 9999.
Proof.
  destruct (@announce_effect test_runtime (Some 44100) scenario_source)
    as [_ H].
  destruct (@encode_args test_runtime
              (start_args (rate_applied (Some 44100) scenario_source)))
    as [body|e] eqn:Hb; [|vm_compute in Hb; discriminate].
  destruct (H eq_refl body eq_refl) as (dgs & Hrun & Hall).
  inversion Hall as [|s d l l' Hd Hrest]; subst.
  inversion Hrest; subst.
  exists d. split.
  - exact Hrun.
  - destruct Hd as (_ & Hp & _). exact Hp.
Defined.

(** ** What the operations change *)

Lemma start_fields (o : AooSource) :
  fst (start o) = Ok tt
  /\ channels (snd (start o)) = channels o
  /\ blockSize (snd (start o)) = blockSize o
  /\ sourceId (snd (start o)) = sourceId o
  /\ sampleRate (snd (start o)) = sampleRate o
  /\ formatId (snd (start o)) = formatId o
  /\ sinks (snd (start o)) = sinks o.
Proof. unfold start. destruct (isStreaming o); repeat split. Qed.

Lemma handleMessage_format {rt : Runtime} (msg : Buffer) (h : jsstring)
    (p now : Z) (o : AooSource) :
  let o' := snd (_handleMessage msg h p now o) in
  channels o' = channels o /\ blockSize o' = blockSize o
  /\ sourceId o' = sourceId o /\ sampleRate o' = sampleRate o
  /\ formatId o' = (if accepted_invite msg then 0 else formatId o)
  /\ (sinks o' = sinks o
      \/ sinks o' = map_set (sinks o) (sink_key h p 1) (new_sink h p 1)).
Proof.
  cbn zeta. unfold _handleMessage, accepted_invite.
  destruct (is_binary msg); [cbn; auto 10|]. simpl negb. cbv iota.
  destruct (0 <? indexOf msg 0 0); [|cbn; auto 10]. simpl andb.
  destruct (includes (toString_ascii msg 0 (indexOf msg 0 0)) (str "/invite")).
  - rewrite handle_invite_effect. simpl snd.
    destruct (_parseOscArgs msg (indexOf msg 0 0)) as [args|e]; [|cbn; auto 10].
    destruct (2 <=? len args); [|cbn; auto 10]. cbv zeta.
    destruct (start_message _ 1).
    + match goal with |- context [start ?x] =>
        destruct (start_fields x) as (_ & -> & -> & -> & -> & -> & ->) end.
      cbn. auto 10.
    + cbn. auto 10.
  - simpl andb.
    destruct (includes (toString_ascii msg 0 (indexOf msg 0 0)) (str "/start")).
    + destruct (handle_start_effect h p msg (indexOf msg 0 0) o) as [E _].
      rewrite E.
      destruct (start_adopt_fields msg (indexOf msg 0 0) h p o) as [F S].
      destruct (start_message _ 1); cbn [snd]; rewrite F; cbn;
        repeat (split; [reflexivity|]); exact S.
    + destruct (includes (toString_ascii msg 0 (indexOf msg 0 0)) (str "/ping"));
        [|cbn; auto 10].
      rewrite sendPong_effect. cbn. auto 10.
Qed.

Lemma updateSampleRate_fields {rt : Runtime} (newRate : Z) (o : AooSource) :
  let o' := snd (updateSampleRate newRate o) in
  o' = set_socket (socket o')
         (set_formatId (if sampleRate o =? newRate then formatId o
                        else formatId o + 1)
            (set_sampleRate newRate o)).
Proof.
  cbn zeta. unfold updateSampleRate, _setSampleRate.
  destruct (sampleRate o =? newRate) eqn:E; cbn [negb].
  - apply Z.eqb_eq in E. subst newRate.
    destruct (negb (_startSent o)); now destruct o.
  - destruct (negb (_startSent o)); [reflexivity|].
    cbv beta iota delta [mbind modify]. rewrite start_each_fields at 1.
    reflexivity.
Qed.

Lemma sendAudio_format {rt : Runtime} (fuel : nat) (left right : list jsval)
    (rate : option Z) (o : AooSource) (res : result unit) (o' : AooSource) :
  sendAudio fuel left right rate o = Some (res, o') ->
  channels o' = channels o /\ blockSize o' = blockSize o
  /\ sampleRate o' = sampleRate (announced_state rate o)
  /\ formatId o' = formatId (announced_state rate o).
Proof.
  unfold sendAudio, announced_state.
  destruct (isStreaming o) eqn:Hstr; cbn [negb andb].
  - assert (Ha : exists b s,
               snd (announce rate o)
               = set_startSent b
                   (set_socket s
                      (if negb (_startSent o) then rate_applied rate o else o))).
    { destruct (_startSent o) eqn:Hs; cbn [negb].
      - rewrite announce_sent by exact Hs. exists true, (socket o).
        cbn [snd]. destruct o; cbn in *. now subst.
      - rewrite announce_unfold by exact Hs.
        unfold _sendStartToAllSinks, mbind, modify.
        pose proof (start_each_fields (sinks (rate_applied rate o))
                      (rate_applied rate o)) as Hf.
        destruct (start_each _ _) as [[[]|e] o2]; cbn [snd] in *.
        + exists true, (socket o2). now rewrite Hf at 1.
        + exists false, (socket o2). rewrite Hf at 1.
          rewrite (rate_applied_fields rate o). destruct o; cbn in *. now subst. }
    destruct Ha as (b & s & Ha).
    destruct (announce rate o) as [[[]|e] o1]; cbn [snd] in Ha.
    + intros H. apply drain_spec in H.
      destruct H as (blocks & new & _ & _ & _ & Hframe & _).
      unfold drain_frame in Hframe. rewrite Hframe, Ha.
      destruct (negb (_startSent o)); [rewrite rate_applied_fields|];
        repeat split.
    + intros H. inversion H; subst res o'. rewrite Ha.
      destruct (negb (_startSent o)); [rewrite rate_applied_fields|];
        repeat split.
  - intros H. inversion H; subst res o'. repeat split.
Qed.

(** X6 (updateSampleRate, lines 205-220; sendAudio, lines 240-243;
    _handleMessage, lines 526-528; start, stop, addSink): how each operation
    acts on the format.  No operation changes the channel count or the block
    size.  [updateSampleRate] always leaves the requested rate in place, even
    when it raises, and bumps the format id exactly when the rate differs.
    [sendAudio] changes rate and format id only through its rate argument on
    a streaming source that has not announced itself.  An inbound datagram
    never changes the rate and resets the format id to 0 exactly when it is an
    accepted /invite.  [start], [stop] and [addSink] change neither (so a
    restart keeps the format id). *)
Theorem format_evolution {rt : Runtime} (fuel : nat) (c : op) (o : AooSource)
    (res : result unit) (o' : AooSource) :
  step fuel c o = Some (res, o') ->
  channels o' = channels o /\ blockSize o' = blockSize o
  /\ match c with
     | OpUpdateSampleRate r =>
         sampleRate o' = r
         /\ formatId o' = (if sampleRate o =? r then formatId o
                           else formatId o + 1)
     | OpSendAudio _ _ rate =>
         sampleRate o' = sampleRate (announced_state rate o)
         /\ formatId o' = formatId (announced_state rate o)
     | OpMessage msg _ _ _ =>
         sampleRate o' = sampleRate o
         /\ formatId o' = (if accepted_invite msg then 0 else formatId o)
     | OpAddSink _ _ _ | OpStart | OpStop =>
         sampleRate o' = sampleRate o /\ formatId o' = formatId o
     end.
Proof.
  intros Hstep.
  destruct c as [h p id | | | newRate | l r rate | msg h p now];
    cbn [step] in Hstep.
  - apply some_pair_snd in Hstep. subst o'. repeat split.
  - apply some_pair_snd in Hstep. subst o'.
    destruct (start_fields o) as (_ & -> & -> & _ & -> & -> & _). repeat split.
  - apply some_pair_snd in Hstep. subst o'. repeat split.
  - apply some_pair_snd in Hstep. subst o'.
    rewrite updateSampleRate_fields. repeat split.
  - apply sendAudio_format in Hstep. tauto.
  - apply some_pair_snd in Hstep. subst o'.
    destruct (handleMessage_format msg h p now o) as (-> & -> & _ & -> & -> & _).
    repeat split.
Qed.

Lemma format_evolution_witness :
  sampleRate (snd (@updateSampleRate test_runtime 3000000000 announced_source))
  = 3000000000
  /\ formatId (snd (@updateSampleRate test_runtime 3000000000 announced_source))
     = 1.
Proof.
  destruct (@format_evolution test_runtime 0 (OpUpdateSampleRate 3000000000)
              announced_source _ _ eq_refl) as (_ & _ & H1 & H2).
  split; [exact H1 | exact H2].
Defined.

(** ** The registry along a run *)

Lemma registry_ok_set {rt : Runtime} (m : list (jsstring * Sink))
    (h : jsstring) (p id : Z) :
  registry_ok m -> registry_ok (map_set m (sink_key h p id) (new_sink h p id)).
Proof.
  intros [Hn Hf]. split; [now apply map_set_NoDup|].
  apply map_set_Forall; [exact Hf|]. split; reflexivity.
Qed.

Lemma step_sinks {rt : Runtime} (fuel : nat) (c : op) (o : AooSource)
    (res : result unit) (o' : AooSource) :
  step fuel c o = Some (res, o') ->
  sinks o' = sinks o
  \/ exists h p id, sinks o' = map_set (sinks o) (sink_key h p id) (new_sink h p id).
Proof.
  intros Hstep.
  destruct c as [h p id | | | newRate | l r rate | msg h p now];
    cbn [step] in Hstep.
  - apply some_pair_snd in Hstep. subst o'. right. now exists h, p, id.
  - apply some_pair_snd in Hstep. subst o'. left. apply start_fields.
  - apply some_pair_snd in Hstep. subst o'. now left.
  - apply some_pair_snd in Hstep. subst o'. left.
    now rewrite updateSampleRate_fields.
  - apply sendAudio_spec in Hstep.
    destruct Hstep as (ann & blocks & frames & _ & _ & _ & _ & _ & _ & _ & H & _).
    now left.
  - apply some_pair_snd in Hstep. subst o'.
    destruct (handleMessage_format msg h p now o) as (_ & _ & _ & _ & _ & [H | H]);
      [now left | right; now exists h, p, 1].
Qed.

Lemma registry_all_active {rt : Runtime} (m : list (jsstring * Sink)) :
  registry_ok m -> filter active (map snd m) = map snd m.
Proof.
  intros [_ Hf]. induction Hf as [|[k s] m [_ Ha] _ IH]; [reflexivity|].
  cbn [map snd filter] in *. rewrite Ha. now f_equal.
Qed.

(** X7 (constructor, line 86; addSink, lines 131-134; _handleMessage, lines
    529 and 545-548): in every state reached from a new [AooSource] by any
    sequence of operations, whether they raise or not, the registry holds at
    most one entry per key, every entry sits under the key made of its own
    host, port and id, and every entry is active, so the /start broadcast
    skips no sink; the sequence counter is in [0, 0x7FFFFFFF).  No operation
    ever removes a key from the registry. *)
Theorem reachable_invariants {rt : Runtime} (fuel : nat) (ops : list op)
    (options : Options) (now : Z) (o : AooSource) :
  run fuel ops (constructor options now) = Some o ->
  registry_ok (sinks o)
  /\ filter active (map snd (sinks o)) = map snd (sinks o)
  /\ 0 <= sequence o < M31
  /\ (forall c res o',
        step fuel c o = Some (res, o') ->
        forall k, map_has (sinks o) k = true -> map_has (sinks o') k = true).
Proof.
  intros Hrun.
  assert (Hinv : registry_ok (sinks o) /\ 0 <= sequence o < M31).
  { assert (H0 : registry_ok (sinks (constructor options now))
                 /\ 0 <= sequence (constructor options now) < M31).
    { split; [split; constructor|]. cbn. unfold M31. lia. }
    revert Hrun H0. generalize (constructor options now). clear options now.
    induction ops as [|c ops IH]; intros o0 Hrun H0; cbn [run] in Hrun.
    - now inversion Hrun; subst.
    - destruct (step fuel c o0) as [[res o1]|] eqn:Hstep; [|discriminate].
      apply (IH o1 Hrun). destruct H0 as [Hreg Hseq]. split.
      + destruct (step_sinks _ _ _ _ _ Hstep) as [E | (h & p & id & E)];
          rewrite E; [exact Hreg | now apply registry_ok_set].
      + now apply (step_sequence _ _ _ _ _ Hseq Hstep). }
  destruct Hinv as [Hreg Hseq].
  split; [exact Hreg|]. split; [now apply registry_all_active|].
  split; [exact Hseq|].
  intros c res o' Hstep k Hk.
  destruct (step_sinks _ _ _ _ _ Hstep) as [E | (h & p & id & E)]; rewrite E;
    [exact Hk | now apply map_has_set].
Qed.

Lemma reachable_invariants_witness :
  exists o,
    @run test_runtime 9
      [OpAddSink (str "127.0.0.1") 9999 1; OpAddSink (str "127.0.0.1") 9999 1;
       OpStart; OpSendAudio [num 1] [num 2] None;
       OpMessage (osc "/aoo/src/1/start" [arg "i" (JInt 1); arg "i" (JInt 5)])
         (str "10.0.0.5") 7000 5]
      (constructor default_options 1234) = Some o
    /\ length (sinks o) = 2%nat
    /\ @registry_ok test_runtime (sinks o).
Proof.
  eexists. split; [vm_compute; reflexivity|]. split; [reflexivity|].
  eapply (@reachable_invariants test_runtime 9
            [OpAddSink (str "127.0.0.1") 9999 1; OpAddSink (str "127.0.0.1") 9999 1;
             OpStart; OpSendAudio [num 1] [num 2] None;
             OpMessage (osc "/aoo/src/1/start" [arg "i" (JInt 1); arg "i" (JInt 5)])
               (str "10.0.0.5") 7000 5]
            default_options 1234).
  vm_compute. reflexivity.
Defined.

(** ** Alignment of encoded messages *)

(** Only a BigInt gets through [writeBigUInt64BE]. *)
Lemma writeBigUInt64BE_value_ok {rt : Runtime} (v : jsval) (b : Buffer) :
  writeBigUInt64BE_value v = Ok b ->
  exists n, v = JBigInt n /\ writeBigUInt64BE n = Ok b.
Proof.
  unfold writeBigUInt64BE_value.
  destruct v as [| | c |[| c |m e]| s | blob | n]; try discriminate.
  - destruct (_ || _); discriminate.
  - destruct (StringToBigInt s) as [n|]; [destruct (_ || _)|]; discriminate.
  - destruct (StringToBigInt (utf8Slice blob)) as [n|];
      [destruct (_ || _)|]; discriminate.
  - intros H. now exists n.
Qed.

Lemma alloc_write_ascii_length (size : Z) (s : jsstring) :
  0 <= size -> len (alloc_write_ascii size s) = size.
Proof.
  intros H. unfold alloc_write_ascii, len.
  rewrite length_app, repeat_length.
  pose proof (firstn_le_length (Z.to_nat size) (map (fun c => c mod 256) s)).
  lia.
Qed.

Lemma ceil4_succ_pos (x : Z) : 0 <= x -> 4 <= ceil4 (x + 1) /\ x < ceil4 (x + 1).
Proof.
  intros H. destruct (ceil4_bounds (x + 1)) as [[H1 H2] H3].
  split; [|lia].
  apply Z.mod_divide in H3; [|lia]. destruct H3 as [k Hk]. lia.
Qed.

Lemma alloc_write_ascii_last (s : jsstring) :
  byte_at (alloc_write_ascii (ceil4 (len s + 1)) s) (ceil4 (len s + 1) - 1) = 0.
Proof.
  destruct (ceil4_succ_pos (len s) (len_nonneg s)) as [H4 Hlt].
  unfold alloc_write_ascii, byte_at.
  set (size := ceil4 (len s + 1)) in *.
  assert (Hb : firstn (Z.to_nat size) (map (fun c => c mod 256) s)
               = map (fun c => c mod 256) s).
  { apply firstn_all2. rewrite length_map. unfold len in Hlt. lia. }
  rewrite Hb, length_map.
  rewrite app_nth2 by (rewrite length_map; unfold len in Hlt; lia).
  rewrite length_map. apply nth_repeat.
Qed.

Lemma encode_arg_aligned {rt : Runtime} (a : oscarg) (b : Buffer) :
  encode_arg a = Ok b -> len b mod 4 = 0.
Proof.
  unfold encode_arg.
  destruct (jsstring_eqb (type a) (str "i")).
  { intros H. apply writeInt32BE_length in H. unfold len. now rewrite H. }
  destruct (jsstring_eqb (type a) (str "s")).
  { destruct (value a); try discriminate. intros H. injection H as <-.
    rewrite alloc_write_ascii_length.
    - apply ceil4_bounds.
    - pose proof (ceil4_succ_pos (len s) (len_nonneg s)). lia. }
  destruct (jsstring_eqb (type a) (str "b")).
  { destruct (value a) as [| | | | |blob|]; try discriminate.
    destruct (writeInt32BE_Z (len blob)) as [l|e] eqn:E; [|discriminate].
    cbn [bind]. intros H. injection H as <-.
    unfold writeInt32BE_Z in E. apply writeInt32BE_number_length in E.
    rewrite !len_app, len_repeat. unfold len at 1. rewrite E.
    destruct (ceil4_bounds (len blob)) as [[H1 H2] H3].
    replace (Z.of_nat 4 + (len blob + Z.of_nat (Z.to_nat (ceil4 (len blob) - len blob))))
      with (ceil4 (len blob) + 1 * 4) by lia.
    now rewrite Z.mod_add by lia. }
  destruct (jsstring_eqb (type a) (str "t")).
  { intros H. apply writeBigUInt64BE_value_ok in H as (n & _ & H).
    unfold writeBigUInt64BE in H.
    destruct (_ || _); [discriminate|]. injection H as <-.
    reflexivity. }
  intros H. injection H as <-. reflexivity.
Qed.

Lemma encode_args_aligned {rt : Runtime} (args : list oscarg) :
  forall body, encode_args args = Ok body -> len body mod 4 = 0.
Proof.
  induction args as [|a args IH]; cbn [encode_args]; intros body H.
  - injection H as <-. reflexivity.
  - destruct (encode_arg a) as [b|e] eqn:Ea; [|discriminate]. cbn [bind] in H.
    destruct (encode_args args) as [r|e] eqn:Er; [|discriminate]. cbn [bind] in H.
    injection H as <-. rewrite len_app.
    apply encode_arg_aligned in Ea. specialize (IH _ eq_refl).
    rewrite Z.add_mod, Ea, IH by lia. reflexivity.
Qed.

(** X8 (_buildOSCMessage, lines 436-491): whatever the address and the
    arguments, a message that the encoder returns has a length that is a
    multiple of four and at least eight; the address block ends in a NUL and
    the comma of the type tag string sits at the first multiple of four past
    the address, which is where the decoder looks for it. *)
Theorem buildOSCMessage_aligned {rt : Runtime} (address : jsstring)
    (args : list oscarg) (msg : Buffer) :
  _buildOSCMessage address args = Ok msg ->
  len msg mod 4 = 0
  /\ 8 <= len msg
  /\ byte_at msg (ceil4 (len address + 1) - 1) = 0
  /\ byte_at msg (ceil4 (len address + 1)) = 44.
Proof.
  unfold _buildOSCMessage.
  destruct (encode_args args) as [body|e] eqn:Eb; [|discriminate].
  cbn [bind]. intros H.
  apply (f_equal (fun r => match r with Ok m => m | Throw _ => [] end)) in H.
  cbv beta iota zeta in H. subst msg.
  destruct (ceil4_succ_pos (len address) (len_nonneg address)) as [Ha4 Halt].
  destruct (ceil4_succ_pos (len (typeTag args)) (len_nonneg _)) as [Ht4 Htlt].
  pose proof (alloc_write_ascii_length (ceil4 (len address + 1)) address
                ltac:(lia)) as Hla.
  pose proof (alloc_write_ascii_length (ceil4 (len (typeTag args) + 1))
                (typeTag args) ltac:(lia)) as Hlt.
  assert (Hna : length (alloc_write_ascii (ceil4 (len address + 1)) address)
                = Z.to_nat (ceil4 (len address + 1)))
    by (unfold len in Hla at 1; lia).
  split; [|split; [|split]].
  - rewrite !len_app, Hla, Hlt.
    apply encode_args_aligned in Eb.
    destruct (ceil4_bounds (len address + 1)) as [_ H1].
    destruct (ceil4_bounds (len (typeTag args) + 1)) as [_ H2].
    rewrite Z.add_mod, H1 by lia. rewrite (Z.add_mod (ceil4 _)), H2, Eb by lia.
    reflexivity.
  - rewrite !len_app, Hla, Hlt. pose proof (len_nonneg body). lia.
  - unfold byte_at. rewrite app_nth1 by lia.
    apply alloc_write_ascii_last.
  - unfold byte_at. rewrite app_nth2 by lia.
    rewrite Hna, Nat.sub_diag.
    unfold typeTag. change (str ",") with [44]. cbn [app].
    destruct (alloc_write_ascii_head (ceil4 (len (44 :: concat (map type args)) + 1))
                44 (concat (map type args))) as [tl Htl].
    { unfold typeTag in Ht4. change (str ",") with [44] in Ht4. cbn [app] in Ht4.
      lia. }
    rewrite Htl. reflexivity.
Qed.

Lemma buildOSCMessage_aligned_witness :
  exists msg,
    @_buildOSCMessage test_runtime (str "/aoo/sink/1/pong")
      [arg "i" (JInt 1); arg "t" (JBigInt 7); arg "s" (JString (str "abcde"))]
    = Ok msg
    /\ len msg mod 4 = 0 /\ byte_at msg 20 = 44.
Proof.
  eexists. split; [reflexivity|].
  match goal with |- len ?m mod 4 = 0 /\ _ =>
    destruct (@buildOSCMessage_aligned test_runtime (str "/aoo/sink/1/pong")
                [arg "i" (JInt 1); arg "t" (JBigInt 7);
                 arg "s" (JString (str "abcde"))] m eq_refl)
      as (H1 & _ & _ & H2)
  end.
  split; [exact H1 | exact H2].
Defined.

(** ** The decoder on aligned datagrams *)

Lemma find_from_range (val : Z) (l : list Z) :
  forall i, 0 <= i ->
    find_from val l i = -1 \/ i <= find_from val l i < i + len l.
Proof.
  induction l as [|b l IH]; intros i Hi; cbn [find_from]; [now left|].
  rewrite len_cons. pose proof (len_nonneg l).
  destruct (b =? val); [right; lia|].
  destruct (IH (i + 1) ltac:(lia)) as [H1 | H1]; [now left | right; lia].
Qed.

Lemma indexOf_range (buf : Buffer) (val off : Z) :
  indexOf buf val off = -1 \/ 0 <= indexOf buf val off < len buf.
Proof.
  unfold indexOf.
  set (start := if off <? 0
                then (if 0 <=? off + len buf then off + len buf else 0)
                else (if off + 1 <=? len buf then off else -1)).
  destruct ((start <? 0) || (len buf =? 0)) eqn:E; [now left|].
  apply orb_false_iff in E as [E1 E2]. apply Z.ltb_ge in E1.
  destruct (find_from_range val (skipn (Z.to_nat start) buf) start E1)
    as [H | H]; [now left | right].
  assert (Hs : start <= len buf).
  { pose proof (len_nonneg buf). unfold start.
    destruct (off <? 0) eqn:C1; [apply Z.ltb_lt in C1|].
    - destruct (0 <=? off + len buf); lia.
    - destruct (off + 1 <=? len buf) eqn:C2; [apply Z.leb_le in C2|]; lia. }
  assert (Hl : len (skipn (Z.to_nat start) buf) <= len buf - start).
  { unfold len in *. rewrite length_skipn. lia. }
  lia.
Qed.

Lemma parse_tags_count (buf : Buffer) (tags : jsstring) :
  forall off acc args,
    parse_tags buf tags off acc = Ok args ->
    len acc <= len args <= len acc + len tags.
Proof.
  induction tags as [|tag tags IH]; intros off acc args H; cbn [parse_tags] in H.
  - injection H as <-. rewrite len_nil. lia.
  - rewrite len_cons. pose proof (len_nonneg tags).
    destruct (len buf <=? off); [injection H as <-; lia|].
    destruct (tag =? tag_i).
    { destruct (readInt32BE buf off); [|discriminate]. cbn [bind] in H.
      apply IH in H. rewrite len_app, len_cons, len_nil in H. lia. }
    destruct (tag =? tag_f).
    { destruct (readFloatBE buf off); [|discriminate]. cbn [bind] in H.
      apply IH in H. rewrite len_app, len_cons, len_nil in H. lia. }
    destruct (tag =? tag_s).
    { apply IH in H. rewrite len_app, len_cons, len_nil in H. lia. }
    destruct (tag =? tag_b).
    { destruct (readInt32BE buf off); [|discriminate]. cbn [bind] in H.
      apply IH in H. rewrite len_app, len_cons, len_nil in H. lia. }
    destruct (tag =? tag_N);
      [apply IH in H; rewrite len_app, len_cons, len_nil in H; lia|].
    destruct (tag =? tag_T);
      [apply IH in H; rewrite len_app, len_cons, len_nil in H; lia|].
    destruct (tag =? tag_F);
      [apply IH in H; rewrite len_app, len_cons, len_nil in H; lia|].
    apply IH in H. lia.
Qed.

Lemma check4_aligned (buf : Buffer) (off : Z) :
  len buf mod 4 = 0 -> off mod 4 = 0 -> 0 <= off < len buf ->
  check4 buf off = true.
Proof.
  intros Hb Ho Hr. unfold check4. apply andb_true_iff.
  split; [apply Z.leb_le; lia|]. apply Z.leb_le.
  apply Z.mod_divide in Hb; [|lia]. apply Z.mod_divide in Ho; [|lia].
  destruct Hb as [k Hk]. destruct Ho as [j Hj]. lia.
Qed.

Lemma parse_tags_aligned (buf : Buffer) (tags : jsstring) :
  len buf mod 4 = 0 ->
  ~ In tag_b tags ->
  forall off acc,
    0 <= off -> off mod 4 = 0 ->
    exists args, parse_tags buf tags off acc = Ok args.
Proof.
  intros Hb. induction tags as [|tag tags IH]; intros Hnb off acc H0 H4;
    cbn [parse_tags]; [eauto|].
  assert (Hrest : ~ In tag_b tags) by (intros Hin; apply Hnb; now right).
  assert (Htag : tag <> tag_b) by (intros ->; apply Hnb; now left).
  specialize (IH Hrest).
  destruct (len buf <=? off) eqn:E; [eauto|]. apply Z.leb_gt in E.
  pose proof (check4_aligned buf off Hb H4 ltac:(lia)) as Hc.
  assert (H4' : (off + 4) mod 4 = 0).
  { replace (off + 4) with (off + 1 * 4) by lia. now rewrite Z.mod_add by lia. }
  destruct (tag =? tag_i).
  { unfold readInt32BE. rewrite Hc. cbn [bind]. apply IH; lia. }
  destruct (tag =? tag_f).
  { unfold readFloatBE. rewrite Hc. cbn [bind]. apply IH; lia. }
  destruct (tag =? tag_s).
  { pose proof (indexOf_range buf 0 off) as Hi.
    destruct (ceil4_bounds (indexOf buf 0 off + 1)) as [[H1 _] H2].
    apply IH; [lia | exact H2]. }
  destruct (tag =? tag_b) eqn:Eb; [apply Z.eqb_eq in Eb; contradiction|].
  destruct (tag =? tag_N); [now apply IH|].
  destruct (tag =? tag_T); [now apply IH|].
  destruct (tag =? tag_F); now apply IH.
Qed.

(** X9 (_parseOscArgs, lines 604-662): the decoder returns at most one value
    per type tag; and on a datagram whose length is a multiple of four and
    whose type tags hold no 'b', it returns normally whatever the bytes are:
    every four-byte read it attempts is in bounds. *)
Theorem parseOscArgs_aligned (buf : Buffer) (addressEnd : Z) :
  (forall args,
      _parseOscArgs buf addressEnd = Ok args ->
      len args <= len (type_tags buf addressEnd))
  /\ (len buf mod 4 = 0 ->
      ~ In tag_b (type_tags buf addressEnd) ->
      exists args, _parseOscArgs buf addressEnd = Ok args).
Proof.
  unfold _parseOscArgs, type_tags. split.
  - intros args H.
    destruct (len buf <=? ceil4 (addressEnd + 1));
      [injection H as <-; apply len_nonneg|].
    destruct (indexOf buf 0 (ceil4 (addressEnd + 1)) =? -1);
      [injection H as <-; apply len_nonneg|].
    apply parse_tags_count in H. rewrite len_nil in H. lia.
  - intros Hb Hnb.
    destruct (len buf <=? ceil4 (addressEnd + 1)); [eauto|].
    destruct (indexOf buf 0 (ceil4 (addressEnd + 1)) =? -1); [eauto|].
    pose proof (indexOf_range buf 0 (ceil4 (addressEnd + 1))) as Hi.
    destruct (ceil4_bounds (indexOf buf 0 (ceil4 (addressEnd + 1)) + 1))
      as [[H1 _] H2].
    apply parse_tags_aligned; [exact Hb | exact Hnb | lia | exact H2].
Qed.

Lemma parseOscArgs_aligned_witness :
  exists args,
    _parseOscArgs (str "/a" ++ [0; 0] ++ str ",is" ++ [0] ++ [1; 2; 3; 4]) 2
    = Ok args.
Proof.
  destruct (parseOscArgs_aligned
              (str "/a" ++ [0; 0] ++ str ",is" ++ [0] ++ [1; 2; 3; 4]) 2)
    as [_ H].
  apply H; [reflexivity|].
  vm_compute. intros [H1 | [H1 | []]]; discriminate.
Defined.

(** ** The reblock field: [sampleRate / 10] written as a 32-bit integer *)

Lemma round_div_10_bounds (a P : Z) :
  0 <= a -> 32 <= P ->
  (a / 10) * P <= round_div (a * P) 10 < (a / 10 + 1) * P
  /\ (a mod 10 = 0 -> round_div (a * P) 10 = (a / 10) * P).
Proof.
  intros Ha HP. unfold round_div.
  pose proof (Z.div_mod a 10 ltac:(lia)) as Hdm.
  pose proof (Z.mod_pos_bound a 10 ltac:(lia)) as Hr.
  set (q := a / 10) in *. set (r := a mod 10) in *.
  replace (a * P) with (r * P + (q * P) * 10) by lia.
  rewrite Z.div_add, Z.mod_add by lia.
  assert (Hd : 0 <= (r * P) / 10 <= P - 2 /\ (r = 0 -> (r * P) / 10 = 0)).
  { split; [split|].
    - apply Z.div_pos; nia.
    - apply Z.div_le_upper_bound; nia.
    - intros ->. reflexivity. }
  assert (Hm : r = 0 -> (r * P) mod 10 = 0).
  { intros ->. reflexivity. }
  destruct Hd as [Hd Hd0].
  destruct ((10 <? 2 * ((r * P) mod 10))
            || (2 * ((r * P) mod 10) =? 10) && Z.odd ((r * P) / 10 + q * P))
    eqn:E.
  - split; [lia|]. intros H0. rewrite (Hm H0) in E. cbn in E. discriminate.
  - split; [lia|]. intros H0. rewrite (Hd0 H0). lia.
Qed.

Lemma number_div10_form (z : Z) :
  z <> 0 -> Z.abs z < 2 ^ 35 ->
  exists k,
    21 <= k
    /\ number_div10 z
       = Fin (if z <? 0 then - round_div (Z.abs z * 2 ^ k) 10
              else round_div (Z.abs z * 2 ^ k) 10) (- k).
Proof.
  intros Hz Ha. unfold number_div10.
  destruct (z =? 0) eqn:E; [apply Z.eqb_eq in E; contradiction|]. clear E.
  set (a := Z.abs z) in *. assert (Hpos : 0 < a) by (unfold a; lia).
  assert (HL : 0 <= Z.log2 a < 35).
  { split; [apply Z.log2_nonneg|]. apply Z.log2_lt_pow2; lia. }
  cbv zeta. cbn [fst snd].
  set (e0 := Z.log2 a - 56).
  match goal with |- context [if ?c then e0 + 1 else e0] =>
    set (e := if c then e0 + 1 else e0) end.
  assert (He : e = e0 \/ e = e0 + 1).
  { unfold e. match goal with |- context [if ?c then _ else _] =>
      destruct c end; auto. }
  exists (- e). split; [unfold e0 in He; lia|].
  rewrite Z.opp_involutive.
  assert (E1 : Z.max 0 (- e) = - e) by (unfold e0 in He; lia).
  assert (E2 : Z.max 0 e = 0) by (unfold e0 in He; lia).
  rewrite E1, E2, Z.pow_0_r, Z.mul_1_r. reflexivity.
Qed.

Lemma number_div10_write (z : Z) :
  -21474836480 <= z <= 21474836470 ->
  writeInt32BE_number (number_div10 z) = Ok (be_bytes32 (Z.quot z 10)).
Proof.
  intros Hr. destruct (Z.eq_dec z 0) as [->|Hz]; [reflexivity|].
  destruct (number_div10_form z Hz) as (k & Hk & ->).
  { change (2 ^ 35) with 34359738368. lia. }
  assert (HP : 32 <= 2 ^ k).
  { change 32 with (2 ^ 5). apply Z.pow_le_mono_r; lia. }
  destruct (round_div_10_bounds (Z.abs z) (2 ^ k) ltac:(lia) HP) as [Hb H0].
  set (m := round_div (Z.abs z * 2 ^ k) 10) in *.
  set (P := 2 ^ k) in *. set (q := Z.abs z / 10) in *.
  assert (Hq : 0 <= q) by (apply Z.div_pos; lia).
  assert (Hdiv : m / P = q).
  { symmetry. apply (Z.div_unique_pos m P q (m - q * P)); lia. }
  unfold writeInt32BE_number, fin_gt, fin_lt, fin_trunc.
  assert (Ek : (0 <=? - k) = false) by (apply Z.leb_gt; lia).
  rewrite !Ek, !Z.opp_involutive. fold P.
  destruct (z <? 0) eqn:Es; [apply Z.ltb_lt in Es | apply Z.ltb_ge in Es].
  - assert (Hq' : q <= 2147483648) by (apply Z.div_le_upper_bound; lia).
    assert (Hm : m <= 2147483648 * P).
    { destruct (Z.eq_dec q 2147483648) as [Eq|Nq].
      - assert (Hz' : Z.abs z = 21474836480).
        { pose proof (Z.div_mod (Z.abs z) 10 ltac:(lia)).
          pose proof (Z.mod_pos_bound (Z.abs z) 10 ltac:(lia)). fold q in H. lia. }
        rewrite H0 by (rewrite Hz'; reflexivity). lia.
      - nia. }
    assert (G1 : (2147483647 * P <? - m) = false) by (apply Z.ltb_ge; nia).
    assert (G2 : (- m <? -2147483648 * P) = false) by (apply Z.ltb_ge; lia).
    rewrite G1, G2. cbn [orb]. do 2 f_equal.
    rewrite Z.quot_opp_l by lia. rewrite Z.quot_div_nonneg by lia. rewrite Hdiv.
    replace z with (- Z.abs z) by lia.
    rewrite Z.quot_opp_l by lia. rewrite Z.quot_div_nonneg by lia. reflexivity.
  - assert (Hq' : q <= 2147483647) by (apply Z.div_le_upper_bound; lia).
    assert (Hm : m <= 2147483647 * P).
    { destruct (Z.eq_dec q 2147483647) as [Eq|Nq].
      - assert (Hz' : Z.abs z = 21474836470).
        { pose proof (Z.div_mod (Z.abs z) 10 ltac:(lia)).
          pose proof (Z.mod_pos_bound (Z.abs z) 10 ltac:(lia)). fold q in H. lia. }
        rewrite H0 by (rewrite Hz'; reflexivity). lia.
      - nia. }
    assert (G1 : (2147483647 * P <? m) = false) by (apply Z.ltb_ge; lia).
    assert (G2 : (m <? -2147483648 * P) = false) by (apply Z.ltb_ge; nia).
    rewrite G1, G2. cbn [orb]. do 2 f_equal.
    rewrite Z.quot_div_nonneg by lia. rewrite Hdiv.
    rewrite Z.quot_div_nonneg by lia. unfold q. now rewrite Z.abs_eq by lia.
Qed.

(** ** The layout of the /start message *)

Lemma dec_ascii7 (z : Z) : ascii7 (dec z).
Proof.
  eapply Forall_impl; [|apply dec_chars]. intros c [-> | H]; lia.
Qed.

Lemma ascii7_app (a b : jsstring) : ascii7 a -> ascii7 b -> ascii7 (a ++ b).
Proof. intros Ha Hb. apply Forall_app. now split. Qed.

Lemma encode_args_cons {rt : Runtime} (a : oscarg) (rest : list oscarg)
    (b r : Buffer) :
  encode_arg a = Ok b -> encode_args rest = Ok r ->
  encode_args (a :: rest) = Ok (b ++ r).
Proof. intros Ha Hr. cbn [encode_args]. now rewrite Ha, Hr. Qed.

Lemma encode_arg_int {rt : Runtime} (z : Z) :
  int32 z -> encode_arg (arg "i" (JInt z)) = Ok (be_bytes32 z).
Proof. intros H. rewrite encode_arg_i_int. now apply writeInt32BE_Z_ok. Qed.

Lemma start_args_encoded {rt : Runtime} (o : AooSource) (v : jsstring)
    (sid : Buffer) :
  int32 (sourceId o) -> int32 (sequence o) -> int32 (formatId o) ->
  int32 (channels o) -> int32 (sampleRate o) -> int32 (blockSize o) ->
  version_string o = Some v ->
  writeInt32BE (streamId o) = Ok sid ->
  encode_args (start_args o) = Ok (start_body o v sid).
Proof.
  intros Hsrc Hseq Hfmt Hch Hsr Hbs Hv Hsid.
  unfold start_args, start_body.
  apply encode_args_cons; [now apply encode_arg_int|].
  apply encode_args_cons.
  { unfold version_string in Hv.
    destruct (if truthy (sinkVersion o) then sinkVersion o else JString (str "2.0"));
      try discriminate.
    injection Hv as ->. reflexivity. }
  apply encode_args_cons; [exact Hsid|].
  apply encode_args_cons; [now apply encode_arg_int|].
  apply encode_args_cons; [now apply encode_arg_int|].
  apply encode_args_cons; [now apply encode_arg_int|].
  apply encode_args_cons; [now apply encode_arg_int|].
  apply encode_args_cons; [now apply encode_arg_int|].
  apply (encode_args_cons _ _ (str "pcm" ++ [0])); [reflexivity|].
  apply (encode_args_cons _ _ (be_bytes32 4 ++ be_bytes32 3)); [reflexivity|].
  apply (encode_args_cons _ _ (be_bytes64 0)); [reflexivity|].
  apply encode_args_cons.
  { change (encode_arg (arg "i" (JNumber (number_div10 (sampleRate o)))))
      with (writeInt32BE_number (number_div10 (sampleRate o))).
    apply number_div10_write. unfold int32 in Hsr. lia. }
  apply encode_args_cons; [reflexivity|].
  apply (encode_args_cons _ _ []); [reflexivity|].
  apply (encode_args_cons _ _ []); [reflexivity|].
  reflexivity.
Qed.

(** X10 (_sendStartOSC, lines 372-397; _makePcmExtension, lines 408-412): the
    wire layout of a /start message.  When the source id, the counters and
    the format fit 32 signed bits, the version is a string and the stream id
    converts to a 32-bit field, the message is the address block (the address
    "/aoo/sink/<id>/start" as the template literal prints the id, written as
    ASCII into a zero-filled block), the padded type tags ",isiiiiiisbtiiNNi"
    and the argument bytes in order; the reblock field holds the sample rate
    divided by ten, truncated.  For a sink id that is a safe integer (below
    2^53 in magnitude) the id is printed in decimal and the address block is
    the address followed by one to four NULs.  When the version is a truthy
    value that is not a string (a decoded integer, say) no /start message can
    be built. *)
Theorem start_message_layout {rt : Runtime} (o : AooSource) (id : Z) :
  (forall v sid,
      int32 (sourceId o) -> int32 (sequence o) -> int32 (formatId o) ->
      int32 (channels o) -> int32 (sampleRate o) -> int32 (blockSize o) ->
      version_string o = Some v ->
      writeInt32BE (streamId o) = Ok sid ->
      let address := str "/aoo/sink/" ++ ToString (JInt id) ++ str "/start" in
      start_message o id
      = Ok (alloc_write_ascii (ceil4 (len address + 1)) address
            ++ str ",isiiiiiisbtiiNNi" ++ [0; 0; 0]
            ++ start_body o v sid)
      /\ (Z.abs id < 2 ^ 53 ->
          start_message o id
          = Ok (padded (str "/aoo/sink/" ++ dec id ++ str "/start")
                ++ str ",isiiiiiisbtiiNNi" ++ [0; 0; 0]
                ++ start_body o v sid)))
  /\ (version_string o = None -> exists e, start_message o id = Throw e).
Proof.
  split.
  - intros v sid Hsrc Hseq Hfmt Hch Hsr Hbs Hv Hsid address.
    assert (Hm : start_message o id
                 = Ok (alloc_write_ascii (ceil4 (len address + 1)) address
                       ++ str ",isiiiiiisbtiiNNi" ++ [0; 0; 0]
                       ++ start_body o v sid)).
    { unfold start_message, _buildOSCMessage.
      rewrite (start_args_encoded o v sid) by assumption. reflexivity. }
    split; [exact Hm|].
    intros Hid. rewrite Hm. unfold address. rewrite (ToString_safe id Hid).
    rewrite alloc_write_ascii_padded; [reflexivity|].
    apply ascii7_app; [|apply ascii7_app; [apply dec_ascii7|]];
      repeat constructor; cbn; lia.
  - intros Hv. unfold start_message, _buildOSCMessage, start_args.
    cbn [encode_args].
    destruct (encode_arg (arg "i" (JInt (sourceId o)))); [|cbn [bind]; eauto].
    cbn [bind].
    assert (Hs : exists e,
               encode_arg
                 (arg "s" (if truthy (sinkVersion o) then sinkVersion o
                           else JString (str "2.0"))) = Throw e).
    { unfold version_string in Hv.
      destruct (if truthy (sinkVersion o) then sinkVersion o else JString (str "2.0"));
        try discriminate; eexists; reflexivity. }
    destruct Hs as [e ->]. cbn [bind]. eauto.
Qed.

Lemma start_message_layout_witness :
  @start_message test_runtime scenario_source 1
  = Ok (padded (str "/aoo/sink/1/start")
        ++ str ",isiiiiiisbtiiNNi" ++ [0; 0; 0]
        ++ start_body scenario_source (str "2.0") (be_bytes32 1234))
  /\ be_bytes32 (Z.quot (sampleRate scenario_source) 10) = [0; 0; 18; 192].
Proof.
  split; [|reflexivity].
  destruct (@start_message_layout test_runtime scenario_source 1) as [H _].
  assert (Hi : forall z, -2147483648 <= z <= 2147483647 -> int32 z)
    by (intros z Hz; exact Hz).
  refine (proj2 (H (str "2.0") (be_bytes32 1234) _ _ _ _ _ _ eq_refl eq_refl)
            eq_refl); apply Hi; cbn; lia.
Defined.

(** ** Sessions that cannot raise *)

Lemma drain_frame_all (o' o : AooSource) :
  drain_frame o' o ->
  channels o' = channels o /\ blockSize o' = blockSize o
  /\ sourceId o' = sourceId o /\ sampleRate o' = sampleRate o
  /\ formatId o' = formatId o /\ streamId o' = streamId o
  /\ sinkVersion o' = sinkVersion o /\ isStreaming o' = isStreaming o
  /\ _startSent o' = _startSent o /\ sinks o' = sinks o.
Proof. unfold drain_frame. intros H. repeat split; rewrite H; reflexivity. Qed.

Lemma healthy_start_message {rt : Runtime} (o : AooSource) :
  healthy o -> forall id, exists m, start_message o id = Ok m.
Proof.
  intros (Hsrc & Hch & Hbs & Hsr & Hfmt & Hseq & [sid Hsid] & Hv & _) id.
  destruct (version_string o) as [v|] eqn:Ev; [|contradiction].
  apply (start_message_encodable o (start_body o v sid)).
  apply start_args_encoded; try assumption. unfold int32, M31 in *. lia.
Qed.

Lemma healthy_ext {rt : Runtime} (o' o : AooSource) :
  sourceId o' = sourceId o -> channels o' = channels o ->
  blockSize o' = blockSize o -> sampleRate o' = sampleRate o ->
  formatId o' = formatId o -> 0 <= sequence o' < M31 ->
  streamId o' = streamId o -> sinkVersion o' = sinkVersion o ->
  healthy o -> healthy o'.
Proof.
  unfold healthy, version_string. intros -> -> -> -> -> Hq -> ->.
  intros (Hsrc & Hch & Hbs & Hsr & Hfmt & _ & Hrest).
  repeat (split; [assumption|]). exact Hrest.
Qed.

Lemma rate_applied_healthy {rt : Runtime} (rate : option Z) (o : AooSource) :
  healthy o -> rate_ok rate o -> healthy (rate_applied rate o).
Proof.
  intros H Hr. unfold rate_applied. destruct rate as [r|]; [|exact H].
  destruct (negb (r =? 0) && negb (r =? sampleRate o)); [|exact H].
  destruct Hr as [Hr Hf].
  destruct H as (Hsrc & Hch & Hbs & Hsr & Hfmt & Hseq & Hsid & Hv & H1 & H2).
  unfold healthy, version_string in *. cbn. unfold int32 in *.
  repeat split; try assumption; try lia.
Qed.

(** X11 (sendAudio, lines 236-263; _sendBlock, lines 274-292; _sendStartOSC,
    lines 372-397): on a streaming source whose integer fields fit 32 signed
    bits, whose stream id converts to a 32-bit field, whose version is a
    string, whose blocks are not empty and fit the 16-bit length field, and
    whose buffered samples are not BigInts, [sendAudio] with samples that are
    not BigInts returns normally (given a rate argument, if any, that fits
    32 bits), leaves fewer samples than one block in the buffer, has
    announced the stream, and leaves the source in the same condition: a
    whole session of such calls never raises and never loops. *)
Theorem sendAudio_healthy {rt : Runtime} (fuel : nat) (left right : list jsval)
    (rate : option Z) (o : AooSource) :
  healthy o ->
  Forall numeric (sampleBuffer o) ->
  Forall numeric (interleave left right) ->
  isStreaming o = true ->
  rate_ok rate o ->
  (length (sampleBuffer o) + 2 * length left <= fuel)%nat ->
  exists o',
    sendAudio fuel left right rate o = Some (Ok tt, o')
    /\ healthy o'
    /\ Forall numeric (sampleBuffer o')
    /\ isStreaming o' = true
    /\ _startSent o' = true
    /\ len (sampleBuffer o') < blockSize o * channels o.
Proof.
  intros Hh Hnb Hnp Hs Hr Hfuel.
  assert (Ha : exists o1,
             announce rate o = (Ok tt, o1)
             /\ healthy o1 /\ sequence o1 = sequence o).
  { destruct (_startSent o) eqn:Hsent.
    - exists o. split; [now apply announce_sent | now split].
    - destruct (announce_run rate o Hsent) as (dgs & Hrun & _).
      { apply healthy_start_message. now apply rate_applied_healthy. }
      eexists. split; [exact Hrun|].
      pose proof (rate_applied_healthy rate o Hh Hr) as Hh1.
      split.
      + revert Hh1. apply healthy_ext; try reflexivity.
        cbn. rewrite rate_applied_fields. apply Hh.
      + cbn. now rewrite rate_applied_fields. }
  destruct Ha as (o1 & Ha & Hh1 & Hseq1).
  destruct Hh as (Hsrc & Hch & Hbs & Hsr & Hfmt & Hseq & Hsid & Hv & H1 & H2).
  assert (Hnum : Forall numeric (sampleBuffer o ++ interleave left right))
    by (apply Forall_app; now split).
  destruct (sendAudio_call_spec fuel left right rate o o1 Hs H1) as
    (o' & blocks & new & Hrun & _ & _ & Hseq' & Hbuf & _ & Hlt & Hframe);
    [split; [exact Hsid | split; [exact Hseq | exact H2]]
    | exact Ha | exact Hnum | exact Hfuel |].
  exists o'. split; [exact Hrun|].
  destruct (drain_frame_all _ _ Hframe)
    as (Ec & Eb & Es & Er & Ef & Ei & Ev & Et & En & _).
  pose proof (announce_same_stream rate o) as Hsame. rewrite Ha in Hsame.
  destruct Hsame as (_ & _ & _ & _ & _ & _ & Hst & _). cbn [snd] in Hst.
  split; [|split; [|split; [congruence|split; [|exact Hlt]]]].
  - revert Hh1. apply healthy_ext; try assumption.
    rewrite Hseq', iter_next_sequence by exact Hseq.
    apply Z.mod_pos_bound. unfold M31. lia.
  - rewrite Hbuf in Hnum. apply Forall_app in Hnum. apply Hnum.
  - rewrite En. eapply announce_ok_startSent. exact Ha.
Qed.

Lemma sendAudio_healthy_witness :
  exists o',
    @sendAudio test_runtime 10
      [num 1; num 2; num 3; num 4; num 5] [num 6; num 7; num 8; num 9; num 10]
      (Some 44100) scenario_source = Some (Ok tt, o')
    /\ @healthy test_runtime o'
    /\ len (sampleBuffer o') < 8.
Proof.
  destruct (@sendAudio_healthy test_runtime 10
              [num 1; num 2; num 3; num 4; num 5]
              [num 6; num 7; num 8; num 9; num 10] (Some 44100) scenario_source)
    as (o' & H1 & H2 & _ & _ & _ & H3).
  - unfold healthy, int32, M31. cbn.
    repeat split; try lia; try discriminate. eexists. reflexivity.
  - constructor.
  - vm_compute. repeat constructor.
  - reflexivity.
  - unfold rate_ok, int32. cbn. lia.
  - cbn. lia.
  - exists o'. split; [exact H1 | split; [exact H2 | exact H3]].
Defined.

(** X12 (constructor, lines 74-118): whatever the clock reads, a new source
    has a stream id in [0, 0x7FFFFFFF], sequence and format counters at zero,
    the version "2.0", no sinks, no buffered samples, nothing sent or
    announced, and is not streaming.  Each of the five options, when absent
    or zero, takes its default (2 channels, 48000 Hz, blocks of 256, source
    id 1, port 9998), and is kept as given otherwise.  When its
    channel count, block size, sample rate and source id fit 32 signed bits
    and a block is not empty and fits a frame, the new source is in the
    condition in which no /start message and no frame can fail to encode. *)
Theorem constructor_healthy {rt : Runtime} (options : Options) (now : Z) :
  let o := constructor options now in
  (exists s, streamId o = JInt s /\ 0 <= s <= 2147483647)
  /\ sinks o = [] /\ socket o = [] /\ isStreaming o = false
  /\ sequence o = 0 /\ formatId o = 0 /\ sinkVersion o = JString (str "2.0")
  /\ _startSent o = false /\ sampleBuffer o = []
  /\ (opt_channels options = None \/ opt_channels options = Some 0 ->
      channels o = 2)
  /\ (forall v, opt_channels options = Some v -> v <> 0 -> channels o = v)
  /\ (opt_sampleRate options = None \/ opt_sampleRate options = Some 0 ->
      sampleRate o = 48000)
  /\ (forall v, opt_sampleRate options = Some v -> v <> 0 -> sampleRate o = v)
  /\ (opt_blockSize options = None \/ opt_blockSize options = Some 0 ->
      blockSize o = 256)
  /\ (forall v, opt_blockSize options = Some v -> v <> 0 -> blockSize o = v)
  /\ (opt_sourceId options = None \/ opt_sourceId options = Some 0 ->
      sourceId o = 1)
  /\ (forall v, opt_sourceId options = Some v -> v <> 0 -> sourceId o = v)
  /\ (opt_localPort options = None \/ opt_localPort options = Some 0 ->
      localPort o = 9998)
  /\ (forall v, opt_localPort options = Some v -> v <> 0 -> localPort o = v)
  /\ (int32 (sourceId o) -> int32 (channels o) -> int32 (blockSize o) ->
      int32 (sampleRate o) ->
      1 <= blockSize o * channels o ->
      4 * (blockSize o * channels o) <= 65535 ->
      healthy o).
Proof.
  cbn zeta.
  assert (Hs : 0 <= Z.land now 2147483647 <= 2147483647).
  { change 2147483647 with (Z.ones 31) at 1 2. rewrite Z.land_ones by lia.
    pose proof (Z.mod_pos_bound now (2 ^ 31) ltac:(lia)).
    change (2 ^ 31) with 2147483648 in *. lia. }
  assert (Hd : forall opt d, opt = None \/ opt = Some 0 -> or_default opt d = d).
  { intros opt d [-> | ->]; reflexivity. }
  assert (Hk : forall opt d v, opt = Some v -> v <> 0 -> or_default opt d = v).
  { intros opt d v -> Hv. unfold or_default.
    apply Z.eqb_neq in Hv. now rewrite Hv. }
  split; [eexists; split; [reflexivity | exact Hs]|].
  do 8 (split; [reflexivity|]).
  do 5 (split; [apply Hd|]; split; [apply Hk|]).
  intros Hsrc Hch Hbs Hsr H1 H2. unfold healthy.
  repeat (split; [assumption|]).
  split; [unfold int32; cbn; lia|].
  split; [cbn; unfold M31; lia|].
  split.
  { exists (be_bytes32 (Z.land now 2147483647)).
    apply writeInt32BE_Z_ok. lia. }
  split; [discriminate|]. split; assumption.
Qed.

Lemma constructor_healthy_witness :
  channels (constructor scenario_options (-5)) = 2
  /\ blockSize (constructor scenario_options (-5)) = 4
  /\ sourceId (constructor scenario_options (-5)) = 1
  /\ @healthy test_runtime (constructor scenario_options (-5)).
Proof.
  destruct (@constructor_healthy test_runtime scenario_options (-5))
    as (_ & _ & _ & _ & _ & _ & _ & _ & _ & _ & Hc & _ & _ & _ & Hb & Hs & _
        & _ & _ & H).
  split; [apply (Hc 2); [reflexivity | discriminate]|].
  split; [apply (Hb 4); [reflexivity | discriminate]|].
  split; [apply Hs; now left|].
  apply H; unfold int32; cbn; lia.
Defined.

(** ** Errors that leave the dispatcher *)

(** X13 (_handleMessage, lines 509-556; _sendPong, lines 571-588): the only
    error that can leave the dispatcher is a failure to build the /start
    reply of the /start branch.  Binary frames, malformed datagrams, unknown
    addresses, /invite and /ping datagrams are always handled without an
    error, whatever they hold; and when the error occurs the assignments of
    the /start branch have been made and nothing has been sent. *)
Theorem handleMessage_raises {rt : Runtime} (msg : Buffer) (h : jsstring)
    (p now : Z) (o : AooSource) (e : exn) :
  fst (_handleMessage msg h p now o) = Throw e ->
  is_binary msg = false
  /\ 0 < indexOf msg 0 0
  /\ includes (address_of msg) (str "/invite") = false
  /\ includes (address_of msg) (str "/start") = true
  /\ start_message (start_adopt msg (indexOf msg 0 0) h p o) 1 = Throw e
  /\ snd (_handleMessage msg h p now o) = start_adopt msg (indexOf msg 0 0) h p o
  /\ socket (snd (_handleMessage msg h p now o)) = socket o.
Proof.
  unfold _handleMessage, address_of.
  destruct (is_binary msg); [discriminate|].
  destruct (0 <? indexOf msg 0 0) eqn:En; [|discriminate].
  apply Z.ltb_lt in En.
  destruct (includes (toString_ascii msg 0 (indexOf msg 0 0)) (str "/invite")).
  { rewrite handle_invite_effect. discriminate. }
  destruct (includes (toString_ascii msg 0 (indexOf msg 0 0)) (str "/start")).
  - destruct (handle_start_effect h p msg (indexOf msg 0 0) o) as [E S].
    rewrite E.
    destruct (start_message (start_adopt msg (indexOf msg 0 0) h p o) 1)
      as [m|e']; [discriminate|].
    cbn [fst snd]. intros H. injection H as ->. repeat split; auto.
  - destruct (includes (toString_ascii msg 0 (indexOf msg 0 0)) (str "/ping"));
      [rewrite sendPong_effect|]; discriminate.
Qed.

Lemma handleMessage_raises_witness :
  @start_message test_runtime
    (@start_adopt test_runtime (osc "/aoo/src/1/start" [arg "i" (JInt 1); arg "i" (JInt 5)])
       16 (str "10.0.0.5") 7000 source0) 1
  = Throw ERR_OUT_OF_RANGE_value.
Proof.
  apply (@handleMessage_raises test_runtime
           (osc "/aoo/src/1/start" [arg "i" (JInt 1); arg "i" (JInt 5)])
           (str "10.0.0.5") 7000 5 source0 ERR_OUT_OF_RANGE_value eq_refl).
Defined.

(** ** Blocks go to every sink or to none *)

Lemma Forall2_In_left {A B} (R : A -> B -> Prop) (l : list A) (l' : list B)
    (x : A) :
  Forall2 R l l' -> In x l -> exists y, In y l' /\ R x y.
Proof.
  induction 1 as [|a b l l' Hab _ IH]; intros Hin; [destruct Hin|].
  destruct Hin as [<- | Hin].
  - exists b. split; [now left | exact Hab].
  - destruct (IH Hin) as (y & Hy & Hr). exists y. split; [now right | exact Hr].
Qed.

(** X14 (_sendBlock, lines 274-292): a block is sent to all sinks or to none.
    The samples are converted first: when none of them is a BigInt the
    conversion gives four bytes per sample, and when one of them is a BigInt
    [_sendBlock] raises a TypeError before anything is sent and the counter
    keeps its value.  With the samples converted, when a frame can be built
    for every registered sink, each sink, active or not, receives exactly one
    frame, in registry order, at its own host and port, and the sequence
    counter advances (with no sink registered the block is dropped and the
    counter still advances).  When the frame for some sink cannot be built,
    [_sendBlock] raises before anything is sent and the counter keeps its
    value. *)
Theorem sendBlock_all_or_nothing {rt : Runtime} (samples : list jsval)
    (o : AooSource) :
  (forall audio,
      audioBytes samples = Ok audio ->
      (forall s, In s (map snd (sinks o)) ->
         exists m, _buildDataMessage o s audio = Ok m) ->
      exists dgs,
        _sendBlock samples o
        = (Ok tt,
           set_sequence (next_sequence (sequence o))
             (set_socket (socket o ++ dgs) o))
        /\ length dgs = length (sinks o)
        /\ Forall2 (frame_for o (sequence o) samples) (map snd (sinks o)) dgs)
  /\ (forall audio s e,
        audioBytes samples = Ok audio ->
        In s (map snd (sinks o)) ->
        _buildDataMessage o s audio = Throw e ->
        exists e', _sendBlock samples o = (Throw e', o))
  /\ (forall e, audioBytes samples = Throw e ->
        _sendBlock samples o = (Throw e, o))
  /\ (Forall numeric samples ->
      exists audio, audioBytes samples = Ok audio /\ len audio = 4 * len samples)
  /\ (~ Forall numeric samples -> _sendBlock samples o = (Throw TypeError, o)).
Proof.
  split; [|split; [|split; [|split]]].
  - intros audio Ha Hall.
    destruct (sendBlock_spec samples o) as [(dgs & Hrun & Hf) | [e Hrun]].
    + exists dgs. split; [exact Hrun|]. split; [|exact Hf].
      apply Forall2_length in Hf. rewrite length_map in Hf. now symmetry.
    + exfalso.
      destruct (data_each_ok audio (sinks o) o Hall) as (dgs & Hd & _).
      rewrite sendBlock_unfold, Ha in Hrun.
      cbv beta iota delta [mbind modify] in Hrun.
      rewrite Hd in Hrun. discriminate.
  - intros audio s e Ha Hin Hthrow.
    destruct (sendBlock_spec samples o) as [(dgs & Hrun & Hf) | Hrun];
      [exfalso | exact Hrun].
    destruct (Forall2_In_left _ _ _ _ Hf Hin) as (d & _ & Hfr).
    destruct Hfr as (Hb & _). rewrite Ha in Hb. cbn [bind] in Hb.
    destruct (buildDataMessage_all_sinks _ _ s _ _ Hb) as [m Hm].
    assert (Hsame : _buildDataMessage (set_sequence (sequence o) o) s audio
                    = _buildDataMessage o s audio)
      by (apply buildDataMessage_ext; reflexivity).
    rewrite Hsame in Hm. congruence.
  - intros e Ha. now rewrite sendBlock_unfold, Ha.
  - intros Hn. destruct (audioBytes_numeric samples Hn) as [audio Ha].
    exists audio. split; [exact Ha|]. now apply writeFloatBE_all_length.
  - intros Hn. now rewrite sendBlock_unfold, (audioBytes_bigint samples Hn).
Qed.

Lemma sendBlock_all_or_nothing_witness :
  (exists e,
      @_sendBlock test_runtime [num 0] float_token_source
      = (Throw e, float_token_source))
  /\ @_sendBlock test_runtime [num 0; JBigInt 1] scenario_source
     = (Throw TypeError, scenario_source).
Proof.
  destruct (@sendBlock_all_or_nothing test_runtime [num 0] float_token_source)
    as (_ & H & _).
  destruct (@sendBlock_all_or_nothing test_runtime
              [num 0; JBigInt 1] scenario_source)
    as (_ & _ & _ & _ & Hbig).
  split.
  - apply (H [0; 0; 0; 0] sink1 ERR_OUT_OF_RANGE_value).
    + reflexivity.
    + vm_compute. left. reflexivity.
    + vm_compute. reflexivity.
  - apply Hbig. intros Hn. inversion Hn as [|x l _ Hl]. subst.
    inversion Hl as [|y l' Hy _]. exact Hy.
Defined.

(** ** The block loop at its edges *)

Lemma drain_no_sinks_diverges {rt : Runtime} (spb : Z) (fuel : nat) :
  forall o, spb <= 0 -> sinks o = [] -> drain fuel spb o = None.
Proof.
  induction fuel as [|f IH]; intros o Hspb Hsinks; cbn [drain];
    pose proof (len_nonneg (sampleBuffer o)) as Hl;
    (destruct (spb <=? len (sampleBuffer o)) eqn:E;
     [|apply Z.leb_gt in E; lia]); [reflexivity|].
  replace (Z.to_nat spb) with 0%nat by lia. cbn [firstn skipn].
  rewrite sendBlock_unfold. cbn [audioBytes].
  cbv beta iota delta [mbind modify].
  cbn [sinks set_sampleBuffer]. rewrite Hsinks. cbn [data_each ret].
  apply IH; [exact Hspb | exact Hsinks].
Qed.

Lemma announce_no_sinks {rt : Runtime} (rate : option Z) (o : AooSource) :
  sinks o = [] -> fst (announce rate o) = Ok tt.
Proof.
  intros Hs. destruct (_startSent o) eqn:E.
  - now rewrite announce_sent.
  - rewrite announce_unfold by exact E.
    unfold _sendStartToAllSinks, mbind, modify.
    assert (H : sinks (rate_applied rate o) = []).
    { rewrite rate_applied_fields. exact Hs. }
    rewrite H. reflexivity.
Qed.

(** X15 (sendAudio, lines 258-262): whenever [sendAudio] returns normally on
    a streaming source, fewer samples than one block are left in the buffer.
    So with a block length [blockSize * channels] that is not positive (a
    negative option, say) a call on a streaming source never returns
    normally: it raises or its loop does not end; and with no sink
    registered it does not end, whatever the number of iterations allowed. *)
Theorem sendAudio_block_loop {rt : Runtime} (left right : list jsval)
    (rate : option Z) (o : AooSource) :
  isStreaming o = true ->
  (forall fuel o',
      sendAudio fuel left right rate o = Some (Ok tt, o') ->
      len (sampleBuffer o') < blockSize o * channels o)
  /\ (blockSize o * channels o <= 0 ->
      forall fuel o', sendAudio fuel left right rate o <> Some (Ok tt, o'))
  /\ (blockSize o * channels o <= 0 -> sinks o = [] ->
      forall fuel, sendAudio fuel left right rate o = None).
Proof.
  intros Hs.
  assert (Hlt : forall fuel o',
             sendAudio fuel left right rate o = Some (Ok tt, o') ->
             len (sampleBuffer o') < blockSize o * channels o).
  { intros fuel o' H. unfold sendAudio in H. rewrite Hs in H. cbn [negb] in H.
    pose proof (announce_same_stream rate o) as Hsame.
    destruct (announce rate o) as [[[]|e] o1]; [|discriminate].
    destruct Hsame as (Hc & Hb & _). cbn [snd] in Hc, Hb.
    apply drain_spec in H.
    destruct H as (blocks & new & _ & _ & _ & _ & Hok).
    destruct (Hok eq_refl) as (_ & _ & H).
    unfold push_samples in H. cbn [blockSize channels set_sampleBuffer] in H.
    now rewrite Hb, Hc in H. }
  split; [exact Hlt|]. split.
  - intros Hspb fuel o' H. apply Hlt in H.
    pose proof (len_nonneg (sampleBuffer o')). lia.
  - intros Hspb Hsinks fuel. unfold sendAudio. rewrite Hs. cbn [negb].
    pose proof (announce_same_stream rate o) as Hsame.
    pose proof (announce_no_sinks rate o Hsinks) as Hok.
    destruct (announce rate o) as [[[]|e] o1]; [|discriminate].
    destruct Hsame as (Hc & Hb & _ & Hk & _). cbn [snd] in Hc, Hb, Hk.
    apply drain_no_sinks_diverges.
    + unfold push_samples. cbn [blockSize channels set_sampleBuffer].
      now rewrite Hb, Hc.
    + unfold push_samples. cbn [sinks set_sampleBuffer]. now rewrite Hk.
Qed.

Lemma sendAudio_block_loop_witness :
  blockSize negative_block_source * channels negative_block_source = -256
  /\ @sendAudio test_runtime 1000 [] [] None negative_block_source = None.
Proof.
  split; [reflexivity|].
  destruct (@sendAudio_block_loop test_runtime [] [] None negative_block_source
              eq_refl) as (_ & _ & H).
  apply H; [cbn; lia | reflexivity].
Defined.

(** ** Reading a frame back *)

Lemma writeInt32BE_Z_inv (z : Z) (b : Buffer) :
  writeInt32BE_Z z = Ok b -> int32 z /\ b = be_bytes32 z.
Proof.
  unfold writeInt32BE_Z, writeInt32BE_number, fin_gt, fin_lt, fin_trunc, int32.
  cbn [Z.leb Z.compare]. rewrite Z.pow_0_r, !Z.mul_1_r.
  destruct (2147483647 <? z) eqn:E1; [discriminate|].
  destruct (z <? -2147483648) eqn:E2; [discriminate|].
  cbn [orb]. intros H. apply Z.ltb_ge in E1, E2. split; [lia | congruence].
Qed.

(** X16 (_buildDataMessage, lines 318-352): every field of a frame reads
    back.  In a frame built for a sink, byte 2 is the sink id and byte 3 the
    source id, each reduced modulo 256; a 32-bit read at offset 4 returns
    the stream id (when it is an integer) and at offset 8 the sequence
    counter; and the bytes from offset 16 on are the audio payload, byte for
    byte. *)
Theorem frame_fields_read_back {rt : Runtime} (o : AooSource) (sink : Sink)
    (audioData msg : Buffer) (sid : Z) :
  _buildDataMessage o sink audioData = Ok msg ->
  streamId o = JInt sid ->
  byte_at msg 2 = sinkId sink mod 256
  /\ byte_at msg 3 = sourceId o mod 256
  /\ readInt32BE msg 4 = Ok sid
  /\ readInt32BE msg 8 = Ok (sequence o)
  /\ skipn 16 msg = audioData
  /\ slice msg 16 (len msg) = audioData.
Proof.
  intros H Hsid.
  apply buildDataMessage_shape in H
    as (s0 & s1 & s2 & s3 & q0 & q1 & q2 & q3 & Hs & Hq & Hlen & ->).
  rewrite Hsid in Hs.
  change (writeInt32BE (JInt sid)) with (writeInt32BE_Z sid) in Hs.
  apply writeInt32BE_Z_inv in Hs as [Rs Es].
  apply writeInt32BE_Z_inv in Hq as [Rq Eq].
  assert (Hland : forall z, Z.land z 255 = z mod 256).
  { intros z. change 255 with (Z.ones 8). now rewrite Z.land_ones by lia. }
  split; [apply Hland|]. split; [apply Hland|].
  split; [|split; [|split]].
  - change ([129; 0; Z.land (sinkId sink) 255; Z.land (sourceId o) 255;
             s0; s1; s2; s3; q0; q1; q2; q3; 0; 0]
            ++ be_bytes16 (len audioData) ++ audioData)
      with ([129; 0; Z.land (sinkId sink) 255; Z.land (sourceId o) 255]
            ++ [s0; s1; s2; s3]
            ++ ([q0; q1; q2; q3; 0; 0] ++ be_bytes16 (len audioData) ++ audioData)).
    rewrite Es.
    apply (readInt32BE_app
             [129; 0; Z.land (sinkId sink) 255; Z.land (sourceId o) 255]).
    exact Rs.
  - change ([129; 0; Z.land (sinkId sink) 255; Z.land (sourceId o) 255;
             s0; s1; s2; s3; q0; q1; q2; q3; 0; 0]
            ++ be_bytes16 (len audioData) ++ audioData)
      with ([129; 0; Z.land (sinkId sink) 255; Z.land (sourceId o) 255;
             s0; s1; s2; s3]
            ++ [q0; q1; q2; q3]
            ++ ([0; 0] ++ be_bytes16 (len audioData) ++ audioData)).
    rewrite Eq.
    apply (readInt32BE_app
             [129; 0; Z.land (sinkId sink) 255; Z.land (sourceId o) 255;
              s0; s1; s2; s3]).
    exact Rq.
  - reflexivity.
  - destruct audioData as [|a audio].
    + reflexivity.
    + set (pre := [129; 0; Z.land (sinkId sink) 255; Z.land (sourceId o) 255;
                   s0; s1; s2; s3; q0; q1; q2; q3; 0; 0]
                  ++ be_bytes16 (len (a :: audio))).
      assert (Hpre : len pre = 16) by reflexivity.
      replace (([129; 0; Z.land (sinkId sink) 255; Z.land (sourceId o) 255;
                 s0; s1; s2; s3; q0; q1; q2; q3; 0; 0]
                ++ be_bytes16 (len (a :: audio)) ++ a :: audio))
        with (pre ++ (a :: audio) ++ []).
      * rewrite !len_app, len_nil, Z.add_0_r, <- Hpre.
        apply slice_app. lia.
      * unfold pre. now rewrite app_nil_r, <- app_assoc.
Qed.

Lemma frame_fields_read_back_witness :
  exists msg,
    @_buildDataMessage test_runtime (set_sequence 7 source0)
      {| host := str "127.0.0.1"; port := 9999; sinkId := 258; active := true |}
      [1; 2; 3; 4] = Ok msg
    /\ byte_at msg 2 = 2
    /\ readInt32BE msg 4 = Ok 1234
    /\ readInt32BE msg 8 = Ok 7.
Proof.
  eexists. split; [reflexivity|].
  match goal with |- byte_at ?m 2 = 2 /\ _ =>
    destruct (@frame_fields_read_back test_runtime (set_sequence 7 source0)
                {| host := str "127.0.0.1"; port := 9999; sinkId := 258;
                   active := true |}
                [1; 2; 3; 4] m 1234 eq_refl eq_refl)
      as (H2 & _ & H4 & H8 & _)
  end.
  split; [exact H2 | split; [exact H4 | exact H8]].
Defined.

(** ** Repeating a format change *)

(** X17 (updateSampleRate, lines 205-220): a repeated [updateSampleRate]
    with the same rate does nothing.  After a first call, whether it returned
    or raised while notifying the sinks, the rate is in place, and a second
    call with that rate returns at once: no format id bump and no /start
    message, so sinks that missed the first notification are not told. *)
Theorem updateSampleRate_idempotent {rt : Runtime} (newRate : Z)
    (o : AooSource) :
  let o1 := snd (updateSampleRate newRate o) in
  sampleRate o1 = newRate
  /\ updateSampleRate newRate o1 = (Ok tt, o1).
Proof.
  cbn zeta.
  assert (H : sampleRate (snd (updateSampleRate newRate o)) = newRate).
  { rewrite updateSampleRate_fields. reflexivity. }
  split; [exact H|].
  set (o1 := snd (updateSampleRate newRate o)) in *.
  unfold updateSampleRate, _setSampleRate. rewrite H, Z.eqb_refl. cbn [negb].
  now destruct (negb (_startSent o1)).
Qed.

(** ** Timetag arguments are not decoded *)

Lemma decode_layout (address tags : jsstring) (body : Buffer) :
  ascii7 address -> ascii7 tags ->
  let msg := padded address ++ padded (44 :: tags) ++ body in
  indexOf msg 0 0 = len address
  /\ toString_ascii msg 0 (len address) = address
  /\ _parseOscArgs msg (len address)
     = parse_tags msg tags (len (padded address ++ padded (44 :: tags))) [].
Proof.
  intros Haddr Htags. cbn zeta.
  set (tag := 44 :: tags).
  assert (Htag : ascii7 tag) by (constructor; [lia | exact Htags]).
  set (msg := padded address ++ padded tag ++ body).
  destruct (padded_cons address) as [ka Hka].
  destruct (padded_cons tag) as [kt Hkt].
  split; [|split].
  - unfold msg. rewrite Hka, <- app_assoc. cbn [app].
    apply (indexOf_terminator [] address). now apply ascii7_nonzero.
  - unfold msg, padded. rewrite <- app_assoc.
    apply (toString_ascii_app [] address). exact Haddr.
  - unfold _parseOscArgs. rewrite <- padded_length.
    pose proof (padded_length_ge tag) as Hge.
    pose proof (len_nonneg body) as Hnn.
    destruct (len msg <=? len (padded address)) eqn:E1.
    { bool_hyps. unfold msg in E1. rewrite !len_app in E1. lia. }
    assert (Hend : indexOf msg 0 (len (padded address))
                   = len (padded address) + len tag).
    { unfold msg. rewrite Hkt, <- app_assoc. cbn [app].
      apply indexOf_terminator. now apply ascii7_nonzero. }
    rewrite Hend.
    pose proof (len_nonneg (padded address)). pose proof (len_nonneg tag).
    destruct (len (padded address) + len tag =? -1) eqn:E2; [bool_hyps; lia|].
    assert (Hmod : len (padded address) mod 4 = 0).
    { rewrite padded_length. apply ceil4_bounds. }
    assert (Ht : toString_ascii msg (len (padded address) + 1)
                   (len (padded address) + len tag) = tags).
    { assert (Hshape : msg = (padded address ++ [44]) ++ tags
                             ++ (repeat 0 (Z.to_nat (ceil4 (len tag + 1) - len tag))
                                 ++ body)).
      { unfold msg, padded at 2. unfold tag at 1.
        rewrite <- !app_assoc. reflexivity. }
      rewrite Hshape.
      replace (len (padded address) + 1) with (len (padded address ++ [44]))
        by (rewrite len_app; reflexivity).
      replace (len (padded address) + len tag)
        with (len (padded address ++ [44]) + len tags)
        by (unfold tag; rewrite len_app, !len_cons, len_nil; lia).
      apply toString_ascii_app. exact Htags. }
    rewrite Ht.
    replace (ceil4 (len (padded address) + len tag + 1))
      with (len (padded address ++ padded tag))
      by (rewrite len_app, (padded_length tag), <- Z.add_assoc,
            (ceil4_add _ _ Hmod); reflexivity).
    reflexivity.
Qed.

Lemma parse_tags_timetags (buf : Buffer) (k : nat) :
  forall off acc, parse_tags buf (repeat 116 k) off acc = Ok acc.
Proof.
  induction k as [|k IH]; intros off acc; cbn [repeat parse_tags]; [reflexivity|].
  destruct (len buf <=? off); [reflexivity|].
  change (116 =? tag_i) with false. change (116 =? tag_f) with false.
  change (116 =? tag_s) with false. change (116 =? tag_b) with false.
  change (116 =? tag_N) with false. change (116 =? tag_T) with false.
  change (116 =? tag_F) with false. cbv iota. apply IH.
Qed.

Lemma encode_timetags {rt : Runtime} (ts : list Z) :
  Forall uint64 ts ->
  encode_args (map timetag ts) = Ok (flat_map be_bytes64 ts).
Proof.
  induction 1 as [|n ts Hn _ IH]; [reflexivity|].
  cbn [map flat_map]. apply encode_args_cons; [|exact IH].
  unfold timetag. rewrite encode_arg_t. now apply writeBigUInt64BE_ok.
Qed.

Lemma typeTag_ping (id : Z) (ts : list Z) :
  typeTag (ping_args id ts) = 44 :: 105 :: repeat 116 (length ts).
Proof.
  unfold typeTag, ping_args. cbn [map concat type arg]. change (str ",") with [44].
  change (str "i") with [105]. cbn [app]. do 2 f_equal.
  induction ts as [|n ts IH]; [reflexivity|].
  cbn [map concat length repeat]. rewrite IH. reflexivity.
Qed.

Lemma land_128_small (c : Z) : 0 <= c < 128 -> Z.land c 128 = 0.
Proof.
  intros H. apply Z.bits_inj'. intros n Hn.
  rewrite Z.land_spec, Z.bits_0.
  destruct (Z.eq_dec n 7) as [->|Hne].
  - destruct (Z.eq_dec c 0) as [->|Hc]; [reflexivity|].
    rewrite (Z.bits_above_log2 c 7); [reflexivity | lia |].
    apply Z.log2_lt_pow2; [lia|]. change (2 ^ 7) with 128. lia.
  - change 128 with (2 ^ 7). rewrite (Z.pow2_bits_false 7 n) by lia.
    apply andb_false_r.
Qed.

Lemma includes_nonempty (s sub : jsstring) :
  sub <> [] -> includes s sub = true -> s <> [].
Proof.
  intros Hsub H ->. destruct sub as [|c sub]; [contradiction|].
  cbn in H. discriminate.
Qed.

(** X18 (_parseOscArgs, lines 624-659; _sendPong, lines 571-588;
    _buildOSCMessage, lines 477-481): the decoder has no case for the
    timetag 't' that the encoder writes.  A ping built by [_buildOSCMessage]
    from an integer sink id followed by any number of timetags decodes to the
    sink id alone, so [_sendPong] finds fewer than two arguments: such a
    ping is never answered and changes nothing. *)
Theorem timetag_ping_unanswered {rt : Runtime} (address : jsstring) (id : Z)
    (ts : list Z) (h : jsstring) (p now : Z) (o : AooSource) :
  ascii7 address ->
  includes address (str "/invite") = false ->
  includes address (str "/start") = false ->
  includes address (str "/ping") = true ->
  int32 id ->
  Forall uint64 ts ->
  exists msg,
    _buildOSCMessage address (ping_args id ts) = Ok msg
    /\ decode msg = (address, Ok [JInt id])
    /\ _handleMessage msg h p now o = (Ok tt, o).
Proof.
  intros Haddr Hinv Hstart Hping Hid Hts.
  set (tts := repeat 116 (length ts)).
  assert (Htags : ascii7 (105 :: tts)).
  { constructor; [lia|]. apply Forall_forall. intros c Hc.
    apply repeat_spec in Hc. lia. }
  set (body := be_bytes32 id ++ flat_map be_bytes64 ts).
  set (msg := padded address ++ padded (44 :: 105 :: tts) ++ body).
  destruct (decode_layout address (105 :: tts) body Haddr Htags) as (Hnull & Hstr & Hparse).
  fold msg in Hnull, Hstr, Hparse.
  assert (Hargs : _parseOscArgs msg (len address) = Ok [JInt id]).
  { rewrite Hparse. cbn [parse_tags].
    destruct (len msg <=? len (padded address ++ padded (44 :: 105 :: tts))) eqn:E.
    { bool_hyps. unfold msg, body in E. rewrite app_assoc in E.
      rewrite !len_app in E. pose proof (len_nonneg (flat_map be_bytes64 ts)).
      change (len (be_bytes32 id)) with 4 in E. lia. }
    change (105 =? tag_i) with true. cbv iota.
    assert (Hread : readInt32BE msg (len (padded address ++ padded (44 :: 105 :: tts)))
                    = Ok id).
    { unfold msg, body. rewrite app_assoc.
      apply readInt32BE_app. exact Hid. }
    rewrite Hread. cbn [bind]. apply parse_tags_timetags. }
  exists msg. split; [|split].
  - unfold _buildOSCMessage. rewrite typeTag_ping. fold tts.
    assert (Henc : encode_args (ping_args id ts) = Ok body).
    { unfold ping_args, body. apply encode_args_cons;
        [now apply encode_arg_int | now apply encode_timetags]. }
    rewrite Henc. cbn [bind].
    rewrite !alloc_write_ascii_padded;
      [reflexivity | constructor; [lia | exact Htags] | exact Haddr].
  - unfold decode. rewrite Hnull, Hstr, Hargs. reflexivity.
  - assert (Hne : address <> []).
    { apply (includes_nonempty address (str "/ping")); [discriminate | exact Hping]. }
    destruct address as [|c rest]; [contradiction|].
    assert (Hbin : is_binary msg = false).
    { destruct (padded_cons (c :: rest)) as [k Hk].
      unfold msg. rewrite Hk. unfold is_binary, byte_at.
      cbn [app Z.to_nat nth]. inversion Haddr as [|? ? Hc _]; subst.
      unfold kAooBinMsgDomainBit. rewrite land_128_small by lia.
      apply andb_false_r. }
    unfold _handleMessage. rewrite Hbin, Hnull.
    assert (Hpos : (0 <? len (c :: rest)) = true).
    { apply Z.ltb_lt. rewrite len_cons. pose proof (len_nonneg rest). lia. }
    rewrite Hpos, Hstr, Hinv, Hstart, Hping.
    rewrite sendPong_effect, Hargs. cbn [len length Z.of_nat Z.leb Z.compare].
    change (2 <=? Z.of_nat 1) with false. cbv iota.
    rewrite app_nil_r. now rewrite set_socket_same.
Qed.

Lemma timetag_ping_unanswered_witness :
  exists msg,
    @_buildOSCMessage test_runtime (str "/aoo/src/1/ping")
      (ping_args 1 [123456789]) = Ok msg
    /\ @_handleMessage test_runtime msg (str "10.0.0.5") 7000 5 source0
       = (Ok tt, source0).
Proof.
  destruct (@timetag_ping_unanswered test_runtime (str "/aoo/src/1/ping") 1
              [123456789] (str "10.0.0.5") 7000 5 source0)
    as (msg & H1 & _ & H2).
  - repeat constructor; cbn; lia.
  - reflexivity.
  - reflexivity.
  - reflexivity.
  - unfold int32. lia.
  - repeat constructor; unfold uint64; lia.
  - exists msg. split; [exact H1 | exact H2].
Defined.

(** ** The first audio after an invite *)





(** ** Leading arguments are decoded whatever follows *)








(** ** The bytes of a pong *)




(** ** Restarting a stream *)



(** ** Where datagrams go *)

Lemma start_each_dest {rt : Runtime} (l : list (jsstring * Sink)) :
  forall o,
    exists new,
      socket (snd (start_each l o)) = socket o ++ new
      /\ Forall (fun d => exists s, In s (map snd l)
                                   /\ dg_host d = host s /\ dg_port d = port s)
           new.
Proof.
  induction l as [|[k s] l IH]; intros o; cbn [start_each].
  - exists []. rewrite app_nil_r. split; [reflexivity | constructor].
  - assert (Hone : exists new1 r1 o1,
               (if active s then _sendStartOSC (host s) (port s) (sinkId s)
                else ret tt) o = (r1, o1)
               /\ o1 = set_socket (socket o ++ new1) o
               /\ Forall (fun d => dg_host d = host s /\ dg_port d = port s) new1).
    { destruct (active s).
      - unfold _sendStartOSC, mbind, lift, socket_send, modify.
        destruct (start_message o (sinkId s)) as [m|e].
        + exists [{| dg_msg := m; dg_port := port s; dg_host := host s |}].
          do 2 eexists. split; [reflexivity|]. split; [reflexivity|].
          repeat constructor.
        + exists []. do 2 eexists. split; [reflexivity|].
          rewrite app_nil_r, set_socket_same. split; [reflexivity | constructor].
      - exists []. do 2 eexists. split; [reflexivity|].
        rewrite app_nil_r, set_socket_same. split; [reflexivity | constructor]. }
    destruct Hone as (new1 & r1 & o1 & Hrun & Ho1 & Hd1).
    unfold mbind. rewrite Hrun.
    assert (Hd1' : Forall (fun d => exists s0, In s0 (map snd ((k, s) :: l))
                                     /\ dg_host d = host s0 /\ dg_port d = port s0)
                     new1).
    { eapply Forall_impl; [|exact Hd1]. intros d [H1 H2]. exists s.
      split; [now left | now split]. }
    destruct r1 as [[]|e]; cbn [snd].
    + destruct (IH o1) as (new2 & Hs2 & Hd2).
      exists (new1 ++ new2). split.
      * rewrite Hs2, Ho1. cbn [socket set_socket]. now rewrite app_assoc.
      * apply Forall_app. split; [exact Hd1'|].
        eapply Forall_impl; [|exact Hd2]. intros d (s0 & Hin & H).
        exists s0. split; [now right | exact H].
    + exists new1. split; [now rewrite Ho1 | exact Hd1'].
Qed.

Lemma announce_dest {rt : Runtime} (rate : option Z) (o : AooSource) :
  exists new,
    socket (snd (announce rate o)) = socket o ++ new
    /\ Forall (sent_to_sink o) new.
Proof.
  destruct (_startSent o) eqn:Hs.
  - rewrite announce_sent by exact Hs. exists []. rewrite app_nil_r.
    split; [reflexivity | constructor].
  - rewrite announce_unfold by exact Hs.
    unfold _sendStartToAllSinks, mbind, modify.
    destruct (start_each_dest (sinks (rate_applied rate o)) (rate_applied rate o))
      as (new & Hsock & Hd).
    assert (Hsinks : sinks (rate_applied rate o) = sinks o)
      by (rewrite rate_applied_fields; reflexivity).
    assert (Hs0 : socket (rate_applied rate o) = socket o)
      by (rewrite rate_applied_fields; reflexivity).
    rewrite Hsinks, Hs0 in *.
    exists new. split; [|exact Hd].
    destruct (start_each (sinks o) (rate_applied rate o)) as [[[]|e] o1];
      cbn [snd socket set_startSent] in *; exact Hsock.
Qed.

Lemma Forall2_dest (P : Sink -> Datagram -> Prop) (l : list Sink)
    (dgs : list Datagram) :
  (forall s d, P s d -> dg_host d = host s /\ dg_port d = port s) ->
  Forall2 P l dgs ->
  Forall (fun d => exists s, In s l /\ dg_host d = host s /\ dg_port d = port s)
    dgs.
Proof.
  intros HP. induction 1 as [|s d l dgs Hsd _ IH]; constructor.
  - exists s. split; [now left | now apply HP].
  - eapply Forall_impl; [|exact IH]. intros d' (s' & Hin & H).
    exists s'. split; [now right | exact H].
Qed.

Lemma drained_dest {rt : Runtime} (o : AooSource) (sq : Z)
    (blocks : list (list jsval)) (frames : list Datagram) :
  drained o sq blocks frames -> Forall (sent_to_sink o) frames.
Proof.
  induction 1 as [|sq block blocks dgs rest Hf _ IH]; [constructor|].
  apply Forall_app. split; [|exact IH].
  apply (Forall2_dest (frame_for o sq block)); [|exact Hf].
  intros s d (_ & Hp & Hh). now split.
Qed.

Lemma sent_to_sink_ext (o o' : AooSource) (new : list Datagram) :
  sinks o' = sinks o -> Forall (sent_to_sink o) new -> Forall (sent_to_sink o') new.
Proof. unfold sent_to_sink. now intros ->. Qed.

Lemma updateSampleRate_dest {rt : Runtime} (newRate : Z) (o : AooSource) :
  exists new,
    socket (snd (updateSampleRate newRate o)) = socket o ++ new
    /\ Forall (sent_to_sink (snd (updateSampleRate newRate o))) new.
Proof.
  assert (Hnone : forall o1 : AooSource,
            socket o1 = socket o ->
            exists new, socket o1 = socket o ++ new
                        /\ Forall (sent_to_sink o1) new).
  { intros o1 E. exists []. rewrite app_nil_r. split; [exact E | constructor]. }
  unfold updateSampleRate, _setSampleRate.
  destruct (negb (_startSent o));
    [apply Hnone; now destruct (negb (sampleRate o =? newRate))|].
  destruct (negb (sampleRate o =? newRate)); [|now apply Hnone].
  cbv beta iota delta [mbind modify].
  set (o1 := set_formatId (formatId o + 1) (set_sampleRate newRate o)).
  destruct (start_each_dest (sinks o1) o1) as (new & Hs & Hd).
  exists new. split; [exact Hs|].
  rewrite start_each_fields. exact Hd.
Qed.

Lemma sendAudio_dest {rt : Runtime} (fuel : nat) (left right : list jsval)
    (rate : option Z) (o : AooSource) (res : result unit) (o' : AooSource) :
  sendAudio fuel left right rate o = Some (res, o') ->
  exists new,
    socket o' = socket o ++ new /\ Forall (sent_to_sink o') new.
Proof.
  unfold sendAudio. intros Hstep.
  destruct (isStreaming o); cbn [negb] in Hstep.
  - destruct (announce_dest rate o) as (ann & Hann & Hda).
    pose proof (announce_same_stream rate o) as Hsame.
    destruct (announce rate o) as [[[]|e] o1]; cbn [snd] in Hann, Hsame;
      destruct Hsame as (_ & _ & _ & Hsinks & _).
    + apply drain_spec in Hstep.
      destruct Hstep as (blocks & new & Hdr & Hsock & _ & Hframe & _).
      destruct (drain_frame_all _ _ Hframe)
        as (_ & _ & _ & _ & _ & _ & _ & _ & _ & Hk).
      unfold push_samples in *. cbn [socket sinks set_sampleBuffer] in *.
      exists (ann ++ new). split; [now rewrite Hsock, Hann, app_assoc|].
      apply Forall_app. split.
      * apply (sent_to_sink_ext o); [congruence | exact Hda].
      * apply drained_dest in Hdr.
        apply (sent_to_sink_ext (set_sampleBuffer
                                   (sampleBuffer o1 ++ interleave left right) o1));
          [exact Hk | exact Hdr].
    + apply some_pair_snd in Hstep. subst o'. cbn [snd].
      exists ann. split; [exact Hann|].
      apply (sent_to_sink_ext o); [exact Hsinks | exact Hda].
  - apply some_pair_snd in Hstep. subst o'. exists []. rewrite app_nil_r.
    split; [reflexivity | constructor].
Qed.

Lemma handleMessage_dest {rt : Runtime} (msg : Buffer) (h : jsstring)
    (p now : Z) (o : AooSource) :
  exists new,
    socket (snd (_handleMessage msg h p now o)) = socket o ++ new
    /\ Forall (fun d => dg_host d = h /\ dg_port d = p) new.
Proof.
  assert (Hnone : forall o1 : AooSource,
            socket o1 = socket o ->
            exists new, socket o1 = socket o ++ new
                        /\ Forall (fun d => dg_host d = h /\ dg_port d = p) new).
  { intros o1 E. exists []. rewrite app_nil_r. split; [exact E | constructor]. }
  assert (Hone : forall (o1 : AooSource) m,
            socket o1 = socket o ++ [datagram m p h] ->
            exists new, socket o1 = socket o ++ new
                        /\ Forall (fun d => dg_host d = h /\ dg_port d = p) new).
  { intros o1 m E. exists [datagram m p h]. split; [exact E|].
    repeat constructor. }
  unfold _handleMessage.
  destruct (is_binary msg); [now apply Hnone|].
  destruct (0 <? indexOf msg 0 0); [|now apply Hnone].
  destruct (includes (toString_ascii msg 0 (indexOf msg 0 0)) (str "/invite")).
  { rewrite handle_invite_effect. cbn [snd].
    destruct (_parseOscArgs msg (indexOf msg 0 0)) as [args|e];
      [|now apply Hnone].
    destruct (2 <=? len args); [|now apply Hnone]. cbv zeta.
    destruct (start_message _ 1) as [m|e]; [|now apply Hnone].
    apply (Hone _ m). unfold start. cbn [isStreaming set_socket].
    destruct (isStreaming _); reflexivity. }
  destruct (includes (toString_ascii msg 0 (indexOf msg 0 0)) (str "/start")).
  { destruct (handle_start_effect h p msg (indexOf msg 0 0) o) as [E S].
    rewrite E.
    destruct (start_message _ 1) as [m|e]; cbn [snd].
    - now apply (Hone _ m).
    - now apply Hnone. }
  destruct (includes (toString_ascii msg 0 (indexOf msg 0 0)) (str "/ping"));
    [|now apply Hnone].
  rewrite sendPong_effect. cbn [snd].
  destruct (_parseOscArgs msg (indexOf msg 0 0)) as [args|e];
    [|apply Hnone; cbn; now rewrite app_nil_r].
  destruct (2 <=? len args); [|apply Hnone; cbn; now rewrite app_nil_r].
  destruct (pong_message o args now) as [m|e];
    [|apply Hnone; cbn; now rewrite app_nil_r].
  now apply (Hone _ m).
Qed.

(** X23 (socket.send at lines 284, 396 and 585, with their callers): the
    source sends only to registered sinks and to the sender of the datagram
    it is answering.  Whatever the operation, and whether it returns or
    raises, the datagrams already sent stay as they are, and every datagram
    it adds is addressed to the host and port of a sink in the registry, or,
    when the operation is the handling of an inbound datagram, to the
    address that datagram came from. *)
Theorem sends_only_to_known {rt : Runtime} (fuel : nat) (c : op)
    (o : AooSource) (res : result unit) (o' : AooSource) :
  step fuel c o = Some (res, o') ->
  exists new,
    socket o' = socket o ++ new
    /\ Forall (fun d => sent_to_sink o' d \/ sent_to_sender c d) new.
Proof.
  intros Hstep.
  assert (Hnone : socket o' = socket o ->
            exists new,
              socket o' = socket o ++ new
              /\ Forall (fun d => sent_to_sink o' d \/ sent_to_sender c d) new).
  { intros E. exists []. rewrite app_nil_r. split; [exact E | constructor]. }
  assert (Hleft : forall new,
            socket o' = socket o ++ new -> Forall (sent_to_sink o') new ->
            exists new,
              socket o' = socket o ++ new
              /\ Forall (fun d => sent_to_sink o' d \/ sent_to_sender c d) new).
  { intros new E H. exists new. split; [exact E|].
    eapply Forall_impl; [|exact H]. intros d Hd. now left. }
  destruct c as [h p id | | | newRate | l r rate | msg h p now];
    cbn [step] in Hstep.
  - apply some_pair_snd in Hstep. apply Hnone. now rewrite Hstep.
  - apply some_pair_snd in Hstep. apply Hnone. rewrite Hstep.
    unfold start. now destruct (isStreaming o).
  - apply some_pair_snd in Hstep. apply Hnone. now rewrite Hstep.
  - apply some_pair_snd in Hstep.
    destruct (updateSampleRate_dest newRate o) as (new & Hs & Hd).
    rewrite <- Hstep in Hs, Hd. now apply (Hleft new).
  - destruct (sendAudio_dest _ _ _ _ _ _ _ Hstep) as (new & Hs & Hd).
    now apply (Hleft new).
  - apply some_pair_snd in Hstep.
    destruct (handleMessage_dest msg h p now o) as (new & Hs & Hd).
    rewrite <- Hstep in Hs. exists new. split; [exact Hs|].
    eapply Forall_impl; [|exact Hd]. intros d Hd'. now right.
Qed.

Lemma sends_only_to_known_witness :
  exists new,
    socket (snd (@updateSampleRate test_runtime 44100 announced_source))
    = socket announced_source ++ new
    /\ Forall
         (fun d =>
            sent_to_sink (snd (@updateSampleRate test_runtime 44100
                                 announced_source)) d
            \/ sent_to_sender (OpUpdateSampleRate 44100) d) new.
Proof.
  apply (@sends_only_to_known test_runtime 0 (OpUpdateSampleRate 44100)
           announced_source
           (fst (@updateSampleRate test_runtime 44100 announced_source))).
  cbn [step]. now rewrite <- surjective_pairing.
Defined.
